(** * YHapLZ: a shallow embedding of the Y-chromosome haplogroup classifier

    The development follows [src/YHapLZ.py] (the generated classifier),
    [src/proYHapLZ.py] (the base classifier it is generated from) and
    [src/generate_YHapLZ.py] (the generator of the tree text).

    Conventions of the embedding:
    - a Python [str] is a [string]; characters are code points below 256 and
      the case conversions are the ASCII ones (the tree text, the ISOGG table
      and the VCF columns are ASCII);
    - a Python [int] that is a position is a [Z]; lengths and counters are
      [nat]; a Python [float] is a binary64 [float];
    - a [dict] that is only ever read by key is a [gmap]; a [dict] whose
      iteration order is observed is an insertion-ordered association list
      ([odict]);
    - an operation that can raise ([d[k]], [l[i]], [int(s)]) lives in the
      [outcome] monad, so that "does not raise" is a statement, not an
      assumption.

    Embedded from [HaplogroupClassifier]: the class constants, [__init__],
    [_parse_tree], [_load_isogg], [_build_node_snp_positions],
    [get_ancestors], [get_depth], [get_main_branch], [check_genotype],
    [is_derived], [check_node_status], [classify_sample] and
    [_make_result]; from the rest of [src/YHapLZ.py]: [load_vcf] and the
    classification loop of [main]; from the generator: [parse_isogg_tree],
    [format_branch] and the F branch of [generate_yhaplz]. Files are given
    as the lists of their lines. [_check_main_branch_snps], the report
    writers and the command line only print or write and are left out. *)

From Stdlib Require Import Ascii Floats.PrimFloat.
From stdpp Require Import gmap strings list fin_maps pretty sorting.

Set Warnings "-inexact-float,-clear-no-such-hyp".

(* ===================================================================== *)
(** * Python primitives *)
(* ===================================================================== *)

Module Py.

(** ** Exceptions *)

Inductive exn := KeyError | IndexError | ValueError.

Inductive outcome (A : Type) : Type :=
| Ok (a : A)
| Raise (e : exn).
Arguments Ok {A} a.
Arguments Raise {A} e.

#[export] Instance outcome_ret : MRet outcome := fun A a => Ok a.
#[export] Instance outcome_bind : MBind outcome := fun A B f m =>
  match m with
  | Ok a => f a
  | Raise e => Raise e
  end.
#[export] Instance outcome_fmap : FMap outcome := fun A B f m =>
  match m with
  | Ok a => Ok (f a)
  | Raise e => Raise e
  end.

(** [for x in l: st = body(st, x)] where the body may raise. *)
Fixpoint for_each {A S : Type} (body : S -> A -> outcome S) (l : list A) (st : S)
  : outcome S :=
  match l with
  | [] => Ok st
  | x :: l' => st' ← body st x; for_each body l' st'
  end.

(** [try: ... except: handler] for a computation without side effects. *)
Definition try_except {A : Type} (c : outcome A) (handler : A) : A :=
  match c with
  | Ok a => a
  | Raise _ => handler
  end.

(** ** Characters and strings *)

Definition TAB : string := String "009"%char "".
Definition NL : string := String "010"%char "".

(** Whitespace in the sense of [str.strip()] / [str.isspace()], for code
    points below 256. *)
Definition is_space (c : ascii) : bool :=
  let n := nat_of_ascii c in
  ((9 <=? n) && (n <=? 13)) || ((28 <=? n) && (n <=? 32)) || (n =? 133) || (n =? 160).

Definition is_digit_char (c : ascii) : bool :=
  let n := nat_of_ascii c in (48 <=? n) && (n <=? 57).

Definition upper_char (c : ascii) : ascii :=
  let n := nat_of_ascii c in
  if (97 <=? n) && (n <=? 122) then ascii_of_nat (n - 32) else c.

Definition lower_char (c : ascii) : ascii :=
  let n := nat_of_ascii c in
  if (65 <=? n) && (n <=? 90) then ascii_of_nat (n + 32) else c.

Fixpoint str_map (f : ascii -> ascii) (s : string) : string :=
  match s with
  | EmptyString => EmptyString
  | String c s' => String (f c) (str_map f s')
  end.

(** [s.upper()], [s.lower()] *)
Definition upper (s : string) : string := str_map upper_char s.
Definition lower (s : string) : string := str_map lower_char s.

(** truth value of a string: [if s:] *)
Definition truthy (s : string) : bool :=
  match s with EmptyString => false | _ => true end.

Fixpoint lstrip_by (p : ascii -> bool) (s : string) : string :=
  match s with
  | EmptyString => EmptyString
  | String c s' => if p c then lstrip_by p s' else s
  end.

Fixpoint rstrip_by (p : ascii -> bool) (s : string) : string :=
  match s with
  | EmptyString => EmptyString
  | String c s' =>
      match rstrip_by p s' with
      | EmptyString => if p c then EmptyString else String c EmptyString
      | r => String c r
      end
  end.

(** [s.strip()] *)
Definition strip (s : string) : string := rstrip_by is_space (lstrip_by is_space s).

Fixpoint char_in (c : ascii) (chars : string) : bool :=
  match chars with
  | EmptyString => false
  | String d chars' => Ascii.eqb c d || char_in c chars'
  end.

(** [s.rstrip(chars)] *)
Definition rstrip_chars (chars : string) (s : string) : string :=
  rstrip_by (fun c => char_in c chars) s.

(** [s.startswith(p)] *)
Definition startswith (s p : string) : bool := String.prefix p s.

(** [sub in s] *)
Fixpoint contains (sub s : string) : bool :=
  String.prefix sub s ||
  match s with
  | EmptyString => false
  | String _ s' => contains sub s'
  end.

(** [s.split(sep)] for a non-empty separator: [skip] counts the characters
    of a separator occurrence that are still to be passed over. *)
Fixpoint split_go (sep : string) (skip : nat) (s : string) : list string :=
  match s with
  | EmptyString => [EmptyString]
  | String c s' =>
      match skip with
      | S k => split_go sep k s'
      | O =>
          if String.prefix sep s
          then EmptyString :: split_go sep (String.length sep - 1) s'
          else match split_go sep 0 s' with
               | piece :: pieces => String c piece :: pieces
               | [] => [String c EmptyString]
               end
      end
  end.

Definition split (sep : string) (s : string) : list string := split_go sep 0 s.

(** [s[i]] on a string; the result is a string of length one. *)
Definition str_item (s : string) (i : nat) : outcome string :=
  match String.get i s with
  | Some c => Ok (String c EmptyString)
  | None => Raise IndexError
  end.

(** [s.isdigit()]: non-empty and all digits. *)
Fixpoint all_chars (p : ascii -> bool) (s : string) : bool :=
  match s with
  | EmptyString => true
  | String c s' => p c && all_chars p s'
  end.

Definition isdigit (s : string) : bool := truthy s && all_chars is_digit_char s.

(** [l[i]] on a list. *)
Definition list_item {A : Type} (l : list A) (i : nat) : outcome A :=
  match l !! i with
  | Some x => Ok x
  | None => Raise IndexError
  end.

(** [x in [s1, ..., sn]] *)
Definition in_list (x : string) (l : list string) : bool := bool_decide (x ∈ l).

(** ** [int(s)] for a decimal literal

    Surrounding whitespace is ignored, one sign is allowed, and single
    underscores may separate digits. *)

Definition digit_val (c : ascii) : Z := Z.of_nat (nat_of_ascii c - 48).

(** [digits_go acc prev_digit s]: [prev_digit] tells whether the previous
    character was a digit (an underscore is legal only between digits). *)
Fixpoint digits_go (acc : Z) (prev_digit : bool) (s : string) : option Z :=
  match s with
  | EmptyString => if prev_digit then Some acc else None
  | String c s' =>
      if is_digit_char c then digits_go (10 * acc + digit_val c) true s'
      else if Ascii.eqb c "_"%char && prev_digit then
        match s' with
        | String d _ => if is_digit_char d then digits_go acc false s' else None
        | EmptyString => None
        end
      else None
  end.

Definition py_int (s : string) : outcome Z :=
  let body := strip s in
  let parsed :=
    match body with
    | String "-" r => Z.opp <$> digits_go 0 false r
    | String "+" r => digits_go 0 false r
    | _ => digits_go 0 false body
    end in
  match parsed with
  | Some z => Ok z
  | None => Raise ValueError
  end.

(** ** Insertion-ordered dictionaries

    [d[k] = v] keeps the position of an existing key and appends a new one;
    [d.items()] is the list itself. *)

Section odict.
Context {K V : Type} `{EqDecision K}.

Fixpoint od_get (k : K) (d : list (K * V)) : option V :=
  match d with
  | [] => None
  | (k', v) :: d' => if decide (k = k') then Some v else od_get k d'
  end.

(** [k in d] *)
Definition od_mem (k : K) (d : list (K * V)) : bool :=
  match od_get k d with Some _ => true | None => false end.

(** [d[k] = v] *)
Fixpoint od_set (k : K) (v : V) (d : list (K * V)) : list (K * V) :=
  match d with
  | [] => [(k, v)]
  | (k', v') :: d' =>
      if decide (k = k') then (k, v) :: d' else (k', v') :: od_set k v d'
  end.
End odict.

(** [d[k]] on a [dict] modelled as a [gmap]. *)
Definition dict_item {K V : Type} `{Countable K} (d : gmap K V) (k : K) : outcome V :=
  match d !! k with
  | Some v => Ok v
  | None => Raise KeyError
  end.

(** [k in d] *)
Definition dict_mem {K V : Type} `{Countable K} (k : K) (d : gmap K V) : bool :=
  match d !! k with Some _ => true | None => false end.

End Py.

Import Py.

(* ===================================================================== *)
(** * Genotype status *)
(* ===================================================================== *)

(** [class GenotypeStatus]: five distinct string constants. *)
Inductive GenotypeStatus :=
| DERIVED | ANCESTRAL | HETEROZYGOUS | MISSING | MISMATCH.

#[export] Instance GenotypeStatus_eq_dec : EqDecision GenotypeStatus.
Proof. solve_decision. Defined.

(** [str(status)] *)
Definition status_str (s : GenotypeStatus) : string :=
  match s with
  | DERIVED => "derived"
  | ANCESTRAL => "ancestral"
  | HETEROZYGOUS => "het"
  | MISSING => "missing"
  | MISMATCH => "mismatch"
  end.

(** The homozygous encodings tested by [check_genotype]. *)
Definition hom_alt_calls : list string := ["1/1"; "1|1"; "1"].
Definition hom_ref_calls : list string := ["0/0"; "0|0"; "0"].

(* ===================================================================== *)
(** * The base classifier, [src/proYHapLZ.py] *)
(* ===================================================================== *)

Module ProYHapLZ.

(** [HaplogroupClassifier.check_genotype], proYHapLZ.py lines 423-466.
    The inner [option] is the status returned from inside the
    "explicit ref/alt" block, [None] when control falls through. *)
Definition check_genotype (gt vcf_ref vcf_alt exp_ref exp_alt : string)
  : GenotypeStatus :=
  if in_list gt ["./."; "."; ""] then MISSING
  else
    let vcf_ref := upper vcf_ref in
    let vcf_alt := if negb (String.eqb vcf_alt ".") then upper vcf_alt else "" in
    let is_het := in_list gt ["0/1"; "0|1"; "1/0"; "1|0"] in
    let is_hom_alt := in_list gt ["1/1"; "1|1"; "1"] in
    let is_hom_ref := in_list gt ["0/0"; "0|0"; "0"] in
    let explicit : option GenotypeStatus :=
      if truthy exp_ref && truthy exp_alt then
        if String.eqb vcf_ref (upper exp_ref) && String.eqb vcf_alt (upper exp_alt) then
          if is_hom_alt then Some DERIVED
          else if is_het then Some HETEROZYGOUS
          else if is_hom_ref then Some ANCESTRAL
          else None
        else if String.eqb vcf_ref (upper exp_alt) && String.eqb vcf_alt (upper exp_ref) then
          if is_hom_ref then Some DERIVED
          else if is_het then Some HETEROZYGOUS
          else if is_hom_alt then Some ANCESTRAL
          else None
        else None
      else None in
    match explicit with
    | Some status => status
    | None =>
        if is_hom_alt then DERIVED
        else if is_het then HETEROZYGOUS
        else if is_hom_ref then ANCESTRAL
        else MISMATCH
    end.

End ProYHapLZ.

(* ===================================================================== *)
(** * The generated classifier, [src/YHapLZ.py] *)
(* ===================================================================== *)

Module YHapLZ.

(** ** Class constants *)

Definition MAIN_BRANCHES : list string :=
  ["A"; "B"; "C"; "D"; "E"; "G"; "H"; "I"; "J"; "L"; "N"; "O"; "Q"; "R"; "T"].

Definition INTERMEDIATE_NODES : gset string :=
  list_to_set
    ["K"; "NO"; "NO1"; "P"; "P1"; "LT"; "F"; "CF"; "DE"; "CT";
     "BT"; "GHIJK"; "HIJK"; "IJK"; "IJ"; "A1b"; "A1b1";
     "A0-T"; "A00-T"; "A000-T"].

Definition MAIN_BRANCH_DEFINING_SNPS : gmap string string :=
  list_to_map
    [("A", "L1085"); ("B", "M60");
     ("C", "M130"); ("D", "M174"); ("E", "M96");
     ("G", "M201"); ("H", "L901"); ("I", "M170");
     ("J", "M304"); ("L", "M20"); ("N", "M231");
     ("O", "M175");
     ("Q", "M242"); ("R", "M207"); ("T", "M184")].

Definition F_DEFINING_SNP : string := "M89".

(** ** The classifier object *)

(** One element of [pos_to_haplo[pos]]: [(haplo, snp_name, ref, alt)]. *)
Definition haplo_entry : Type := string * string * string * string.

(** One value of [snp_to_info]: [(pos, ref, alt)]. *)
Definition snp_info : Type := Z * string * string.

(** One value of a sample genotype map: [(gt, vcf_ref, vcf_alt)]. *)
Definition genotype : Type := string * string * string.

Record classifier := {
  het_mode : string;
  phylo_tree : gmap string string;                (* child -> parent *)
  node_snps : list (string * list string);        (* node -> [snp1, snp2, ...] *)
  snp_to_info : gmap string snp_info;             (* snp_name -> (pos, ref, alt) *)
  pos_to_haplo : list (Z * list haplo_entry)      (* pos -> [(haplo, snp, ref, alt), ...] *)
}.

(** ** [_parse_tree] (lines 4366-4422) *)

(** The leading-tab count of a line. *)
Fixpoint count_indent (line : string) : nat :=
  match line with
  | String c rest => if Ascii.eqb c "009"%char then S (count_indent rest) else 0
  | EmptyString => 0
  end.

(** [alias.strip().rstrip('~^*')] *)
Definition clean_name (name : string) : string := rstrip_chars "~^*" (strip name).

(** The aliases contributed by one comma-separated part of the SNP column. *)
Definition snp_part_aliases (snp_part : string) : list string :=
  let snp_part := strip snp_part in
  if truthy snp_part && negb (startswith snp_part "(") then
    List.filter truthy (clean_name <$> split "/" snp_part)
  else [].

(** The "Extract SNPs" block. *)
Definition extract_snps (parts : list string) : outcome (list string) :=
  if 2 <=? length parts then
    snp_text ← list_item parts 1;
    Ok (concat (snp_part_aliases <$> split "," (strip snp_text)))
  else Ok [].

(** [while path_stack and path_stack[-1][0] >= indent: path_stack.pop()];
    the stack is kept with its top (the Python list's last element) first. *)
Fixpoint pop_while (indent : nat) (path_stack : list (nat * string))
  : list (nat * string) :=
  match path_stack with
  | (top_indent, _) :: below =>
      if indent <=? top_indent then pop_while indent below else path_stack
  | [] => []
  end.

(** Loop state: [(phylo_tree, node_snps, path_stack)]. *)
Definition tree_state : Type :=
  gmap string string * list (string * list string) * list (nat * string).

(** The body of [for line in lines]. *)
Definition parse_tree_line (st : tree_state) (line : string) : outcome tree_state :=
  let '(phylo_tree, node_snps, path_stack) := st in
  if negb (truthy (strip line)) then Ok st
  else
    let indent := count_indent line in
    let content := strip line in
    let parts := split TAB content in
    if length parts <? 1 then Ok st
    else
      part0 ← list_item parts 0;
      let node_name := strip part0 in
      if in_list node_name ["Y"; "Root"; ""] || contains "see " (lower node_name)
      then Ok st
      else
        snps ← extract_snps parts;
        let node_snps := od_set node_name snps node_snps in
        let path_stack := pop_while indent path_stack in
        let phylo_tree :=
          match path_stack with
          | (_, parent) :: _ => <[node_name := parent]> phylo_tree
          | [] => phylo_tree
          end in
        Ok (phylo_tree, node_snps, (indent, node_name) :: path_stack).

Definition _parse_tree (tree_text : string)
  : outcome (gmap string string * list (string * list string)) :=
  let lines := split NL (strip tree_text) in
  '(phylo_tree, node_snps, _) ← for_each parse_tree_line lines (∅, [], []);
  Ok (phylo_tree, node_snps).

(** ** [_load_isogg] (lines 4424-4469)

    The file is given as its header line and its remaining lines. *)

(** What one accepted line of the table contributes. *)
Record isogg_row := {
  row_snp_name : string;
  row_haplo : string;
  row_alt_names : list string;   (* [parts[2].split(';')], cleaned, in order *)
  row_pos : Z;
  row_ref : string;
  row_alt : string
}.

Definition row_info (r : isogg_row) : snp_info := (row_pos r, row_ref r, row_alt r).

(** [a, b = l]: exactly two elements, otherwise [ValueError]. *)
Definition unpack2 {A : Type} (l : list A) : outcome (A * A) :=
  match l with
  | [a; b] => Ok (a, b)
  | _ => Raise ValueError
  end.

(** The [ref, alt] block: both empty unless the mutation reads [X->Y]. *)
Definition parse_mutation (mutation : string) : string * string :=
  if contains "->" mutation then
    try_except
      ('(ref, alt) ← unpack2 (take 2 (split "->" mutation));
       Ok (upper (strip ref), upper (strip alt)))
      ("", "")
  else ("", "").

(** The part of the loop body that decodes a line; [None] where the body
    executes [continue]. *)
Definition parse_isogg_line (sep : string) (line : string) : outcome (option isogg_row) :=
  let parts := split sep (strip line) in
  if length parts <? 7 then Ok None
  else
    part0 ← list_item parts 0;
    part1 ← list_item parts 1;
    part4 ← list_item parts 4;
    let snp_name := clean_name part0 in
    let haplo := clean_name part1 in
    let pos_str := strip part4 in
    mutation ← (if 6 <? length parts then strip <$> list_item parts 6 else Ok "");
    if negb (truthy pos_str) || contains ".." pos_str then Ok None
    else
      match py_int pos_str with
      | Raise _ => Ok None
      | Ok pos =>
          let '(ref, alt) := parse_mutation mutation in
          alt_names ← (if 2 <? length parts
                       then part2 ← list_item parts 2;
                            Ok (clean_name <$> split ";" part2)
                       else Ok []);
          Ok (Some {| row_snp_name := snp_name; row_haplo := haplo;
                      row_alt_names := alt_names;
                      row_pos := pos; row_ref := ref; row_alt := alt |})
      end.

(** [if alt_name and alt_name not in self.snp_to_info: ...] *)
Definition add_alias (info : snp_info) (snp_to_info : gmap string snp_info)
    (alt_name : string) : gmap string snp_info :=
  if truthy alt_name && negb (dict_mem alt_name snp_to_info)
  then <[alt_name := info]> snp_to_info
  else snp_to_info.

(** [d[k].append(x)] on a [defaultdict(list)]. *)
Definition dd_append {K V : Type} `{EqDecision K} (k : K) (x : V)
    (d : list (K * list V)) : list (K * list V) :=
  od_set k (default [] (od_get k d) ++ [x]) d.

(** Loop state: [(snp_to_info, pos_to_haplo, count)]. *)
Definition isogg_state : Type :=
  gmap string snp_info * list (Z * list haplo_entry) * nat.

(** The part of the loop body that updates the two indexes. *)
Definition add_isogg_row (st : isogg_state) (r : isogg_row) : isogg_state :=
  let '(snp_to_info, pos_to_haplo, count) := st in
  let snp_to_info := <[row_snp_name r := row_info r]> snp_to_info in
  let pos_to_haplo :=
    dd_append (row_pos r) (row_haplo r, row_snp_name r, row_ref r, row_alt r)
              pos_to_haplo in
  (foldl (add_alias (row_info r)) snp_to_info (row_alt_names r),
   pos_to_haplo, S count).

Definition load_isogg_line (sep : string) (st : isogg_state) (line : string)
  : outcome isogg_state :=
  decoded ← parse_isogg_line sep line;
  match decoded with
  | Some r => Ok (add_isogg_row st r)
  | None => Ok st
  end.

Definition _load_isogg (header : string) (lines : list string) (st : isogg_state)
  : outcome isogg_state :=
  let sep := if contains TAB header then TAB else "," in
  for_each (load_isogg_line sep) lines st.

(** [__init__], with the tree text (the module constant [OFFICIAL_TREE] in
    the source) and the file content as arguments. *)
Definition __init__ (tree_text : string) (header : string) (lines : list string)
    (het_mode : string) : outcome classifier :=
  '(phylo_tree, node_snps) ← _parse_tree tree_text;
  '(snp_to_info, pos_to_haplo, _) ← _load_isogg header lines (∅, [], 0);
  Ok {| het_mode := het_mode; phylo_tree := phylo_tree; node_snps := node_snps;
        snp_to_info := snp_to_info; pos_to_haplo := pos_to_haplo |}.

(** ** [get_ancestors] and [get_depth] (lines 4498-4514) *)

(** The [while] loop of [get_ancestors], with the number of iterations
    bounded by [fuel]; [None] means the bound was hit before the loop
    condition became false. *)
Fixpoint ancestors_loop (fuel : nat) (phylo_tree : gmap string string)
    (current : string) (seen : gset string) (ancestors : list string)
  : option (list string) :=
  match phylo_tree !! current with
  | Some parent =>
      if bool_decide (current ∈ seen) then Some ancestors
      else
        match fuel with
        | O => None
        | S fuel' =>
            ancestors_loop fuel' phylo_tree parent ({[current]} ∪ seen)
                           (ancestors ++ [parent])
        end
  | None => Some ancestors
  end.

Definition get_ancestors_fuel (fuel : nat) (phylo_tree : gmap string string)
    (node : string) : option (list string) :=
  ancestors_loop fuel phylo_tree node ∅ [].

(** Every iteration adds a key of [phylo_tree] to [seen], so [size
    phylo_tree] iterations are enough (lemma [get_ancestors_fuel_enough]). *)
Definition get_ancestors (phylo_tree : gmap string string) (node : string)
  : list string :=
  default [] (get_ancestors_fuel (size phylo_tree) phylo_tree node).

Definition get_depth (phylo_tree : gmap string string) (node : string) : nat :=
  length (get_ancestors phylo_tree node).

(** ** [get_main_branch] (lines 4516-4539) *)

(** The "Direct match" loop over the remaining branches. *)
Fixpoint direct_match (haplo : string) (branches : list string)
  : outcome (option string) :=
  match branches with
  | [] => Ok None
  | branch :: rest =>
      if String.eqb haplo branch then Ok (Some branch)
      else
        hit ← (if startswith haplo branch && (1 <? String.length haplo) then
                 next_char ← (if String.length branch <? String.length haplo
                              then str_item haplo (String.length branch)
                              else Ok "");
                 Ok (isdigit next_char || String.eqb next_char "")
               else Ok false);
        if (hit : bool) then Ok (Some branch) else direct_match haplo rest
  end.

Definition get_main_branch (haplo : string) : outcome (option string) :=
  if negb (truthy haplo) then Ok None
  else
    found ← direct_match haplo MAIN_BRANCHES;
    match found with
    | Some branch => Ok (Some branch)
    | None =>
        if bool_decide (haplo ∈ INTERMEDIATE_NODES) then Ok None
        else
          first ← (if truthy haplo then Some <$> str_item haplo 0 else Ok None);
          match first with
          | Some c => if in_list c MAIN_BRANCHES then Ok (Some c) else Ok None
          | None => Ok None
          end
    end.

(** ** [check_genotype] (lines 4541-4584) *)

Definition check_genotype (gt vcf_ref vcf_alt exp_ref exp_alt : string)
  : GenotypeStatus :=
  if in_list gt ["./."; "."; ""] then MISSING
  else
    let vcf_ref := upper vcf_ref in
    let vcf_alt := if negb (String.eqb vcf_alt ".") then upper vcf_alt else "" in
    let is_het := in_list gt ["0/1"; "0|1"; "1/0"; "1|0"] in
    let is_hom_alt := in_list gt ["1/1"; "1|1"; "1"] in
    let is_hom_ref := in_list gt ["0/0"; "0|0"; "0"] in
    let explicit : option GenotypeStatus :=
      if truthy exp_ref && truthy exp_alt then
        (* Forward match: VCF REF=ancestral, ALT=derived *)
        if String.eqb vcf_ref (upper exp_ref) && String.eqb vcf_alt (upper exp_alt) then
          if is_hom_alt then Some DERIVED
          else if is_het then Some HETEROZYGOUS
          else if is_hom_ref then Some ANCESTRAL
          else None
        (* Reverse match: VCF REF=derived, ALT=ancestral *)
        else if String.eqb vcf_ref (upper exp_alt) && String.eqb vcf_alt (upper exp_ref) then
          if is_hom_ref then Some DERIVED
          else if is_het then Some HETEROZYGOUS
          else if is_hom_alt then Some ANCESTRAL
          else None
        else None
      else None in
    match explicit with
    | Some status => status
    | None =>
        (* When no explicit info, infer from VCF *)
        if is_hom_alt then DERIVED
        else if is_het then HETEROZYGOUS
        else if is_hom_ref then ANCESTRAL
        else MISMATCH
    end.

(** ** [is_derived] (lines 4586-4602): [True] / [False] / [None] *)

Definition is_derived (clf : classifier) (status : GenotypeStatus) : option bool :=
  match status with
  | DERIVED => Some true
  | ANCESTRAL => Some false
  | HETEROZYGOUS => if String.eqb (het_mode clf) "strict" then None else Some true
  | MISSING | MISMATCH => None
  end.

(** Truth value of what [is_derived] returns ([None] and [False] are false). *)
Definition is_true_opt (o : option bool) : bool := default false o.

(** ** [classify_sample] (lines 4658-4930) and [_make_result] *)

(** A Python number: the literal [0] of the early returns is an [int], a
    computed confidence is a [float]. *)
Inductive pynum :=
| PyInt (n : Z)
| PyFloat (x : float).

(** The [diagnostics] dictionary of a classified sample. *)
Record diagnostics_dict := {
  d_main_branch_status : string;
  d_main_branch_note : string;
  d_ancestor_conflicts : list string;
  d_total_derived_haplos : nat;
  d_candidates_in_branch : nat
}.

(** The result dictionary built by [_make_result]; [r_diagnostics] is
    [None] for the empty dictionary of the early returns. *)
Record result := {
  r_sample : string;
  r_main_branch : string;
  r_haplogroup : string;
  r_n_snps : nat;
  r_confidence : pynum;
  r_het_count : nat;
  r_evidence : list string;
  r_note : string;
  r_diagnostics : option diagnostics_dict
}.

Definition _make_result (sample main_branch haplo : string) (n_snps : nat)
    (confidence : pynum) (het_count : nat) (evidence : list string)
    (note : string) (diagnostics : option diagnostics_dict) : result :=
  {| r_sample := sample; r_main_branch := main_branch; r_haplogroup := haplo;
     r_n_snps := n_snps; r_confidence := confidence; r_het_count := het_count;
     r_evidence := evidence; r_note := note; r_diagnostics := diagnostics |}.

(** One value of [all_node_status]. *)
Record node_status := {
  ns_derived : list string;
  ns_ancestral : list string;
  ns_het : list string;
  ns_missing : list string
}.

Definition empty_node_status : node_status :=
  {| ns_derived := []; ns_ancestral := []; ns_het := []; ns_missing := [] |}.

(** One element of [branch_candidates[branch]]. *)
Record candidate := {
  c_haplo : string;
  c_n_snps : nat;
  c_snps : list string;
  c_depth : nat
}.

(** *** Step 1: collect all derived SNPs / haplogroups *)

Record evidence_state := {
  e_het_count : nat;
  e_derived_haplos : list (string * list (string * Z));   (* haplo -> [(snp, pos), ...] *)
  e_all_node_status : gmap string node_status
}.

(** [all_node_status[haplo][key].append(snp_name)] for the key chosen by
    [status]. *)
Definition record_status (status : GenotypeStatus) (snp_name : string)
    (info : node_status) : node_status :=
  match status with
  | DERIVED =>
      {| ns_derived := ns_derived info ++ [snp_name]; ns_ancestral := ns_ancestral info;
         ns_het := ns_het info; ns_missing := ns_missing info |}
  | ANCESTRAL =>
      {| ns_derived := ns_derived info; ns_ancestral := ns_ancestral info ++ [snp_name];
         ns_het := ns_het info; ns_missing := ns_missing info |}
  | HETEROZYGOUS =>
      {| ns_derived := ns_derived info; ns_ancestral := ns_ancestral info;
         ns_het := ns_het info ++ [snp_name]; ns_missing := ns_missing info |}
  | MISSING | MISMATCH => info
  end.

(** The body of [for haplo, snp_name, ref, alt in entries]. *)
Definition collect_entry (clf : classifier) (pos : Z) (g : genotype)
    (st : list (string * list (string * Z)) * gmap string node_status)
    (entry : haplo_entry)
  : outcome (list (string * list (string * Z)) * gmap string node_status) :=
  let '(derived_haplos, all_node_status) := st in
  let '(gt, vcf_ref, vcf_alt) := g in
  let '(haplo, snp_name, ref, alt) := entry in
  let status := check_genotype gt vcf_ref vcf_alt ref alt in
  let all_node_status :=
    if negb (dict_mem haplo all_node_status)
    then <[haplo := empty_node_status]> all_node_status
    else all_node_status in
  all_node_status ←
    match status with
    | DERIVED | ANCESTRAL | HETEROZYGOUS =>
        info ← dict_item all_node_status haplo;
        Ok (<[haplo := record_status status snp_name info]> all_node_status)
    | MISSING | MISMATCH => Ok all_node_status
    end;
  let derived_haplos :=
    if is_true_opt (is_derived clf status)
    then dd_append haplo (snp_name, pos) derived_haplos
    else derived_haplos in
  Ok (derived_haplos, all_node_status).

(** The body of [for pos, entries in self.pos_to_haplo.items()]. *)
Definition collect_position (clf : classifier) (sample_geno : gmap Z genotype)
    (st : evidence_state) (item : Z * list haplo_entry) : outcome evidence_state :=
  let '(pos, entries) := item in
  if negb (dict_mem pos sample_geno) then Ok st
  else
    g ← dict_item sample_geno pos;
    let het_count :=
      if in_list (g.1.1) ["0/1"; "0|1"; "1/0"; "1|0"]
      then S (e_het_count st) else e_het_count st in
    '(derived_haplos, all_node_status) ←
      for_each (collect_entry clf pos g) entries
               (e_derived_haplos st, e_all_node_status st);
    Ok {| e_het_count := het_count; e_derived_haplos := derived_haplos;
          e_all_node_status := all_node_status |}.

Definition collect_evidence (clf : classifier) (sample_geno : gmap Z genotype)
  : outcome evidence_state :=
  for_each (collect_position clf sample_geno) (pos_to_haplo clf)
           {| e_het_count := 0; e_derived_haplos := []; e_all_node_status := ∅ |}.

(** *** Step 2: group by main branch *)

(** The body of [for haplo, snps in derived_haplos.items()]. *)
Definition group_haplo (clf : classifier)
    (branch_candidates : list (string * list candidate))
    (item : string * list (string * Z))
  : outcome (list (string * list candidate)) :=
  let '(haplo, snps) := item in
  branch ← get_main_branch haplo;
  match branch with
  | Some b =>
      if truthy b then
        Ok (dd_append b {| c_haplo := haplo; c_n_snps := length snps;
                           c_snps := fst <$> snps;
                           c_depth := get_depth (phylo_tree clf) haplo |}
                      branch_candidates)
      else Ok branch_candidates
  | None => Ok branch_candidates
  end.

Definition group_by_branch (clf : classifier)
    (derived_haplos : list (string * list (string * Z)))
  : outcome (list (string * list candidate)) :=
  for_each (group_haplo clf) derived_haplos [].

(** *** Step 3: determine the main branch *)

(** The body of the loop that fills [branch_direct_status]. *)
Definition direct_status (clf : classifier) (sample_geno : gmap Z genotype)
    (branch : string) : outcome GenotypeStatus :=
  match MAIN_BRANCH_DEFINING_SNPS !! branch with
  | Some snp =>
      if truthy snp && dict_mem snp (snp_to_info clf) then
        '(pos, ref, alt) ← dict_item (snp_to_info clf) snp;
        if dict_mem pos sample_geno then
          '(gt, vcf_ref, vcf_alt) ← dict_item sample_geno pos;
          Ok (check_genotype gt vcf_ref vcf_alt ref alt)
        else Ok MISSING
      else Ok MISSING
  | None => Ok MISSING
  end.

Definition branch_direct_status (clf : classifier) (sample_geno : gmap Z genotype)
  : outcome (list (string * GenotypeStatus)) :=
  for_each (fun bds branch =>
              status ← direct_status clf sample_geno branch;
              Ok (od_set branch status bds))
           MAIN_BRANCHES [].

(** "First find those with derived defining SNPs": the loop with [break];
    the result is [(main_branch, main_branch_note)]. *)
Fixpoint select_by_defining_snp (clf : classifier)
    (bds : list (string * GenotypeStatus))
    (branch_candidates : list (string * list candidate))
    (branches : list string) : outcome (option string * string) :=
  match branches with
  | [] => Ok (None, "")
  | branch :: rest =>
      let status := od_get branch bds in
      if is_true_opt (status ≫= is_derived clf) && od_mem branch branch_candidates then
        snp ← dict_item MAIN_BRANCH_DEFINING_SNPS branch;
        Ok (Some branch, snp +:+ " derived")
      else select_by_defining_snp clf bds branch_candidates rest
  end.

(** "Exclude branches with clear ancestral defining SNPs". *)
Definition excluded_branches (bds : list (string * GenotypeStatus)) : gset string :=
  list_to_set (fst <$> List.filter (fun bs => bool_decide (bs.2 = ANCESTRAL)) bds).

(** "Select one with most downstream evidence": [(best_branch, best_count)]. *)
Definition best_downstream (excluded : gset string)
    (branch_candidates : list (string * list candidate)) : option string * nat :=
  foldl (fun best item =>
           let '(best_branch, best_count) := best in
           let '(branch, candidates) := item in
           if bool_decide (branch ∈ excluded) then best
           else
             let total_snps := sum_list (c_n_snps <$> candidates) in
             if best_count <? total_snps then (Some branch, total_snps) else best)
        (None, 0) branch_candidates.

(** Truth value of a variable holding [None] or a string. *)
Definition truthy_opt (o : option string) : bool :=
  match o with Some s => truthy s | None => false end.

(** "Special handling: detect basal F": is the F-defining SNP derived? *)
Definition basal_f_derived (clf : classifier) (sample_geno : gmap Z genotype)
  : outcome bool :=
  if dict_mem F_DEFINING_SNP (snp_to_info clf) then
    info0 ← dict_item (snp_to_info clf) F_DEFINING_SNP;
    let f_pos := info0.1.1 in
    if dict_mem f_pos sample_geno then
      '(gt, vcf_ref, vcf_alt) ← dict_item sample_geno f_pos;
      info1 ← dict_item (snp_to_info clf) F_DEFINING_SNP;
      info2 ← dict_item (snp_to_info clf) F_DEFINING_SNP;
      let f_ref := info1.1.2 in
      let f_alt := info2.2 in
      let f_status := check_genotype gt vcf_ref vcf_alt f_ref f_alt in
      Ok (is_true_opt (is_derived clf f_status))
    else Ok false
  else Ok false.

(** The whole of step 3 after [branch_direct_status]:
    [(main_branch, main_branch_note, branch_candidates)]. *)
Definition select_main_branch (clf : classifier) (sample_geno : gmap Z genotype)
    (bds : list (string * GenotypeStatus))
    (branch_candidates : list (string * list candidate))
  : outcome (option string * string * list (string * list candidate)) :=
  '(main_branch, main_branch_note) ←
    select_by_defining_snp clf bds branch_candidates MAIN_BRANCHES;
  let '(main_branch, main_branch_note) :=
    if negb (truthy_opt main_branch) then
      let '(best_branch, best_count) :=
        best_downstream (excluded_branches bds) branch_candidates in
      if truthy_opt best_branch
      then (best_branch, "inferred from " +:+ pretty best_count +:+ " downstream SNPs")
      else (main_branch, main_branch_note)
    else (main_branch, main_branch_note) in
  if negb (truthy_opt main_branch) then
    f_derived ← basal_f_derived clf sample_geno;
    if (f_derived : bool) then
      Ok (Some "F", "basal F (M89 derived, no downstream)",
          if negb (od_mem "F" branch_candidates)
          then od_set "F" [ {| c_haplo := "F"; c_n_snps := 1; c_snps := ["M89"];
                               c_depth := 0 |} ] branch_candidates
          else branch_candidates)
    else Ok (main_branch, main_branch_note, branch_candidates)
  else Ok (main_branch, main_branch_note, branch_candidates).

(** *** Step 4: subdivide within the main branch *)

(** [candidates.sort(key=lambda x: (x['depth'], x['n_snps']), reverse=True)]:
    a stable sort, descending in the key. *)
Definition key_lt (a b : candidate) : bool :=
  (c_depth a <? c_depth b) ||
  ((c_depth a =? c_depth b) && (c_n_snps a <? c_n_snps b)).

Fixpoint insert_candidate (x : candidate) (sorted : list candidate) : list candidate :=
  match sorted with
  | [] => [x]
  | y :: rest => if key_lt x y then y :: insert_candidate x rest else x :: sorted
  end.

Definition sort_candidates (candidates : list candidate) : list candidate :=
  foldr insert_candidate [] candidates.

(** "Only check ancestors within main branch": the loop with [break]. *)
Fixpoint relevant_ancestors (main_branch : string) (ancestors : list string)
  : outcome (list string) :=
  match ancestors with
  | [] => Ok []
  | anc :: rest =>
      if String.eqb anc main_branch then Ok []
      else
        anc_branch ← get_main_branch anc;
        relevant ← relevant_ancestors main_branch rest;
        if bool_decide (anc_branch = Some main_branch) || String.eqb anc main_branch
        then Ok (anc :: relevant)
        else Ok relevant
  end.

(** "Check ancestor chain": [(chain_valid, conflicts)]. *)
Definition check_chain (clf : classifier) (all_node_status : gmap string node_status)
    (relevant : list string) : outcome (bool * list string) :=
  for_each (fun st anc =>
              let '(chain_valid, conflicts) := st in
              if dict_mem anc all_node_status then
                anc_info ← dict_item all_node_status anc;
                let has_derived := 0 <? length (ns_derived anc_info) in
                let has_ancestral := 0 <? length (ns_ancestral anc_info) in
                let has_het := 0 <? length (ns_het anc_info) in
                if has_ancestral && negb has_derived then
                  if has_het && in_list (het_mode clf) ["moderate"; "lenient"]
                  then Ok (chain_valid, conflicts)
                  else Ok (false, conflicts ++ [anc +:+ "(ancestral)"])
                else Ok (chain_valid, conflicts)
              else Ok (chain_valid, conflicts))
           relevant (true, []).

(** The variables assigned by the two candidate loops. *)
Record selection := {
  best_haplo : string;
  best_n_snps : nat;
  best_evidence : list string;
  ancestor_conflicts : list string
}.

(** "Validate ancestor chain for each candidate": the loop with [break]. *)
Fixpoint validate_candidates (clf : classifier)
    (all_node_status : gmap string node_status) (main_branch : string)
    (candidates : list candidate) (sel : selection) : outcome selection :=
  match candidates with
  | [] => Ok sel
  | cand :: rest =>
      let haplo := c_haplo cand in
      let ancestors := get_ancestors (phylo_tree clf) haplo in
      relevant ← relevant_ancestors main_branch ancestors;
      '(chain_valid, conflicts) ← check_chain clf all_node_status relevant;
      if (chain_valid : bool) then
        Ok {| best_haplo := haplo; best_n_snps := c_n_snps cand;
              best_evidence := take 5 (c_snps cand);
              ancestor_conflicts := ancestor_conflicts sel |}
      else
        validate_candidates clf all_node_status main_branch rest
          {| best_haplo := best_haplo sel; best_n_snps := best_n_snps sel;
             best_evidence := best_evidence sel;
             ancestor_conflicts := ancestor_conflicts sel ++ conflicts |}
  end.

(** [conflict_count] of the re-evaluation loop. *)
Definition conflict_count (all_node_status : gmap string node_status)
    (ancestors : list string) : outcome nat :=
  for_each (fun count anc =>
              if dict_mem anc all_node_status then
                anc_info ← dict_item all_node_status anc;
                if negb (bool_decide (ns_ancestral anc_info = []))
                   && bool_decide (ns_derived anc_info = [])
                then Ok (S count) else Ok count
              else Ok count)
           ancestors 0.

(** "Re-evaluate, select one with fewest conflicts"; [min_conflicts] is
    [None] while it is [float('inf')]. *)
Definition fewest_conflicts (clf : classifier)
    (all_node_status : gmap string node_status)
    (candidates : list candidate) (sel : selection) : outcome selection :=
  '(_, sel) ←
    for_each (fun st cand =>
                let '(min_conflicts, sel) := st in
                let haplo := c_haplo cand in
                let ancestors := get_ancestors (phylo_tree clf) haplo in
                count ← conflict_count all_node_status ancestors;
                if match min_conflicts with
                   | None => true
                   | Some m => count <? m
                   end
                then Ok (Some count,
                         {| best_haplo := haplo; best_n_snps := c_n_snps cand;
                            best_evidence := take 5 (c_snps cand);
                            ancestor_conflicts := ancestor_conflicts sel |})
                else Ok (min_conflicts, sel))
             candidates (None, sel);
  Ok sel.

Definition subdivide (clf : classifier) (all_node_status : gmap string node_status)
    (main_branch : string) (candidates : list candidate) : outcome selection :=
  sel ← validate_candidates clf all_node_status main_branch candidates
        {| best_haplo := main_branch; best_n_snps := 0; best_evidence := [];
           ancestor_conflicts := [] |};
  if String.eqb (best_haplo sel) main_branch && negb (bool_decide (candidates = []))
  then fewest_conflicts clf all_node_status candidates sel
  else Ok sel.

(** *** Step 5: calculate confidence *)

(** [min(a, b)] and [max(a, b)] on floats: the first argument is kept
    unless the second is strictly smaller (larger). *)
Definition py_min (a b : float) : float := if PrimFloat.ltb b a then b else a.
Definition py_max (a b : float) : float := if PrimFloat.ltb a b then b else a.

Definition score_confidence (clf : classifier) (direct_status : GenotypeStatus)
    (best_n_snps : nat) (ancestor_conflicts : list string) (het_count : nat)
  : float :=
  (* Base confidence *)
  let confidence :=
    if is_true_opt (is_derived clf direct_status) then
      (* Main branch defining SNP directly derived *)
      if 5 <=? best_n_snps then 0.95%float
      else if 3 <=? best_n_snps then 0.90%float
      else 0.85%float
    else
      (* Inferred from downstream *)
      if 10 <=? best_n_snps then 0.85%float
      else if 5 <=? best_n_snps then 0.75%float
      else if 3 <=? best_n_snps then 0.65%float
      else 0.50%float in
  (* Penalty factors *)
  let confidence :=
    if negb (bool_decide (ancestor_conflicts = []))
    then PrimFloat.sub confidence 0.15%float else confidence in
  let confidence :=
    if 10 <? het_count then PrimFloat.sub confidence 0.05%float else confidence in
  py_max 0.0%float (py_min 1.0%float confidence).

(** *** The whole method *)

Definition classify_sample (clf : classifier) (sample : string)
    (sample_geno : gmap Z genotype) : outcome result :=
  (* Step 1 *)
  ev ← collect_evidence clf sample_geno;
  let het_count := e_het_count ev in
  let derived_haplos := e_derived_haplos ev in
  let all_node_status := e_all_node_status ev in
  if bool_decide (derived_haplos = []) then
    Ok (_make_result sample "Unknown" "Unknown" 0 (PyInt 0) het_count
                     [] "No derived SNPs" None)
  else
    (* Step 2 *)
    branch_candidates ← group_by_branch clf derived_haplos;
    if bool_decide (branch_candidates = []) then
      Ok (_make_result sample "Unknown" "Unknown" 0 (PyInt 0) het_count
                       [] "Cannot determine main branch" None)
    else
      (* Step 3 *)
      bds ← branch_direct_status clf sample_geno;
      '(main_branch, main_branch_note, branch_candidates) ←
        select_main_branch clf sample_geno bds branch_candidates;
      match main_branch with
      | Some main_branch =>
          if truthy main_branch then
            (* Step 4 *)
            let candidates :=
              sort_candidates (default [] (od_get main_branch branch_candidates)) in
            sel ← subdivide clf all_node_status main_branch candidates;
            (* Step 5 *)
            let direct_status := default MISSING (od_get main_branch bds) in
            let confidence :=
              score_confidence clf direct_status (best_n_snps sel)
                               (ancestor_conflicts sel) het_count in
            let diagnostics :=
              {| d_main_branch_status := status_str direct_status;
                 d_main_branch_note := main_branch_note;
                 d_ancestor_conflicts := take 3 (ancestor_conflicts sel);
                 d_total_derived_haplos := length derived_haplos;
                 d_candidates_in_branch := length candidates |} in
            Ok (_make_result sample main_branch (best_haplo sel) (best_n_snps sel)
                             (PyFloat confidence) het_count (best_evidence sel)
                             "" (Some diagnostics))
          else
            Ok (_make_result sample "Unknown" "Unknown" 0 (PyInt 0) het_count []
                  "Cannot determine main branch（Insufficient or conflicting evidence）"
                  None)
      | None =>
          Ok (_make_result sample "Unknown" "Unknown" 0 (PyInt 0) het_count []
                "Cannot determine main branch（Insufficient or conflicting evidence）"
                None)
      end.

(** ** [_build_node_snp_positions] (lines 4471-4484) *)

(** One element of [node_snp_positions[node]]: [(snp, pos, ref, alt)]. *)
Definition located_snp : Type := string * Z * string * string.

(** The inner loop: the SNPs of a node that the index knows. *)
Definition locate_snps (snp_to_info : gmap string snp_info) (snps : list string)
  : list located_snp :=
  foldl (fun positions snp =>
           match snp_to_info !! snp with            (* [if snp in self.snp_to_info] *)
           | Some (pos, ref, alt) => positions ++ [(snp, pos, ref, alt)]
           | None => positions
           end)
        [] snps.

Definition _build_node_snp_positions (clf : classifier)
  : list (string * list located_snp) :=
  foldl (fun node_snp_positions item =>
           let '(node, snps) := item in
           od_set node (locate_snps (snp_to_info clf) snps) node_snp_positions)
        [] (node_snps clf).

(** ** [check_node_status] (lines 4604-4656) *)

(** The dictionary that [check_node_status] returns. *)
Record node_check := {
  nc_status : string;
  nc_derived_snps : list string;
  nc_ancestral_snps : list string;
  nc_het_snps : list string;
  nc_missing_snps : list string
}.

(** The loop state: [(derived_snps, ancestral_snps, het_snps, missing_snps)]. *)
Definition check_state : Type :=
  list string * list string * list string * list string.

(** The body of [for snp, pos, ref, alt in positions]. *)
Definition check_located (sample_geno : gmap Z genotype) (st : check_state)
    (located : located_snp) : check_state :=
  let '(derived_snps, ancestral_snps, het_snps, missing_snps) := st in
  let '(snp, pos, ref, alt) := located in
  match sample_geno !! pos with
  | None => (derived_snps, ancestral_snps, het_snps, missing_snps ++ [snp])
  | Some (gt, vcf_ref, vcf_alt) =>
      match check_genotype gt vcf_ref vcf_alt ref alt with
      | DERIVED => (derived_snps ++ [snp], ancestral_snps, het_snps, missing_snps)
      | ANCESTRAL => (derived_snps, ancestral_snps ++ [snp], het_snps, missing_snps)
      | HETEROZYGOUS => (derived_snps, ancestral_snps, het_snps ++ [snp], missing_snps)
      | MISSING | MISMATCH =>
          (derived_snps, ancestral_snps, het_snps, missing_snps ++ [snp])
      end
  end.

Definition check_node_status (node_snp_positions : list (string * list located_snp))
    (node : string) (sample_geno : gmap Z genotype) : node_check :=
  let positions := default [] (od_get node node_snp_positions) in
  let '(derived_snps, ancestral_snps, het_snps, missing_snps) :=
    foldl (check_located sample_geno) ([], [], [], []) positions in
  let overall :=
    if negb (bool_decide (derived_snps = [])) then "derived"
    else if negb (bool_decide (ancestral_snps = []))
            && bool_decide (derived_snps = []) then "ancestral"
    else if negb (bool_decide (het_snps = [])) && bool_decide (derived_snps = [])
            && bool_decide (ancestral_snps = []) then "het"
    else "missing" in
  {| nc_status := overall; nc_derived_snps := derived_snps;
     nc_ancestral_snps := ancestral_snps; nc_het_snps := het_snps;
     nc_missing_snps := missing_snps |}.

(** ** [load_vcf] (lines 4948-4985)

    The file is given as the list of its lines. *)

(** Loop state: [(samples, sample_geno, y_count)]; [sample_geno] is a
    [defaultdict(dict)]. *)
Definition vcf_state : Type := list string * gmap string (gmap Z genotype) * nat.

(** The body of [for i, sample in enumerate(samples)]. *)
Definition record_call (parts : list string) (pos : Z) (ref alt : string)
    (sample_geno : gmap string (gmap Z genotype)) (item : nat * string)
  : outcome (gmap string (gmap Z genotype)) :=
  let '(i, sample) := item in
  field ← list_item parts (9 + i);
  gt ← list_item (split ":" field) 0;
  Ok (<[sample := <[pos := (gt, ref, alt)]> (default ∅ (sample_geno !! sample))]>
        sample_geno).

Definition load_vcf_line (st : vcf_state) (line : string) : outcome vcf_state :=
  let '(samples, sample_geno, y_count) := st in
  if startswith line "##" then Ok st
  else if startswith line "#CHROM" then
    let parts := split TAB (strip line) in
    Ok (drop 9 parts, sample_geno, y_count)
  else
    let parts := split TAB (strip line) in
    if length parts <? 10 then Ok st
    else
      chrom ← list_item parts 0;
      if negb (in_list chrom ["Y"; "chrY"; "24"; "chr24"]) then Ok st
      else
        pos_str ← list_item parts 1;
        pos ← py_int pos_str;
        ref ← list_item parts 3;
        alt ← list_item parts 4;
        sample_geno ← for_each (record_call parts pos ref alt)
                               (imap pair samples) sample_geno;
        Ok (samples, sample_geno, S y_count).

Definition load_vcf (lines : list string) : outcome vcf_state :=
  for_each load_vcf_line lines ([], ∅, 0%nat).

(** ** The classification loop of [main] (lines 5157-5164) *)

Definition classify_all (clf : classifier) (samples : list string)
    (sample_geno : gmap string (gmap Z genotype)) : outcome (list result) :=
  for_each (fun results sample =>
              result ← classify_sample clf sample (default ∅ (sample_geno !! sample));
              Ok (results ++ [result]))
           samples [].

End YHapLZ.

(* ===================================================================== *)
(** * The generator, [src/generate_YHapLZ.py] *)
(* ===================================================================== *)

Module GenerateYHapLZ.
Import YHapLZ.

(** ** Python primitives used by the generator *)

(** [s[n:]] *)
Fixpoint str_drop (n : nat) (s : string) : string :=
  match n, s with
  | S n', String _ s' => str_drop n' s'
  | _, _ => s
  end.

(** [s.split(sep, 1)], for a non-empty separator. *)
Fixpoint split1 (sep : string) (s : string) : list string :=
  match s with
  | EmptyString => [EmptyString]
  | String c s' =>
      if String.prefix sep s then [EmptyString; str_drop (String.length sep) s]
      else
        match split1 sep s' with
        | piece :: pieces => String c piece :: pieces
        | [] => []
        end
  end.

(** [s.replace(old, '')], for a non-empty [old]: the occurrences are
    removed from left to right, without overlap. *)
Fixpoint remove_go (old : string) (skip : nat) (s : string) : string :=
  match s with
  | EmptyString => EmptyString
  | String c s' =>
      match skip with
      | S k => remove_go old k s'
      | O =>
          if String.prefix old s then remove_go old (String.length old - 1) s'
          else String c (remove_go old 0 s')
      end
  end.

Definition str_remove (old : string) (s : string) : string := remove_go old 0 s.

(** ['\t' * n] *)
Fixpoint tabs_str (n : nat) : string :=
  match n with
  | O => EmptyString
  | S n' => String "009"%char (tabs_str n')
  end.

(** ** [parse_isogg_tree] (lines 25-68)

    The file is given as the list of its lines; a node is
    [(indent_level, haplogroup, main_SNP)]. *)
Definition tree_node : Type := nat * string * string.

(** The "Extract main SNP" block. *)
Definition main_snp (parts : list string) (haplo : string) : outcome string :=
  if 1 <? length parts then
    part1 ← list_item parts 1;
    if truthy (strip part1) then
      let snp_str := strip part1 in
      first_snp ← list_item (split "," snp_str) 0;
      let first_snp := strip first_snp in
      first_snp ← list_item (split "/" first_snp) 0;
      let first_snp := strip first_snp in
      Ok (strip (str_remove "~" (str_remove "^" (str_remove "^^" first_snp))))
    else Ok haplo
  else Ok haplo.

(** The body of [for line in f]. *)
Definition parse_isogg_tree_line (nodes : list tree_node) (line : string)
  : outcome (list tree_node) :=
  if negb (truthy (strip line)) then Ok nodes
  else
    let tabs := count_indent line in
    let content := rstrip_chars (String "010"%char (String "013"%char "")) (str_drop tabs line) in
    let parts := split1 TAB content in
    part0 ← list_item parts 0;
    let haplo := strip part0 in
    if contains "~" haplo || contains "*" haplo || negb (truthy haplo) then Ok nodes
    else
      first_snp ← main_snp parts haplo;
      Ok (nodes ++ [(tabs, haplo, first_snp)]).

Definition parse_isogg_tree (lines : list string) : outcome (list tree_node) :=
  for_each parse_isogg_tree_line lines [].

(** ** [format_branch] (lines 70-78) *)

(** One line of the output: [f"{indent}{haplo}\t{snp}"]. *)
Definition format_node (base_indent : nat) (node : tree_node) : string :=
  let '(tabs, haplo, snp) := node in
  tabs_str (base_indent + tabs) +:+ haplo +:+ TAB +:+ snp.

Definition format_branch (nodes : list tree_node) (base_indent : nat) : string :=
  if bool_decide (nodes = []) then ""
  else String.concat NL (format_node base_indent <$> nodes).

(** ** The F branch of [generate_yhaplz] (lines 187-192) *)

(** [[(t+1, h, s) for t, h, s in parsed_trees['F'] if not h.startswith('F\t')]] *)
Definition f_nodes (parsed_f : list tree_node) : list tree_node :=
  (fun node : tree_node => let '(t, h, s) := node in ((t + 1)%nat, h, s))
    <$> List.filter (fun node : tree_node =>
                       let '(t, h, s) := node in
                       negb (startswith h (String "F" TAB)))
                    parsed_f.

(** The line of the F node that [generate_yhaplz] writes itself. *)
Definition f_line : string := tabs_str 9 +:+ "F" +:+ TAB +:+ "M89".

End GenerateYHapLZ.

(* ===================================================================== *)
(** * Notions used to state the properties *)
(* ===================================================================== *)

Module Spec.
Import YHapLZ.

(** The parent relation of a child-to-parent map, and its cycles. *)
Definition parent_of (phylo_tree : gmap string string) : relation string :=
  fun child parent => phylo_tree !! child = Some parent.

Definition on_cycle (phylo_tree : gmap string string) (node : string) : Prop :=
  tc (parent_of phylo_tree) node node.

Definition acyclic (phylo_tree : gmap string string) : Prop :=
  forall node, ¬ on_cycle phylo_tree node.

(** The separator chosen by [_load_isogg] and the rows it accepts, in file
    order. *)
Definition isogg_sep (header : string) : string :=
  if contains TAB header then TAB else ",".

Definition decode_rows (sep : string) (lines : list string) : list isogg_row :=
  omap (fun line =>
          match parse_isogg_line sep line with
          | Ok (Some r) => Some r
          | _ => None
          end) lines.

(** [snp_to_info] after the rows [rows] have been added to [st]. *)
Definition info_after (st : isogg_state) (rows : list isogg_row)
  : gmap string snp_info :=
  (foldl add_isogg_row st rows).1.1.

(** The status of the marker that [MAIN_BRANCH_DEFINING_SNPS] gives for a
    branch, in a sample: [MISSING] when the table has no marker for the
    branch, when the marker is not in the reference index, or when the
    sample has no call at its position. *)
Definition defining_snp_status (clf : classifier) (sample_geno : gmap Z genotype)
    (branch : string) : GenotypeStatus :=
  match MAIN_BRANCH_DEFINING_SNPS !! branch with
  | Some snp =>
      if truthy snp then
        match snp_to_info clf !! snp with
        | Some (pos, ref, alt) =>
            match sample_geno !! pos with
            | Some (gt, vcf_ref, vcf_alt) => check_genotype gt vcf_ref vcf_alt ref alt
            | None => MISSING
            end
        | None => MISSING
        end
      else MISSING
  | None => MISSING
  end.

(** The sort key of [candidates.sort(...)] and "not smaller in the key",
    the order of a list sorted with [reverse=True]. *)
Definition sort_key (c : candidate) : nat * nat := (c_depth c, c_n_snps c).

Definition key_ge : relation candidate := fun a b => key_lt a b = false.

(** What the validation loop computes for one candidate:
    [(chain_valid, conflicts)]. *)
Definition chain_verdict (clf : classifier) (all_node_status : gmap string node_status)
    (main_branch : string) (cand : candidate) : outcome (bool * list string) :=
  relevant ← relevant_ancestors main_branch
               (get_ancestors (phylo_tree clf) (c_haplo cand));
  check_chain clf all_node_status relevant.

(** The confidence formula as the specification words it (Step D): a base
    read off one of two tables, two penalties, and a clamp to [0, 1]. *)
Definition base_confidence (root_marker_derived : bool) (markers : nat) : float :=
  if root_marker_derived then
    if 5 <=? markers then 0.95%float
    else if 3 <=? markers then 0.90%float
    else 0.85%float
  else
    if 10 <=? markers then 0.85%float
    else if 5 <=? markers then 0.75%float
    else if 3 <=? markers then 0.65%float
    else 0.50%float.

Definition clamp01 (x : float) : float :=
  if PrimFloat.ltb x 0.0%float then 0.0%float
  else if PrimFloat.ltb 1.0%float x then 1.0%float
  else x.

Definition step_d_confidence (root_marker_derived : bool) (markers : nat)
    (contradiction_recorded : bool) (het_calls : nat) : float :=
  let c := base_confidence root_marker_derived markers in
  let c := if contradiction_recorded then PrimFloat.sub c 0.15%float else c in
  let c := if 10 <? het_calls then PrimFloat.sub c 0.05%float else c in
  clamp01 c.

(** The encodings of a missing and of a heterozygous call that
    [check_genotype] tests. *)
Definition no_call_encodings : list string := ["./."; "."; ""].
Definition het_call_encodings : list string := ["0/1"; "0|1"; "1/0"; "1|0"].

(** The status read off the call alone. *)
Definition zygosity_status (gt : string) : GenotypeStatus :=
  if in_list gt no_call_encodings then MISSING
  else if in_list gt hom_alt_calls then DERIVED
  else if in_list gt het_call_encodings then HETEROZYGOUS
  else if in_list gt hom_ref_calls then ANCESTRAL
  else MISMATCH.

Definition flip_status (s : GenotypeStatus) : GenotypeStatus :=
  match s with
  | DERIVED => ANCESTRAL
  | ANCESTRAL => DERIVED
  | _ => s
  end.

(** The observed alleles are the expected ones in reversed orientation, and
    not also in forward orientation. *)
Definition reversed_orientation (vcf_ref vcf_alt exp_ref exp_alt : string) : bool :=
  let vcf_ref := upper vcf_ref in
  let vcf_alt := if String.eqb vcf_alt "." then "" else upper vcf_alt in
  truthy exp_ref && truthy exp_alt
  && negb (String.eqb vcf_ref (upper exp_ref) && String.eqb vcf_alt (upper exp_alt))
  && String.eqb vcf_ref (upper exp_alt) && String.eqb vcf_alt (upper exp_ref).

(** [l] lists successive parents, starting with the parent of [start]. *)
Fixpoint parent_chain (phylo_tree : gmap string string) (start : string)
    (l : list string) : Prop :=
  match l with
  | [] => True
  | x :: l' => phylo_tree !! start = Some x /\ parent_chain phylo_tree x l'
  end.

(** The node name a line of the tree text defines, [None] for a line that
    [_parse_tree] skips. *)
Definition line_node_name (line : string) : option string :=
  if negb (truthy (strip line)) then None
  else
    match split TAB (strip line) with
    | part0 :: _ =>
        let node_name := strip part0 in
        if in_list node_name ["Y"; "Root"; ""] || contains "see " (lower node_name)
        then None else Some node_name
    | [] => None
    end.

(** The node names of a tree text, in line order. *)
Definition tree_node_names (tree_text : string) : list string :=
  omap line_node_name (split NL (strip tree_text)).

(** What the loop keeps: the keys of [node_snps] are the names defined so
    far, in order; the stack holds defined names only; a parent was defined
    before its child. *)
Definition tree_invariant (names : list string) (st : tree_state) : Prop :=
  st.1.2.*1 = names
  /\ (forall entry, entry ∈ st.2 -> entry.2 ∈ names)
  /\ (forall child parent, st.1.1 !! child = Some parent ->
        exists i j, (i < j)%nat /\ names !! i = Some parent /\ names !! j = Some child).

(** What the loop keeps when names repeat: the keys of [node_snps] are
    distinct and are the names defined so far; the stack and the parent map
    hold such keys only. *)
Definition tree_nodes_invariant (names : list string) (st : tree_state) : Prop :=
  NoDup st.1.2.*1
  /\ (forall name, name ∈ st.1.2.*1 <-> name ∈ names)
  /\ (forall entry, entry ∈ st.2 -> entry.2 ∈ st.1.2.*1)
  /\ (forall child parent, st.1.1 !! child = Some parent ->
        child ∈ st.1.2.*1 /\ parent ∈ st.1.2.*1).

(** The entry a row adds to [pos_to_haplo], and the entries of the rows at
    one position, in row order. *)
Definition row_entry (r : isogg_row) : haplo_entry :=
  (row_haplo r, row_snp_name r, row_ref r, row_alt r).

Definition entries_at (pos : Z) (rows : list isogg_row) : list haplo_entry :=
  row_entry <$> filter (fun r => row_pos r = pos) rows.

(** The main branch of a haplogroup name, read off its first letter: the
    letter must be a main branch, and the name must be the letter alone,
    continue with a digit, or not be an intermediate node. *)
Definition main_branch_of (haplo : string) : option string :=
  match haplo with
  | EmptyString => None
  | String c rest =>
      let letter := String c EmptyString in
      let digit_follows :=
        match rest with String d _ => is_digit_char d | EmptyString => false end in
      if in_list letter MAIN_BRANCHES
         && (bool_decide (rest = "") || digit_follows
             || negb (bool_decide (haplo ∈ INTERMEDIATE_NODES)))
      then Some letter else None
  end.

(** A marker of [haplo] that the index has at [pos] and for which the
    sample has a call that counts as derived under the heterozygous
    policy. *)
Definition derived_marker (clf : classifier) (sample_geno : gmap Z genotype)
    (haplo snp_name : string) (pos : Z) : Prop :=
  exists entries ref alt gt vcf_ref vcf_alt,
    (pos, entries) ∈ pos_to_haplo clf
    /\ (haplo, snp_name, ref, alt) ∈ entries
    /\ sample_geno !! pos = Some (gt, vcf_ref, vcf_alt)
    /\ is_derived clf (check_genotype gt vcf_ref vcf_alt ref alt) = Some true.

(** The index positions at which the sample has a heterozygous call. *)
Definition has_het_call (sample_geno : gmap Z genotype) (pos : Z) : bool :=
  match sample_geno !! pos with
  | Some (gt, _, _) => in_list gt ["0/1"; "0|1"; "1/0"; "1|0"]
  | None => false
  end.

Definition het_call_positions (clf : classifier) (sample_geno : gmap Z genotype)
  : list Z :=
  List.filter (has_het_call sample_geno) (pos_to_haplo clf).*1.

(** What step 1 keeps about [derived_haplos]. *)
Definition derived_haplos_sound (clf : classifier) (sample_geno : gmap Z genotype)
    (derived_haplos : list (string * list (string * Z))) : Prop :=
  forall haplo snps, (haplo, snps) ∈ derived_haplos ->
    snps <> [] /\ forall snp pos, (snp, pos) ∈ snps ->
                    derived_marker clf sample_geno haplo snp pos.

(** A candidate built by step 2 from an entry of [derived_haplos]. *)
Definition candidate_of (clf : classifier)
    (derived_haplos : list (string * list (string * Z))) (cand : candidate) : Prop :=
  exists snps, (c_haplo cand, snps) ∈ derived_haplos
    /\ c_n_snps cand = length snps /\ c_snps cand = snps.*1
    /\ c_depth cand = get_depth (phylo_tree clf) (c_haplo cand).

(** What step 2 keeps about [branch_candidates]. *)
Definition branch_candidates_sound (clf : classifier)
    (derived_haplos : list (string * list (string * Z)))
    (branch_candidates : list (string * list candidate)) : Prop :=
  forall branch cands, (branch, cands) ∈ branch_candidates ->
    branch ∈ MAIN_BRANCHES /\ cands <> []
    /\ forall cand, cand ∈ cands ->
         main_branch_of (c_haplo cand) = Some branch
         /\ candidate_of clf derived_haplos cand.

(** The selection of step 4 was read off the candidate [cand]. *)
Definition selected_from (sel : selection) (cand : candidate) : Prop :=
  best_haplo sel = c_haplo cand /\ best_n_snps sel = c_n_snps cand
  /\ best_evidence sel = take 5 (c_snps cand).

(** The candidate that the basal-F rule adds. *)
Definition basal_f_candidate : candidate :=
  {| c_haplo := "F"; c_n_snps := 1; c_snps := ["M89"]; c_depth := 0 |}.

(** The result of [classify_sample] for an unclassified sample. *)
Definition unknown_result (sample : string) (het_count : nat) (note : string) : result :=
  _make_result sample "Unknown" "Unknown" 0 (PyInt 0) het_count [] note None.

(** The result of [classify_sample] for a classified sample, from the
    values of steps 1 to 4. *)
Definition classified_result (clf : classifier) (sample : string)
    (ev : evidence_state) (bds : list (string * GenotypeStatus))
    (main_branch note : string) (candidates : list candidate) (sel : selection)
  : result :=
  let direct_status := default MISSING (od_get main_branch bds) in
  _make_result sample main_branch (best_haplo sel) (best_n_snps sel)
    (PyFloat (score_confidence clf direct_status (best_n_snps sel)
                               (ancestor_conflicts sel) (e_het_count ev)))
    (e_het_count ev) (best_evidence sel) ""
    (Some {| d_main_branch_status := status_str direct_status;
             d_main_branch_note := note;
             d_ancestor_conflicts := take 3 (ancestor_conflicts sel);
             d_total_derived_haplos := length (e_derived_haplos ev);
             d_candidates_in_branch := length candidates |}).

(** The Step D value before the clamp. *)
Definition penalised_confidence (root_marker_derived : bool) (markers : nat)
    (contradiction_recorded : bool) (het_calls : nat) : float :=
  let c := base_confidence root_marker_derived markers in
  let c := if contradiction_recorded then PrimFloat.sub c 0.15%float else c in
  if 10 <? het_calls then PrimFloat.sub c 0.05%float else c.

(** Two classifier states that differ at most in [het_mode], and whose
    modes agree on the two tests the code makes of it. *)
Definition same_het_policy (clf clf' : classifier) : Prop :=
  phylo_tree clf = phylo_tree clf' /\ node_snps clf = node_snps clf'
  /\ snp_to_info clf = snp_to_info clf' /\ pos_to_haplo clf = pos_to_haplo clf'
  /\ String.eqb (het_mode clf) "strict" = String.eqb (het_mode clf') "strict"
  /\ in_list (het_mode clf) ["moderate"; "lenient"]
     = in_list (het_mode clf') ["moderate"; "lenient"].

(** The status of one located SNP in a sample; no call counts as
    [MISSING]. *)
Definition located_status (sample_geno : gmap Z genotype) (located : located_snp)
  : GenotypeStatus :=
  let '(snp, pos, ref, alt) := located in
  match sample_geno !! pos with
  | Some (gt, vcf_ref, vcf_alt) => check_genotype gt vcf_ref vcf_alt ref alt
  | None => MISSING
  end.

(** The names of the located SNPs whose status satisfies [keep]. *)
Definition snps_with (keep : GenotypeStatus -> bool) (sample_geno : gmap Z genotype)
    (positions : list located_snp) : list string :=
  (fun located : located_snp => located.1.1.1)
    <$> List.filter (fun located => keep (located_status sample_geno located)) positions.

Definition is_status (s : GenotypeStatus) (s' : GenotypeStatus) : bool :=
  bool_decide (s' = s).

(** The tab-separated fields of a VCF line. *)
Definition vcf_fields (line : string) : list string := split TAB (strip line).

(** The lines that [load_vcf] treats as records of the Y chromosome. *)
Definition is_y_record (line : string) : bool :=
  negb (startswith line "##") && negb (startswith line "#CHROM")
  && (10 <=? length (vcf_fields line))
  && in_list (default "" (vcf_fields line !! 0%nat)) ["Y"; "chrY"; "24"; "chr24"].

Definition is_header_line (line : string) : bool :=
  negb (startswith line "##") && startswith line "#CHROM".

(** The call that a record stores for the sample in column [9 + i], and
    the call that [sample_geno[sample]] holds at [pos], if any. *)
Definition record_genotype (fields : list string) (i : nat) : genotype :=
  (default "" (split ":" (default "" (fields !! (9 + i)%nat)) !! 0%nat),
   default "" (fields !! 3%nat), default "" (fields !! 4%nat)).

Definition sample_call (sample_geno : gmap string (gmap Z genotype))
    (sample : string) (pos : Z) : option genotype :=
  default ∅ (sample_geno !! sample) !! pos.

(** The sample names that [load_vcf] returns: the columns after the ninth
    of the last header line. *)
Definition header_samples (lines : list string) : list string :=
  match last (List.filter is_header_line lines) with
  | Some header => drop 9 (vcf_fields header)
  | None => []
  end.

(** A stored call read off a record of the file. *)
Definition call_from_record (lines : list string) (pos : Z) (g : genotype) : Prop :=
  exists line i,
    line ∈ lines /\ is_y_record line = true
    /\ py_int (default "" (vcf_fields line !! 1%nat)) = Ok pos
    /\ g = record_genotype (vcf_fields line) i.

(** A haplogroup name as [parse_isogg_tree] returns it. *)
Definition clean_haplo (haplo : string) : Prop :=
  haplo <> "" /\ strip haplo = haplo /\ contains TAB haplo = false
  /\ contains "~" haplo = false /\ contains "*" haplo = false.

End Spec.

(* ===================================================================== *)
(** * Concrete inputs *)
(* ===================================================================== *)

Module Examples.
Import YHapLZ.

(** A tree line: [indent] tabs, the node name, a tab, the SNP column. *)
Definition tree_line (indent : nat) (node snps : string) : string :=
  String.concat "" (replicate indent TAB) +:+ node +:+ TAB +:+ snps.

Definition tree_text (lines : list string) : string :=
  NL +:+ String.concat NL lines +:+ NL.

(** The lines of the shipped [OFFICIAL_TREE] for haplogroup F (lines 635-642
    of [src/YHapLZ.py]) below a line for their parent CF, with the
    indentation reduced by eight tabs: [F] is listed twice, the second time
    one level below the first, and so is [GHIJK], the second time one level
    above the first. *)
Definition f_tree_text : string :=
  tree_text
    [ tree_line 0 "CF" "P143";
      tree_line 1 "F" "M89";
      tree_line 2 "F" "M89";
      tree_line 3 "F1" "P91";
      tree_line 3 "F2" "M427";
      tree_line 3 "F3" "M481";
      tree_line 3 "GHIJK" "F1329";
      tree_line 2 "GHIJK" "F1329";
      tree_line 3 "G" "M201" ].

(** A two-node cycle: [A] is listed again below its own child [B]. *)
Definition ab_cycle_text : string :=
  tree_text [ tree_line 0 "A" "M1"; tree_line 1 "B" "M2"; tree_line 2 "A" "M3" ].

Definition ab_cycle_tree : gmap string string :=
  <["A" := "B"]> (<["B" := "A"]> ∅).

(** The parent map of [f_tree_text]: F is its own parent. *)
Definition f_self_parent_tree : gmap string string :=
  <["G" := "GHIJK"]> (<["GHIJK" := "F"]> (<["F" := "F"]>
    (<["F1" := "F"]> (<["F2" := "F"]> (<["F3" := "F"]> ∅))))).

(** A line of the ISOGG table: name, haplogroup, aliases, two unused
    columns around the position, and the mutation. *)
Definition isogg_line (snp haplo aliases pos mutation : string) : string :=
  snp +:+ TAB +:+ haplo +:+ TAB +:+ aliases +:+ TAB +:+ "" +:+ TAB +:+ pos
      +:+ TAB +:+ "" +:+ TAB +:+ mutation +:+ NL.

Definition isogg_header : string :=
  "Name" +:+ TAB +:+ "Haplogroup" +:+ TAB +:+ "Other names" +:+ TAB +:+ "rs"
         +:+ TAB +:+ "Build 37" +:+ TAB +:+ "Build 38" +:+ TAB +:+ "Mutation" +:+ NL.

(** The marker [M1] defined twice with different positions and alleles;
    the alias [PF1] listed by both rows. *)
Definition duplicate_lines : list string :=
  [ isogg_line "M1" "R" "PF1" "100" "A->G";
    isogg_line "M1" "R" "PF1;PF2" "200" "C->T" ].

(** A small tree in which [R] lies below [K], as it does in the shipped
    tree, and a table with the R-defining marker, a marker of a haplogroup
    [R3] that is not a tree node, and the K marker. *)
Definition kr_tree_text : string :=
  tree_text [ tree_line 0 "K" "M9"; tree_line 1 "R" "M207"; tree_line 2 "R1" "M173" ].

Definition kr_lines : list string :=
  [ isogg_line "M207" "R" "" "100" "A->G";
    isogg_line "X1" "R3" "" "200" "C->T";
    isogg_line "M9" "K" "" "300" "C->G" ].

Definition kr_classifier : classifier :=
  {| het_mode := "moderate";
     phylo_tree := <["R1" := "R"]> (<["R" := "K"]> ∅);
     node_snps := [("K", ["M9"]); ("R", ["M207"]); ("R1", ["M173"])];
     snp_to_info :=
       <["M207" := (100%Z, "A", "G")]>
         (<["X1" := (200%Z, "C", "T")]> (<["M9" := (300%Z, "C", "G")]> ∅));
     pos_to_haplo :=
       [ (100%Z, [("R", "M207", "A", "G")]);
         (200%Z, [("R3", "X1", "C", "T")]);
         (300%Z, [("K", "M9", "C", "G")]) ] |}.

(** R marker derived, R3 marker derived, K marker ancestral. *)
Definition kr_sample : gmap Z genotype :=
  <[100%Z := ("1/1", "A", "G")]>
    (<[200%Z := ("1/1", "C", "T")]> (<[300%Z := ("0/0", "C", "G")]> ∅)).

(** The same sample without a call at the K marker. *)
Definition kr_sample_clean : gmap Z genotype :=
  <[100%Z := ("1/1", "A", "G")]> (<[200%Z := ("1/1", "C", "T")]> ∅).

(** A sample that has calls only at positions the table does not list. *)
Definition off_index_sample : gmap Z genotype :=
  <[7%Z := ("1/1", "A", "G")]> (<[8%Z := ("0/1", "C", "T")]> ∅).

(** A table with the B-defining marker, a marker of B1 and the F marker, and
    a sample in which the B marker is ancestral while the B1 and F markers
    are derived: no main branch can be selected and the basal-F rule
    applies. *)
Definition bf_classifier : classifier :=
  {| het_mode := "moderate";
     phylo_tree := <["B1" := "B"]> ∅;
     node_snps := [("B", ["M60"]); ("B1", ["M236"])];
     snp_to_info :=
       <["M60" := (10%Z, "A", "G")]>
         (<["M236" := (20%Z, "C", "T")]> (<["M89" := (30%Z, "C", "T")]> ∅));
     pos_to_haplo :=
       [ (10%Z, [("B", "M60", "A", "G")]);
         (20%Z, [("B1", "M236", "C", "T")]);
         (30%Z, [("F", "M89", "C", "T")]) ] |}.

Definition bf_sample : gmap Z genotype :=
  <[10%Z := ("0/0", "A", "G")]>
    (<[20%Z := ("1/1", "C", "T")]> (<[30%Z := ("1/1", "C", "T")]> ∅)).


(** The classifier [kr_classifier] in lenient mode. *)
Definition kr_classifier_lenient : classifier :=
  {| het_mode := "lenient";
     phylo_tree := phylo_tree kr_classifier;
     node_snps := node_snps kr_classifier;
     snp_to_info := snp_to_info kr_classifier;
     pos_to_haplo := pos_to_haplo kr_classifier |}.

(** A tree R > R1 > R1a, R > R2 in which only the parent map matters, the
    node statuses of a sample that is ancestral at the R1 marker, and the
    candidates R1a and R2 of main branch R. *)
Definition r_tree_classifier : classifier :=
  {| het_mode := "moderate";
     phylo_tree := <["R1a" := "R1"]> (<["R1" := "R"]> (<["R2" := "R"]> ∅));
     node_snps := []; snp_to_info := ∅; pos_to_haplo := [] |}.

Definition r1_ancestral_status : gmap string node_status :=
  {[ "R1" := {| ns_derived := []; ns_ancestral := ["M173"]; ns_het := [];
                ns_missing := [] |} ]}.

Definition r1a_candidate : candidate :=
  {| c_haplo := "R1a"; c_n_snps := 2; c_snps := ["M420"; "M512"]; c_depth := 2 |}.

Definition r2_candidate : candidate :=
  {| c_haplo := "R2"; c_n_snps := 1; c_snps := ["M479"]; c_depth := 1 |}.

(** A VCF with one sample, one record of chromosome 1 and one record of
    the Y chromosome. *)
Definition vcf_line (fields : list string) : string :=
  foldr (fun field rest => field +:+ (if truthy rest then TAB +:+ rest else NL)) "" fields.

Definition small_vcf : list string :=
  [ "##fileformat=VCFv4.2" +:+ NL;
    vcf_line ["#CHROM"; "POS"; "ID"; "REF"; "ALT"; "QUAL"; "FILTER"; "INFO"; "FORMAT"; "HG002"];
    vcf_line ["1"; "500"; "."; "C"; "T"; "."; "."; "."; "GT"; "0/1"];
    vcf_line ["chrY"; "100"; "."; "A"; "G"; "."; "."; "."; "GT:DP"; "1/1:30"] ].

(** An F tree file: the F node and one node below it. *)
Definition f_tree_lines : list string :=
  [ "F" +:+ TAB +:+ "M89/PF2746" +:+ NL;
    TAB +:+ "F1" +:+ TAB +:+ "P91, P104" +:+ NL ].

End Examples.

Import Spec Examples.

(* ===================================================================== *)
(** * The ancestor walk *)
(* ===================================================================== *)

Section ancestor_walk.
Import YHapLZ.
Variable phylo_tree : gmap string string.

Local Abbreviation parent := (parent_of phylo_tree).

Lemma ancestors_loop_unfold fuel current seen ancestors :
  ancestors_loop fuel phylo_tree current seen ancestors =
  match phylo_tree !! current with
  | Some p =>
      if bool_decide (current ∈ seen) then Some ancestors
      else match fuel with
           | O => None
           | S fuel' =>
               ancestors_loop fuel' phylo_tree p ({[current]} ∪ seen) (ancestors ++ [p])
           end
  | None => Some ancestors
  end.
Proof. destruct fuel; reflexivity. Qed.

(** The unseen keys of the map are a measure of the loop. *)
Lemma unseen_shrinks current seen :
  is_Some (phylo_tree !! current) -> current ∉ seen ->
  size (dom phylo_tree ∖ ({[current]} ∪ seen)) < size (dom phylo_tree ∖ seen).
Proof.
  intros Hin Hnew. apply subset_size. split; [set_solver|].
  intros Hsub. apply elem_of_dom in Hin.
  assert (current ∈ dom phylo_tree ∖ seen) as Hc by set_solver.
  apply Hsub in Hc. set_solver.
Qed.

Lemma ancestors_loop_enough fuel current seen ancestors :
  size (dom phylo_tree ∖ seen) <= fuel ->
  is_Some (ancestors_loop fuel phylo_tree current seen ancestors).
Proof.
  revert current seen ancestors.
  induction fuel as [|fuel IH]; intros current seen ancestors Hfuel;
    rewrite ancestors_loop_unfold;
    destruct (phylo_tree !! current) as [p|] eqn:Hp; eauto;
    case_bool_decide as Hseen; eauto;
    pose proof (unseen_shrinks current seen (mk_is_Some _ _ Hp) Hseen) as Hlt.
  - lia.
  - apply IH. lia.
Qed.

Lemma ancestors_loop_more_fuel fuel extra current seen ancestors res :
  ancestors_loop fuel phylo_tree current seen ancestors = Some res ->
  ancestors_loop (fuel + extra) phylo_tree current seen ancestors = Some res.
Proof.
  revert current seen ancestors.
  induction fuel as [|fuel IH]; intros current seen ancestors;
    rewrite !ancestors_loop_unfold;
    destruct (phylo_tree !! current) as [p|]; try done;
    case_bool_decide; try done.
  simpl. apply IH.
Qed.

Lemma ancestors_loop_length fuel current seen ancestors res :
  ancestors_loop fuel phylo_tree current seen ancestors = Some res ->
  length res <= length ancestors + size (dom phylo_tree ∖ seen).
Proof.
  revert current seen ancestors.
  induction fuel as [|fuel IH]; intros current seen ancestors;
    rewrite ancestors_loop_unfold;
    destruct (phylo_tree !! current) as [p|] eqn:Hp;
    try (intros [= <-]; lia);
    case_bool_decide as Hseen; try (intros [= <-]; lia); try done.
  intros Hres. apply IH in Hres. rewrite length_app in Hres. simpl in Hres.
  pose proof (unseen_shrinks current seen (mk_is_Some _ _ Hp) Hseen). lia.
Qed.

(** Everything the walk appends is reached from the start node by at least
    one parent step. *)
Lemma ancestors_loop_reached node fuel current seen ancestors res :
  ancestors_loop fuel phylo_tree current seen ancestors = Some res ->
  rtc parent node current ->
  (forall x, x ∈ ancestors -> tc parent node x) ->
  forall x, x ∈ res -> tc parent node x.
Proof.
  revert current seen ancestors.
  induction fuel as [|fuel IH]; intros current seen ancestors;
    rewrite ancestors_loop_unfold;
    destruct (phylo_tree !! current) as [p|] eqn:Hp;
    try (intros [= <-]; auto; fail);
    case_bool_decide as Hseen; try (intros [= <-]; auto; fail); try done.
  intros Hres Hcur Hanc. eapply IH; [exact Hres| |].
  - eapply rtc_r; [exact Hcur|exact Hp].
  - intros x [Hx|Hx%list_elem_of_singleton]%elem_of_app; [auto|subst x].
    eapply tc_rtc_l; [exact Hcur|]. by apply tc_once.
Qed.

Lemma tc_last_step (x z : string) :
  tc parent x z -> exists y, rtc parent x y /\ parent y z.
Proof.
  induction 1 as [x z Hxz|x y z Hxy _ (w & Hyw & Hwz)].
  - exists x. split; [constructor|done].
  - exists w. split; [|done]. by econstructor.
Qed.

(** A set of nodes closed under the parent map contains whatever one of its
    members reaches. *)
Lemma closed_reach (seen : gset string) x y :
  (forall z p, z ∈ seen -> phylo_tree !! z = Some p -> p ∈ seen) ->
  rtc parent x y -> x ∈ seen -> y ∈ seen.
Proof.
  intros Hclosed. induction 1 as [|x x' y Hstep _ IH]; [done|].
  intros Hx. apply IH. eapply Hclosed; [exact Hx|exact Hstep].
Qed.

(** A start node that lies on a cycle ends up in the list. *)
Lemma ancestors_loop_cycle node fuel current seen ancestors res :
  ancestors_loop fuel phylo_tree current seen ancestors = Some res ->
  (forall z p, z ∈ seen -> phylo_tree !! z = Some p ->
               p ∈ ancestors /\ (p ∈ seen \/ p = current)) ->
  (forall y, rtc parent node y -> y ∈ seen \/ rtc parent current y) ->
  on_cycle phylo_tree node ->
  node ∈ res.
Proof.
  intros Hres Hseen Hreach Hcycle.
  destruct (tc_last_step _ _ Hcycle) as (y & Hy & Hlast).
  revert current seen ancestors Hres Hseen Hreach.
  induction fuel as [|fuel IH]; intros current seen ancestors;
    rewrite ancestors_loop_unfold;
    destruct (phylo_tree !! current) as [p|] eqn:Hp.
  1,3: case_bool_decide as Hcur.
  all: try done.
  all: try (intros [= <-] Hseen Hreach).
  - (* stopped on a revisit *)
    assert (y ∈ seen) as Hyseen.
    { destruct (Hreach y Hy) as [|Hcy]; [done|].
      eapply closed_reach; [|exact Hcy|exact Hcur].
      intros z q Hz Hq. destruct (Hseen z q Hz Hq) as [_ [?| ->]]; done. }
    by destruct (Hseen y node Hyseen Hlast).
  - assert (y ∈ seen) as Hyseen.
    { destruct (Hreach y Hy) as [|Hcy]; [done|].
      eapply closed_reach; [|exact Hcy|exact Hcur].
      intros z q Hz Hq. destruct (Hseen z q Hz Hq) as [_ [?| ->]]; done. }
    by destruct (Hseen y node Hyseen Hlast).
  - (* one more iteration *)
    intros Hres Hseen Hreach. eapply IH; [exact Hres| |].
    + intros z q [->%elem_of_singleton|Hz]%elem_of_union Hq.
      * unfold parent_of in *. rewrite Hp in Hq. injection Hq as <-.
        split; [set_solver|by right].
      * destruct (Hseen z q Hz Hq) as [Hanc [Hq'| ->]];
          (split; [set_solver|left; set_solver]).
    + intros y' Hy'. destruct (Hreach y' Hy') as [|Hcy]; [left; set_solver|].
      apply rtc_inv in Hcy as [<-|(q & Hq & Hqy)]; [left; set_solver|].
      unfold parent_of in Hq. rewrite Hp in Hq. injection Hq as <-. by right.
  - (* stopped at a node without parent *)
    destruct (Hreach y Hy) as [Hyseen|Hcy].
    + by destruct (Hseen y node Hyseen Hlast).
    + apply rtc_inv in Hcy as [<-|(q & Hq & _)]; unfold parent_of in *; congruence.
  - destruct (Hreach y Hy) as [Hyseen|Hcy].
    + by destruct (Hseen y node Hyseen Hlast).
    + apply rtc_inv in Hcy as [<-|(q & Hq & _)]; unfold parent_of in *; congruence.
Qed.

(** [size phylo_tree] iterations are enough for every start node. *)
Lemma get_ancestors_fuel_enough node :
  get_ancestors_fuel (size phylo_tree) phylo_tree node
  = Some (get_ancestors phylo_tree node).
Proof.
  unfold get_ancestors.
  destruct (ancestors_loop_enough (size phylo_tree) node ∅ []) as [res Hres].
  - rewrite difference_empty_L, size_dom. done.
  - unfold get_ancestors_fuel. by rewrite Hres.
Qed.

End ancestor_walk.

(** C9: [get_ancestors] terminates for every start node and every
    child-to-parent map, cyclic or not: the loop, run with any bound of at
    least [size phylo_tree] iterations, leaves through its condition and
    returns the list [get_ancestors] denotes; the list has at most
    [size phylo_tree] elements, and so [get_depth] is total as well. *)
Theorem get_ancestors_terminates (phylo_tree : gmap string string)
    (node : string) (extra : nat) :
  YHapLZ.get_ancestors_fuel (size phylo_tree + extra) phylo_tree node
    = Some (YHapLZ.get_ancestors phylo_tree node)
  /\ YHapLZ.get_depth phylo_tree node = length (YHapLZ.get_ancestors phylo_tree node)
  /\ YHapLZ.get_depth phylo_tree node <= size phylo_tree.
Proof.
  pose proof (get_ancestors_fuel_enough phylo_tree node) as Hrun.
  split; [|split].
  - by apply ancestors_loop_more_fuel.
  - reflexivity.
  - unfold YHapLZ.get_depth.
    apply ancestors_loop_length in Hrun. simpl in Hrun.
    rewrite difference_empty_L, size_dom in Hrun. exact Hrun.
Qed.

(** C8, as the code has it: for every child-to-parent map and every node N,
    [get_depth N] is the length of [get_ancestors N], and the list contains
    N itself exactly when N lies on a cycle of the parent relation; on an
    acyclic map it never does. *)
Theorem ancestors_contain_node_iff_cycle (phylo_tree : gmap string string)
    (node : string) :
  YHapLZ.get_depth phylo_tree node = length (YHapLZ.get_ancestors phylo_tree node)
  /\ (node ∈ YHapLZ.get_ancestors phylo_tree node <-> on_cycle phylo_tree node).
Proof.
  split; [reflexivity|].
  pose proof (get_ancestors_fuel_enough phylo_tree node) as Hrun.
  unfold YHapLZ.get_ancestors_fuel in Hrun. split.
  - intros Hin. eapply ancestors_loop_reached; [exact Hrun|constructor| |exact Hin].
    intros x Hx. by apply elem_of_nil in Hx.
  - intros Hcycle. eapply ancestors_loop_cycle; [exact Hrun| | |exact Hcycle].
    + intros z p Hz. by apply elem_of_empty in Hz.
    + intros y Hy. by right.
Qed.

(** C8, the claim as stated fails: in the tree built from the F part of the
    shipped tree text, F is its own parent and [get_ancestors "F"] is
    [["F"]]. *)
Lemma ancestors_of_f_contain_f :
  fst <$> YHapLZ._parse_tree f_tree_text = Ok f_self_parent_tree
  /\ f_self_parent_tree !! "F" = Some "F"
  /\ YHapLZ.get_ancestors f_self_parent_tree "F" = ["F"]
  /\ "F" ∈ YHapLZ.get_ancestors f_self_parent_tree "F".
Proof.
  split; [vm_compute; reflexivity|].
  split; [vm_compute; reflexivity|].
  split; [vm_compute; reflexivity|].
  vm_compute. apply list_elem_of_here.
Qed.

(** On an acyclic map no node is among its own ancestors. *)
Lemma acyclic_ancestors_exclude_node (phylo_tree : gmap string string) (node : string) :
  acyclic phylo_tree -> node ∉ YHapLZ.get_ancestors phylo_tree node.
Proof.
  intros Hacyclic Hin. apply (Hacyclic node).
  pose proof (get_ancestors_fuel_enough phylo_tree node) as Hrun.
  eapply ancestors_loop_reached; [exact Hrun|constructor| |exact Hin].
  intros x Hx. by apply elem_of_nil in Hx.
Qed.

(* ===================================================================== *)
(** * Operations that cannot raise *)
(* ===================================================================== *)

Section no_raise.
Import YHapLZ.

Lemma for_each_ok {A S : Type} (body : S -> A -> outcome S) (l : list A) (st : S) :
  (forall st x, exists st', body st x = Ok st') ->
  exists st', for_each body l st = Ok st'.
Proof.
  intros Hbody. revert st. induction l as [|x l IH]; intros st; simpl; [eauto|].
  destruct (Hbody st x) as [st' ->]. simpl. apply IH.
Qed.

Lemma split_go_cons sep skip s :
  exists piece pieces, split_go sep skip s = piece :: pieces.
Proof.
  revert skip. induction s as [|c s IH]; intros skip; cbn [split_go]; [eauto|].
  destruct skip as [|k]; [|apply IH].
  destruct (String.prefix sep (String c s)); [eauto|].
  destruct (IH 0) as (piece & pieces & ->). eauto.
Qed.

Lemma split_cons sep s : exists piece pieces, split sep s = piece :: pieces.
Proof. apply split_go_cons. Qed.

Lemma list_item_ok {A : Type} (l : list A) (i : nat) :
  i < length l -> exists x, list_item l i = Ok x.
Proof.
  intros Hi. unfold list_item.
  destruct (lookup_lt_is_Some_2 l i Hi) as [x ->]. eauto.
Qed.

Lemma str_item_ok (s : string) (i : nat) :
  i < String.length s -> exists c, str_item s i = Ok c.
Proof.
  unfold str_item. revert i. induction s as [|c s IH]; intros i Hi; simpl in *; [lia|].
  destruct i as [|i]; [eauto|]. apply IH. lia.
Qed.

Lemma dict_item_ok {K V : Type} `{Countable K} (d : gmap K V) (k : K) :
  dict_mem k d = true -> exists v, dict_item d k = Ok v.
Proof. unfold dict_mem, dict_item. destruct (d !! k); [eauto|done]. Qed.

Lemma extract_snps_ok parts : exists snps, extract_snps parts = Ok snps.
Proof.
  unfold extract_snps. destruct (2 <=? length parts) eqn:Hlen; [|eauto].
  apply Nat.leb_le in Hlen.
  destruct (list_item_ok parts 1 ltac:(lia)) as [x ->]. simpl. eauto.
Qed.

Lemma parse_tree_line_ok st line : exists st', parse_tree_line st line = Ok st'.
Proof.
  destruct st as [[phylo_tree node_snps] path_stack]. unfold parse_tree_line.
  destruct (negb (truthy (strip line))); [eauto|].
  destruct (split_cons TAB (strip line)) as (part0 & parts & ->).
  simpl length. simpl (_ <? _).
  change (list_item (part0 :: parts) 0) with (Ok part0). simpl mbind.
  destruct (_ || _); [eauto|].
  destruct (extract_snps_ok (part0 :: parts)) as [snps ->]. simpl. eauto.
Qed.

End no_raise.

(** C1, as the code has it: tree construction performs no cycle check.
    [_parse_tree] returns a parent map and a marker map for every tree
    text; it never raises, whether or not the text lists a node below
    itself or below one of its own descendants. *)
Theorem parse_tree_never_raises (tree_text : string) :
  exists phylo_tree node_snps,
    YHapLZ._parse_tree tree_text = Ok (phylo_tree, node_snps).
Proof.
  unfold YHapLZ._parse_tree.
  destruct (for_each_ok YHapLZ.parse_tree_line (split NL (strip tree_text)) (∅, [], []))
    as [[[phylo_tree node_snps] path_stack] ->].
  - intros st line. apply parse_tree_line_ok.
  - simpl. eauto.
Qed.

(** C1, the claim as stated fails: a text that lists [A] again below its
    own child [B] is built into a parent map with the cycle A -> B -> A,
    and the F part of the shipped tree text is built into a map in which F
    is its own parent; neither construction fails. *)
Lemma parse_tree_accepts_cycle :
  (fst <$> YHapLZ._parse_tree ab_cycle_text = Ok ab_cycle_tree
   /\ on_cycle ab_cycle_tree "A")
  /\ (fst <$> YHapLZ._parse_tree f_tree_text = Ok f_self_parent_tree
      /\ on_cycle f_self_parent_tree "F").
Proof.
  split; (split; [vm_compute; reflexivity|]).
  - eapply tc_l; [|apply tc_once]; vm_compute; reflexivity.
  - apply tc_once. vm_compute. reflexivity.
Qed.

(* ===================================================================== *)
(** * The genotype resolver *)
(* ===================================================================== *)

(** C7: orientation symmetry. With expected ancestral A and derived G, every
    homozygous-alt call with observed ref A and alt G resolves to Derived,
    and so does every homozygous-ref call with observed ref G and alt A. *)
Theorem orientation_symmetry :
  Forall (fun gt => YHapLZ.check_genotype gt "A" "G" "A" "G" = DERIVED) hom_alt_calls
  /\ Forall (fun gt => YHapLZ.check_genotype gt "G" "A" "A" "G" = DERIVED) hom_ref_calls.
Proof. split; repeat constructor. Qed.

(** C10: the resolver of the generated classifier and the resolver of the
    base classifier return the same status on every input. *)
Theorem check_genotype_same_as_base (gt vcf_ref vcf_alt exp_ref exp_alt : string) :
  YHapLZ.check_genotype gt vcf_ref vcf_alt exp_ref exp_alt
  = ProYHapLZ.check_genotype gt vcf_ref vcf_alt exp_ref exp_alt.
Proof. reflexivity. Qed.

(* ===================================================================== *)
(** * Samples without a position of the index *)
(* ===================================================================== *)

Section no_overlap.
Import YHapLZ.

Lemma for_each_skip {A S : Type} (body : S -> A -> outcome S) (l : list A) (st : S) :
  Forall (fun x => body st x = Ok st) l -> for_each body l st = Ok st.
Proof. induction 1 as [|x l Hx _ IH]; simpl; [done|]. rewrite Hx. exact IH. Qed.

Lemma collect_evidence_no_overlap clf (sample_geno : gmap Z genotype) :
  Forall (fun pos => sample_geno !! pos = None) (pos_to_haplo clf).*1 ->
  collect_evidence clf sample_geno
  = Ok {| e_het_count := 0; e_derived_haplos := []; e_all_node_status := ∅ |}.
Proof.
  intros Hdisj. apply for_each_skip.
  apply Forall_fmap in Hdisj. eapply Forall_impl; [exact Hdisj|].
  intros [pos entries]; simpl. intros Hpos.
  unfold dict_mem. by rewrite Hpos.
Qed.

End no_overlap.

(** C5: when no position of the Position Index has a call in the sample,
    [classify_sample] returns main branch Unknown, haplogroup Unknown and
    confidence 0. *)
Theorem no_overlap_unknown (clf : YHapLZ.classifier) (sample : string)
    (sample_geno : gmap Z YHapLZ.genotype) :
  Forall (fun pos => sample_geno !! pos = None) (YHapLZ.pos_to_haplo clf).*1 ->
  exists r,
    YHapLZ.classify_sample clf sample sample_geno = Ok r
    /\ YHapLZ.r_main_branch r = "Unknown"
    /\ YHapLZ.r_haplogroup r = "Unknown"
    /\ YHapLZ.r_confidence r = YHapLZ.PyInt 0.
Proof.
  intros Hdisj. unfold YHapLZ.classify_sample.
  rewrite (collect_evidence_no_overlap clf sample_geno Hdisj). simpl.
  eexists. split; [reflexivity|]. by repeat split.
Qed.

Lemma no_overlap_unknown_witness :
  exists r,
    YHapLZ.classify_sample kr_classifier "HG001" off_index_sample = Ok r
    /\ YHapLZ.r_main_branch r = "Unknown"
    /\ YHapLZ.r_haplogroup r = "Unknown"
    /\ YHapLZ.r_confidence r = YHapLZ.PyInt 0.
Proof.
  apply (no_overlap_unknown kr_classifier "HG001" off_index_sample).
  repeat constructor.
Defined.

(* ===================================================================== *)
(** * The marker reference index *)
(* ===================================================================== *)

Section marker_index.
Import YHapLZ.

Lemma truthy_ne s : truthy s = true <-> s <> "".
Proof. destruct s; simpl; split; congruence. Qed.

(** An alias never replaces an entry; it fills an empty one. *)
Lemma add_alias_lookup info (m : gmap string snp_info) alt_name k :
  add_alias info m alt_name !! k =
  match m !! k with
  | Some v => Some v
  | None => if bool_decide (k = alt_name /\ k <> "") then Some info else None
  end.
Proof.
  unfold add_alias, dict_mem.
  destruct (truthy alt_name) eqn:Htruthy; simpl.
  - apply truthy_ne in Htruthy.
    destruct (m !! alt_name) eqn:Halt; simpl.
    + destruct (m !! k) eqn:Hk; [done|].
      case_bool_decide as Hd; [|done]. destruct Hd as [-> _]. congruence.
    + destruct (decide (k = alt_name)) as [->|Hne].
      * rewrite lookup_insert_eq, Halt. case_bool_decide as Hd; [done|].
        exfalso. by apply Hd.
      * rewrite lookup_insert_ne by done. destruct (m !! k); [done|].
        case_bool_decide as Hd; [|done]. by destruct Hd.
  - destruct (m !! k); [done|].
    case_bool_decide as Hd; [|done]. destruct Hd as [-> Hne].
    apply truthy_ne in Hne. congruence.
Qed.

Lemma add_aliases_lookup info alt_names (m : gmap string snp_info) k :
  foldl (add_alias info) m alt_names !! k =
  match m !! k with
  | Some v => Some v
  | None => if bool_decide (k ∈ alt_names /\ k <> "") then Some info else None
  end.
Proof.
  revert m. induction alt_names as [|a alt_names IH]; intros m; cbn [foldl].
  - destruct (m !! k); [done|]. case_bool_decide as Hd; [|done].
    destruct Hd as [Hin _]. by apply elem_of_nil in Hin.
  - rewrite IH, add_alias_lookup. destruct (m !! k); [done|].
    destruct (decide (k = a /\ k <> "")) as [Ha|Ha].
    + rewrite (bool_decide_eq_true_2 _ Ha).
      rewrite bool_decide_eq_true_2; [done|].
      destruct Ha as [-> ?]. split; [left|done].
    + rewrite (bool_decide_eq_false_2 _ Ha).
      destruct (decide (k ∈ alt_names /\ k <> "")) as [Hin|Hin].
      * rewrite (bool_decide_eq_true_2 _ Hin).
        rewrite bool_decide_eq_true_2; [done|].
        destruct Hin. split; [by right|done].
      * rewrite (bool_decide_eq_false_2 _ Hin).
        rewrite bool_decide_eq_false_2; [done|].
        intros [[->|Hin']%elem_of_cons Hne]; [apply Ha|apply Hin]; done.
Qed.

(** What adding one row does to the entry of any identifier [k]. *)
Lemma add_isogg_row_lookup st r k :
  (add_isogg_row st r).1.1 !! k =
  if decide (k = row_snp_name r) then Some (row_info r)
  else match st.1.1 !! k with
       | Some v => Some v
       | None => if bool_decide (k ∈ row_alt_names r /\ k <> "")
                 then Some (row_info r) else None
       end.
Proof.
  destruct st as [[snp_to_info pos_to_haplo] count]. simpl.
  rewrite add_aliases_lookup.
  destruct (decide (k = row_snp_name r)) as [->|Hne].
  - by rewrite lookup_insert_eq.
  - by rewrite lookup_insert_ne.
Qed.

(** Rows whose primary name is not [k] leave an existing entry of [k]
    alone. *)
Lemma info_after_keeps st rows k v :
  st.1.1 !! k = Some v ->
  Forall (fun r => row_snp_name r <> k) rows ->
  info_after st rows !! k = Some v.
Proof.
  unfold info_after. revert st.
  induction rows as [|r rows IH]; intros st Hk Hrows; simpl; [done|].
  apply Forall_cons in Hrows as [Hr Hrows]. apply IH; [|done].
  rewrite add_isogg_row_lookup, Hk. by rewrite decide_False.
Qed.

Lemma info_after_app st rows1 rows2 :
  info_after st (rows1 ++ rows2) = info_after (foldl add_isogg_row st rows1) rows2.
Proof. unfold info_after. by rewrite foldl_app. Qed.

Lemma info_after_cons st r rows :
  info_after st (r :: rows) = info_after (add_isogg_row st r) rows.
Proof. reflexivity. Qed.

(** The loop body never raises. *)
Lemma parse_isogg_line_ok sep line : exists decoded, parse_isogg_line sep line = Ok decoded.
Proof.
  unfold parse_isogg_line.
  destruct (length (split sep (strip line)) <? 7) eqn:Hlen; [eauto|].
  apply Nat.ltb_ge in Hlen.
  destruct (list_item_ok (split sep (strip line)) 0 ltac:(lia)) as [p0 ->].
  destruct (list_item_ok (split sep (strip line)) 1 ltac:(lia)) as [p1 ->].
  destruct (list_item_ok (split sep (strip line)) 4 ltac:(lia)) as [p4 ->].
  destruct (list_item_ok (split sep (strip line)) 6 ltac:(lia)) as [p6 Hp6].
  destruct (list_item_ok (split sep (strip line)) 2 ltac:(lia)) as [p2 Hp2].
  simpl. rewrite Hp6.
  replace (6 <? length (split sep (strip line))) with true
    by (symmetry; apply Nat.ltb_lt; lia).
  replace (2 <? length (split sep (strip line))) with true
    by (symmetry; apply Nat.ltb_lt; lia).
  simpl. destruct (_ || _); [eauto|].
  destruct (py_int (strip p4)); [|eauto].
  destruct (parse_mutation (strip p6)) as [ref alt]. rewrite Hp2. simpl. eauto.
Qed.

Lemma load_isogg_line_eq sep st line :
  load_isogg_line sep st line
  = Ok (foldl add_isogg_row st (decode_rows sep [line])).
Proof.
  unfold load_isogg_line, decode_rows. cbn [omap list_omap].
  destruct (parse_isogg_line_ok sep line) as [[r|] ->]; reflexivity.
Qed.

Lemma decode_rows_cons sep line lines :
  decode_rows sep (line :: lines) = decode_rows sep [line] ++ decode_rows sep lines.
Proof.
  unfold decode_rows. cbn [omap list_omap].
  destruct (parse_isogg_line sep line) as [[r|]|]; reflexivity.
Qed.

Lemma load_isogg_rows header lines st :
  _load_isogg header lines st
  = Ok (foldl add_isogg_row st (decode_rows (isogg_sep header) lines)).
Proof.
  unfold _load_isogg. fold (isogg_sep header). generalize (isogg_sep header).
  intros sep. revert st. induction lines as [|line lines IH]; intros st; [done|].
  cbn [for_each]. rewrite (decode_rows_cons sep line lines), foldl_app, load_isogg_line_eq.
  cbn [mbind outcome_bind]. apply IH.
Qed.

End marker_index.

(** C3, as the code has it: first-seen wins for aliases only. For a row [r]
    of the table, with the rows before and after it:
    - if no later row has the primary name of [r] as its primary name,
      [snp_to_info] maps that name to the tuple of [r], whatever earlier
      rows said about it (a repeated primary name is overwritten, the last
      definition is kept);
    - a non-empty alias of [r] that is not a primary name of [r] or of a
      later row keeps the entry it had before [r] if it had one, and
      otherwise gets the tuple of [r] (an alias never overwrites). *)
Theorem isogg_overwrite_policy (header : string) (lines : list string)
    (st : YHapLZ.isogg_state) (rows_before : list YHapLZ.isogg_row)
    (r : YHapLZ.isogg_row) (rows_after : list YHapLZ.isogg_row) :
  decode_rows (isogg_sep header) lines = rows_before ++ r :: rows_after ->
  exists st',
    YHapLZ._load_isogg header lines st = Ok st'
    /\ (Forall (fun r' => YHapLZ.row_snp_name r' <> YHapLZ.row_snp_name r) rows_after ->
        st'.1.1 !! YHapLZ.row_snp_name r = Some (YHapLZ.row_info r))
    /\ (forall alt_name,
           alt_name ∈ YHapLZ.row_alt_names r -> alt_name <> "" ->
           alt_name <> YHapLZ.row_snp_name r ->
           Forall (fun r' => YHapLZ.row_snp_name r' <> alt_name) rows_after ->
           st'.1.1 !! alt_name
           = Some (default (YHapLZ.row_info r) (info_after st rows_before !! alt_name))).
Proof.
  intros Hrows. eexists. split; [apply load_isogg_rows|].
  rewrite Hrows. fold (info_after st (rows_before ++ r :: rows_after)).
  rewrite info_after_app, info_after_cons.
  split.
  - intros Hafter. apply info_after_keeps; [|done].
    rewrite add_isogg_row_lookup. by rewrite decide_True.
  - intros alt_name Hin Hne Hprimary Hafter. apply info_after_keeps; [|done].
    rewrite add_isogg_row_lookup. rewrite decide_False by done.
    fold (info_after st rows_before).
    destruct (info_after st rows_before !! alt_name); [done|].
    by rewrite bool_decide_eq_true_2.
Qed.

Lemma isogg_overwrite_policy_witness :
  exists st',
    YHapLZ._load_isogg isogg_header duplicate_lines (∅, [], 0) = Ok st'
    /\ st'.1.1 !! "M1" = Some (200%Z, "C", "T")
    /\ st'.1.1 !! "PF1" = Some (100%Z, "A", "G")
    /\ st'.1.1 !! "PF2" = Some (200%Z, "C", "T").
Proof.
  destruct (isogg_overwrite_policy isogg_header duplicate_lines (∅, [], 0)
              [ {| YHapLZ.row_snp_name := "M1"; YHapLZ.row_haplo := "R";
                   YHapLZ.row_alt_names := ["PF1"];
                   YHapLZ.row_pos := 100; YHapLZ.row_ref := "A"; YHapLZ.row_alt := "G" |} ]
              {| YHapLZ.row_snp_name := "M1"; YHapLZ.row_haplo := "R";
                 YHapLZ.row_alt_names := ["PF1"; "PF2"];
                 YHapLZ.row_pos := 200; YHapLZ.row_ref := "C"; YHapLZ.row_alt := "T" |}
              [] eq_refl)
    as (st' & Hload & Hprimary & Halias).
  exists st'. split; [exact Hload|]. split; [|split].
  - apply Hprimary. constructor.
  - apply (Halias "PF1"); [by left|done|done|constructor].
  - apply (Halias "PF2"); [by right; left|done|done|constructor].
Defined.

(** C3, the claim as stated fails for a primary name: the table defines M1
    first at position 100 (A to G) and then at position 200 (C to T), and
    [snp_to_info] ends with the second definition. *)
Lemma duplicate_primary_name_overwrites :
  exists st',
    YHapLZ._load_isogg isogg_header duplicate_lines (∅, [], 0) = Ok st'
    /\ YHapLZ.row_info <$> decode_rows (isogg_sep isogg_header) duplicate_lines
       = [ (100%Z, "A", "G"); (200%Z, "C", "T") ]
    /\ YHapLZ.row_snp_name <$> decode_rows (isogg_sep isogg_header) duplicate_lines
       = [ "M1"; "M1" ]
    /\ st'.1.1 !! "M1" = Some (200%Z, "C", "T")
    /\ st'.1.1 !! "M1" <> Some (100%Z, "A", "G").
Proof.
  eexists. split; [vm_compute; reflexivity|].
  split; [vm_compute; reflexivity|]. split; [vm_compute; reflexivity|].
  split; [vm_compute; reflexivity|]. vm_compute. discriminate.
Qed.

(* ===================================================================== *)
(** * [classify_sample] returns a result for every sample *)
(* ===================================================================== *)

Section classify_no_raise.
Import YHapLZ.
Variable clf : classifier.
Variable sample_geno : gmap Z genotype.

Lemma direct_match_ok haplo branches :
  exists found, direct_match haplo branches = Ok found.
Proof.
  induction branches as [|branch rest IH]; cbn [direct_match]; [eauto|].
  destruct (String.eqb haplo branch); [eauto|].
  destruct (startswith haplo branch && (1 <? String.length haplo)).
  - destruct (String.length branch <? String.length haplo) eqn:Hlen.
    + apply Nat.ltb_lt in Hlen.
      destruct (str_item_ok haplo (String.length branch) Hlen) as [c ->].
      cbn [mbind outcome_bind]. destruct (_ || _); [eauto|exact IH].
    + cbn [mbind outcome_bind]. destruct (_ || _); [eauto|exact IH].
  - cbn [mbind outcome_bind]. exact IH.
Qed.

Lemma get_main_branch_ok haplo : exists branch, get_main_branch haplo = Ok branch.
Proof.
  unfold get_main_branch. destruct haplo as [|c haplo]; [simpl; eauto|].
  cbn [truthy negb].
  destruct (direct_match_ok (String c haplo) MAIN_BRANCHES) as [[b|] ->];
    cbn [mbind outcome_bind]; [eauto|].
  case_bool_decide; [eauto|].
  cbn. destruct (in_list _ _); eauto.
Qed.

Lemma collect_entry_ok pos g st entry :
  exists st', collect_entry clf pos g st entry = Ok st'.
Proof.
  destruct st as [derived_haplos all_node_status], g as [[gt vcf_ref] vcf_alt],
    entry as [[[haplo snp_name] ref] alt].
  unfold collect_entry.
  set (ans := if negb (dict_mem haplo all_node_status) then _ else _).
  assert (dict_mem haplo ans = true) as Hmem.
  { subst ans. unfold dict_mem. destruct (all_node_status !! haplo) eqn:Hl; simpl.
    - by rewrite Hl.
    - by rewrite lookup_insert_eq. }
  destruct (dict_item_ok ans haplo Hmem) as [info Hinfo].
  destruct (check_genotype gt vcf_ref vcf_alt ref alt);
    rewrite ?Hinfo; cbn [mbind outcome_bind]; eauto.
Qed.

Lemma collect_position_ok st item :
  exists st', collect_position clf sample_geno st item = Ok st'.
Proof.
  destruct item as [pos entries]. unfold collect_position.
  destruct (dict_mem pos sample_geno) eqn:Hmem; cbn [negb]; [|eauto].
  destruct (dict_item_ok sample_geno pos Hmem) as [g ->]. cbn [mbind outcome_bind].
  destruct (for_each_ok (collect_entry clf pos g) entries
              (e_derived_haplos st, e_all_node_status st)) as [[dh ans] ->].
  - intros st0 entry. apply collect_entry_ok.
  - cbn [mbind outcome_bind]. eauto.
Qed.

Lemma collect_evidence_ok : exists ev, collect_evidence clf sample_geno = Ok ev.
Proof. apply for_each_ok. intros st item. apply collect_position_ok. Qed.

Lemma group_by_branch_ok derived_haplos :
  exists bc, group_by_branch clf derived_haplos = Ok bc.
Proof.
  apply for_each_ok. intros bc [haplo snps]. unfold group_haplo.
  destruct (get_main_branch_ok haplo) as [[b|] ->]; cbn [mbind outcome_bind]; [|eauto].
  destruct (truthy b); eauto.
Qed.

Lemma direct_status_ok branch :
  exists status, direct_status clf sample_geno branch = Ok status.
Proof.
  unfold direct_status. destruct (MAIN_BRANCH_DEFINING_SNPS !! branch) as [snp|]; [|eauto].
  destruct (truthy snp); cbn [andb]; [|eauto].
  destruct (dict_mem snp (snp_to_info clf)) eqn:Hsnp; [|eauto].
  destruct (dict_item_ok _ _ Hsnp) as [[[pos ref] alt] ->]. cbn [mbind outcome_bind].
  destruct (dict_mem pos sample_geno) eqn:Hpos; [|eauto].
  destruct (dict_item_ok _ _ Hpos) as [[[gt vcf_ref] vcf_alt] ->].
  cbn [mbind outcome_bind]. eauto.
Qed.

Lemma branch_direct_status_ok :
  exists bds, branch_direct_status clf sample_geno = Ok bds.
Proof.
  apply for_each_ok. intros bds branch.
  destruct (direct_status_ok branch) as [status ->]. cbn [mbind outcome_bind]. eauto.
Qed.

Lemma select_by_defining_snp_ok bds bc branches :
  Forall (fun branch => is_Some (MAIN_BRANCH_DEFINING_SNPS !! branch)) branches ->
  exists choice, select_by_defining_snp clf bds bc branches = Ok choice.
Proof.
  induction 1 as [|branch rest [snp Hsnp] _ IH]; cbn [select_by_defining_snp]; [eauto|].
  destruct (_ && _); [|exact IH].
  unfold dict_item. rewrite Hsnp. cbn [mbind outcome_bind]. eauto.
Qed.

Lemma main_branches_have_defining_snps :
  Forall (fun branch => is_Some (MAIN_BRANCH_DEFINING_SNPS !! branch)) MAIN_BRANCHES.
Proof. repeat constructor; vm_compute; eauto. Qed.

Lemma basal_f_derived_ok : exists b, basal_f_derived clf sample_geno = Ok b.
Proof.
  unfold basal_f_derived.
  destruct (dict_mem F_DEFINING_SNP (snp_to_info clf)) eqn:Hf; [|eauto].
  destruct (dict_item_ok _ _ Hf) as [info ->]. cbn [mbind outcome_bind].
  destruct (dict_mem info.1.1 sample_geno) eqn:Hpos; [|eauto].
  destruct (dict_item_ok _ _ Hpos) as [[[gt vcf_ref] vcf_alt] ->].
  cbn [mbind outcome_bind]. eauto.
Qed.

Lemma select_main_branch_ok bds bc :
  exists choice, select_main_branch clf sample_geno bds bc = Ok choice.
Proof.
  unfold select_main_branch.
  destruct (select_by_defining_snp_ok bds bc MAIN_BRANCHES
              main_branches_have_defining_snps) as [[mb note] ->].
  cbn [mbind outcome_bind].
  destruct (if negb (truthy_opt mb) then _ else _) as [mb' note'].
  destruct (negb (truthy_opt mb')); [|eauto].
  destruct basal_f_derived_ok as [[] ->]; cbn [mbind outcome_bind]; eauto.
Qed.

Lemma relevant_ancestors_ok main_branch ancestors :
  exists relevant, relevant_ancestors main_branch ancestors = Ok relevant.
Proof.
  induction ancestors as [|anc rest [relevant IH]]; cbn [relevant_ancestors]; [eauto|].
  destruct (String.eqb anc main_branch); [eauto|].
  destruct (get_main_branch_ok anc) as [anc_branch ->]. cbn [mbind outcome_bind].
  rewrite IH. cbn [mbind outcome_bind]. destruct (_ || _); eauto.
Qed.

Lemma check_chain_ok ans relevant :
  exists verdict, check_chain clf ans relevant = Ok verdict.
Proof.
  apply for_each_ok. intros [chain_valid conflicts] anc.
  destruct (dict_mem anc ans) eqn:Hmem; [|eauto].
  destruct (dict_item_ok _ _ Hmem) as [info ->]. cbn [mbind outcome_bind].
  destruct (_ && _); [|eauto]. destruct (_ && _); eauto.
Qed.

Lemma validate_candidates_ok ans main_branch candidates sel :
  exists sel', validate_candidates clf ans main_branch candidates sel = Ok sel'.
Proof.
  revert sel. induction candidates as [|cand rest IH]; intros sel;
    cbn [validate_candidates]; [eauto|].
  destruct (relevant_ancestors_ok main_branch
              (get_ancestors (phylo_tree clf) (c_haplo cand))) as [relevant ->].
  cbn [mbind outcome_bind].
  destruct (check_chain_ok ans relevant) as [[[] conflicts] ->];
    cbn [mbind outcome_bind]; [eauto|apply IH].
Qed.

Lemma conflict_count_ok ans ancestors :
  exists count, conflict_count ans ancestors = Ok count.
Proof.
  apply for_each_ok. intros count anc.
  destruct (dict_mem anc ans) eqn:Hmem; [|eauto].
  destruct (dict_item_ok _ _ Hmem) as [info ->]. cbn [mbind outcome_bind].
  destruct (_ && _); eauto.
Qed.

Lemma fewest_conflicts_ok ans candidates sel :
  exists sel', fewest_conflicts clf ans candidates sel = Ok sel'.
Proof.
  unfold fewest_conflicts.
  match goal with |- context [for_each ?body candidates (None, sel)] =>
    destruct (for_each_ok body candidates (None, sel)) as [[m sel'] ->]
  end.
  - intros [min_conflicts sel0] cand.
    destruct (conflict_count_ok ans (get_ancestors (phylo_tree clf) (c_haplo cand)))
      as [count ->].
    cbn [mbind outcome_bind]. destruct min_conflicts as [m|]; [destruct (count <? m)|]; eauto.
  - cbn [mbind outcome_bind]. eauto.
Qed.

Lemma subdivide_ok ans main_branch candidates :
  exists sel, subdivide clf ans main_branch candidates = Ok sel.
Proof.
  unfold subdivide.
  destruct (validate_candidates_ok ans main_branch candidates
              {| best_haplo := main_branch; best_n_snps := 0; best_evidence := [];
                 ancestor_conflicts := [] |}) as [sel ->].
  cbn [mbind outcome_bind]. destruct (_ && _); [apply fewest_conflicts_ok|eauto].
Qed.

End classify_no_raise.

(** C4: [classify_sample] never raises. For every classifier state, every
    sample name and every genotype map it returns a result record for that
    sample, which is either the Unknown result (confidence 0, a note, no
    diagnostics) or a classified result (a float confidence, an empty note,
    a diagnostics dictionary). *)
Theorem classify_sample_never_raises (clf : YHapLZ.classifier) (sample : string)
    (sample_geno : gmap Z YHapLZ.genotype) :
  exists r,
    YHapLZ.classify_sample clf sample sample_geno = Ok r
    /\ YHapLZ.r_sample r = sample
    /\ ((YHapLZ.r_main_branch r = "Unknown" /\ YHapLZ.r_haplogroup r = "Unknown"
         /\ YHapLZ.r_confidence r = YHapLZ.PyInt 0 /\ YHapLZ.r_note r <> ""
         /\ YHapLZ.r_diagnostics r = None)
        \/ (exists confidence diagnostics,
               YHapLZ.r_confidence r = YHapLZ.PyFloat confidence
               /\ YHapLZ.r_note r = ""
               /\ YHapLZ.r_diagnostics r = Some diagnostics)).
Proof.
  assert (forall het_count note, note <> "" ->
            let r := YHapLZ._make_result sample "Unknown" "Unknown" 0 (YHapLZ.PyInt 0)
                                         het_count [] note None in
            exists r', Ok r = Ok r' /\ YHapLZ.r_sample r' = sample
              /\ ((YHapLZ.r_main_branch r' = "Unknown" /\ YHapLZ.r_haplogroup r' = "Unknown"
                   /\ YHapLZ.r_confidence r' = YHapLZ.PyInt 0 /\ YHapLZ.r_note r' <> ""
                   /\ YHapLZ.r_diagnostics r' = None)
                  \/ (exists confidence diagnostics,
                         YHapLZ.r_confidence r' = YHapLZ.PyFloat confidence
                         /\ YHapLZ.r_note r' = ""
                         /\ YHapLZ.r_diagnostics r' = Some diagnostics))) as Hunknown.
  { intros het_count note Hnote r. exists r. split; [done|]. split; [done|].
    left. by repeat split. }
  unfold YHapLZ.classify_sample.
  destruct (collect_evidence_ok clf sample_geno) as [ev ->]. cbn [mbind outcome_bind].
  case_bool_decide; [by apply Hunknown|].
  destruct (group_by_branch_ok clf (YHapLZ.e_derived_haplos ev)) as [bc ->].
  cbn [mbind outcome_bind].
  case_bool_decide; [by apply Hunknown|].
  destruct (branch_direct_status_ok clf sample_geno) as [bds ->]. cbn [mbind outcome_bind].
  destruct (select_main_branch_ok clf sample_geno bds bc) as [[[mb note] bc'] ->].
  cbn [mbind outcome_bind].
  destruct mb as [main_branch|]; [|by apply Hunknown].
  destruct (truthy main_branch); [|by apply Hunknown].
  destruct (subdivide_ok clf (YHapLZ.e_all_node_status ev) main_branch
              (YHapLZ.sort_candidates (default [] (od_get main_branch bc')))) as [sel ->].
  cbn [mbind outcome_bind]. eexists. split; [reflexivity|]. split; [reflexivity|].
  right. eexists _, _. by repeat split.
Qed.

(* ===================================================================== *)
(** * Confidence *)
(* ===================================================================== *)

Section confidence.
Import YHapLZ.
Variable clf : classifier.
Variable sample_geno : gmap Z genotype.

Lemma direct_status_eq branch :
  direct_status clf sample_geno branch
  = Ok (defining_snp_status clf sample_geno branch).
Proof.
  unfold direct_status, defining_snp_status, dict_mem, dict_item.
  destruct (MAIN_BRANCH_DEFINING_SNPS !! branch) as [snp|]; [|done].
  destruct (truthy snp); [|done]. cbn [andb].
  destruct (snp_to_info clf !! snp) as [[[pos ref] alt]|]; [|done].
  cbn [mbind outcome_bind].
  destruct (sample_geno !! pos) as [[[gt vcf_ref] vcf_alt]|]; done.
Qed.

Lemma od_get_set {V : Type} (k k' : string) (v : V) (d : list (string * V)) :
  od_get k (od_set k' v d) = if decide (k = k') then Some v else od_get k d.
Proof.
  induction d as [|[k0 v0] d IH]; cbn [od_set od_get].
  - destruct (decide (k = k')); done.
  - destruct (decide (k' = k0)) as [->|Hne]; cbn [od_get].
    + destruct (decide (k = k0)); done.
    + rewrite IH. destruct (decide (k = k0)) as [->|]; [|done].
      by rewrite decide_False.
Qed.

Lemma branch_status_loop branches bds0 bds k :
  for_each (fun bds branch =>
              status ← direct_status clf sample_geno branch;
              Ok (od_set branch status bds)) branches bds0 = Ok bds ->
  od_get k bds = if bool_decide (k ∈ branches)
                 then Some (defining_snp_status clf sample_geno k)
                 else od_get k bds0.
Proof.
  revert bds0. induction branches as [|branch rest IH]; intros bds0; cbn [for_each].
  - intros [= <-]. done.
  - rewrite direct_status_eq. cbn [mbind outcome_bind]. intros Hrest.
    rewrite (IH _ Hrest). rewrite od_get_set.
    destruct (decide (k ∈ rest)) as [Hin|Hin].
    + rewrite (bool_decide_eq_true_2 _ Hin).
      rewrite bool_decide_eq_true_2; [done|by right].
    + rewrite (bool_decide_eq_false_2 _ Hin).
      destruct (decide (k = branch)) as [->|Hne].
      * rewrite bool_decide_eq_true_2; [done|by left].
      * rewrite bool_decide_eq_false_2; [done|].
        by intros [?|?]%elem_of_cons.
Qed.

Lemma defining_snp_status_other branch :
  branch ∉ MAIN_BRANCHES -> defining_snp_status clf sample_geno branch = MISSING.
Proof.
  intros Hout. unfold defining_snp_status.
  replace (MAIN_BRANCH_DEFINING_SNPS !! branch) with (@None string); [done|].
  symmetry. apply not_elem_of_list_to_map_1. exact Hout.
Qed.

Lemma branch_direct_status_get bds branch :
  branch_direct_status clf sample_geno = Ok bds ->
  default MISSING (od_get branch bds) = defining_snp_status clf sample_geno branch.
Proof.
  intros Hbds. rewrite (branch_status_loop _ _ _ branch Hbds).
  case_bool_decide as Hin; [done|]. by rewrite defining_snp_status_other.
Qed.

Lemma score_is_step_d direct_status best_n_snps conflicts het_count :
  score_confidence clf direct_status best_n_snps conflicts het_count
  = step_d_confidence (is_true_opt (is_derived clf direct_status)) best_n_snps
                      (negb (bool_decide (conflicts = []))) het_count.
Proof.
  unfold score_confidence, step_d_confidence, base_confidence.
  destruct (is_true_opt _), (negb _), (10 <? het_count);
    repeat match goal with |- context [?a <=? ?b] => destruct (a <=? b) end;
    vm_compute; reflexivity.
Qed.

Lemma take_nil_iff {A : Type} (l : list A) : take 3 l = [] <-> l = [].
Proof. destruct l; simpl; split; congruence. Qed.

End confidence.

(** C6: the confidence of a classified sample is the Step D formula: the
    base is read off the first table when the defining marker of the
    selected main branch resolved as derived under the heterozygous policy
    and off the second table otherwise, at the number of supporting SNPs;
    0.15 is subtracted when an ancestor conflict was recorded and 0.05 when
    the heterozygous-call count exceeds 10; the result is clamped to
    [0, 1]. The defining marker of a main branch is the one
    [MAIN_BRANCH_DEFINING_SNPS] lists for it; the basal-F branch has none
    there, so its status is [MISSING] and the second table applies. *)
Theorem confidence_is_step_d (clf : YHapLZ.classifier) (sample : string)
    (sample_geno : gmap Z YHapLZ.genotype) (r : YHapLZ.result)
    (d : YHapLZ.diagnostics_dict) :
  YHapLZ.classify_sample clf sample sample_geno = Ok r ->
  YHapLZ.r_diagnostics r = Some d ->
  YHapLZ.r_confidence r
  = YHapLZ.PyFloat
      (step_d_confidence
         (YHapLZ.is_true_opt
            (YHapLZ.is_derived clf
               (defining_snp_status clf sample_geno (YHapLZ.r_main_branch r))))
         (YHapLZ.r_n_snps r)
         (negb (bool_decide (YHapLZ.d_ancestor_conflicts d = [])))
         (YHapLZ.r_het_count r)).
Proof.
  unfold YHapLZ.classify_sample.
  destruct (YHapLZ.collect_evidence clf sample_geno) as [ev|]; [|done].
  cbn [mbind outcome_bind].
  case_bool_decide; [by intros [= <-]|].
  destruct (YHapLZ.group_by_branch clf _) as [bc|]; [|done]. cbn [mbind outcome_bind].
  case_bool_decide; [by intros [= <-]|].
  destruct (YHapLZ.branch_direct_status clf sample_geno) as [bds|] eqn:Hbds; [|done].
  cbn [mbind outcome_bind].
  destruct (YHapLZ.select_main_branch clf sample_geno bds bc) as [[[mb note] bc']|]; [|done].
  cbn [mbind outcome_bind].
  destruct mb as [main_branch|]; [|by intros [= <-]].
  destruct (truthy main_branch); [|by intros [= <-]].
  destruct (YHapLZ.subdivide clf _ main_branch _) as [sel|]; [|done].
  cbn [mbind outcome_bind]. intros [= <-]. cbn. intros [= <-]. cbn.
  rewrite score_is_step_d, (branch_direct_status_get clf sample_geno bds main_branch Hbds).
  do 3 f_equal. apply bool_decide_ext. symmetry. apply take_nil_iff.
Qed.

Lemma confidence_is_step_d_witness :
  exists r d,
    YHapLZ.classify_sample kr_classifier "HG002" kr_sample_clean = Ok r
    /\ YHapLZ.r_diagnostics r = Some d
    /\ YHapLZ.r_confidence r
       = YHapLZ.PyFloat (step_d_confidence true 1 false 0).
Proof.
  pose proof (confidence_is_step_d kr_classifier "HG002" kr_sample_clean) as Hthm.
  eexists _, _. split; [vm_compute; reflexivity|]. split; [reflexivity|].
  etrans; [eapply Hthm; [vm_compute; reflexivity|reflexivity]|].
  vm_compute. reflexivity.
Defined.

(** The formula never leaves [0, 1]. *)
Lemma step_d_confidence_in_range root_marker_derived markers contradiction het_calls :
  PrimFloat.leb 0.0 (step_d_confidence root_marker_derived markers contradiction het_calls)
  = true
  /\ PrimFloat.leb (step_d_confidence root_marker_derived markers contradiction het_calls) 1.0
     = true.
Proof.
  unfold step_d_confidence, base_confidence.
  destruct root_marker_derived, contradiction, (10 <? het_calls);
    repeat match goal with |- context [?a <=? ?b] => destruct (a <=? b) end;
    split; vm_compute; reflexivity.
Qed.

(** The basal-F rule: F is selected from its own marker, with one
    supporting SNP and the base 0.50 of the second table. *)
Example basal_f_takes_inferred_table :
  exists r,
    YHapLZ.classify_sample bf_classifier "HG004" bf_sample = Ok r
    /\ YHapLZ.r_main_branch r = "F" /\ YHapLZ.r_haplogroup r = "F"
    /\ YHapLZ.r_n_snps r = 1
    /\ YHapLZ.r_confidence r = YHapLZ.PyFloat 0.5.
Proof.
  eexists. split; [vm_compute; reflexivity|]. by repeat split.
Qed.

(* ===================================================================== *)
(** * Deepest-node selection *)
(* ===================================================================== *)

Section candidate_order.
Import YHapLZ.

Lemma key_lt_spec a b :
  key_lt a b = true <->
  c_depth a < c_depth b \/ (c_depth a = c_depth b /\ c_n_snps a < c_n_snps b).
Proof.
  unfold key_lt. rewrite orb_true_iff, andb_true_iff, !Nat.ltb_lt, Nat.eqb_eq. done.
Qed.

Lemma key_lt_same_key a b : key_lt a b = true -> sort_key a <> sort_key b.
Proof. intros [?|[? ?]]%key_lt_spec [= ? ?]; lia. Qed.

#[local] Instance key_ge_trans : Transitive key_ge.
Proof.
  intros a b c Hab Hbc. unfold key_ge in *.
  apply not_true_iff_false. apply not_true_iff_false in Hab, Hbc.
  rewrite key_lt_spec in *. lia.
Qed.

Lemma insert_candidate_perm x l : insert_candidate x l ≡ₚ x :: l.
Proof.
  induction l as [|y l IH]; cbn [insert_candidate]; [done|].
  destruct (key_lt x y); [|done]. rewrite IH. apply Permutation_swap.
Qed.

(** The model of [list.sort]: a permutation, descending in the key, that
    keeps candidates of equal key in their original order. *)
Lemma sort_candidates_perm l : sort_candidates l ≡ₚ l.
Proof.
  induction l as [|x l IH]; [done|].
  cbn [sort_candidates foldr]. rewrite insert_candidate_perm. by constructor.
Qed.

Lemma insert_candidate_sorted x l :
  StronglySorted key_ge l -> StronglySorted key_ge (insert_candidate x l).
Proof.
  induction 1 as [|y l Hsorted IH Hy]; cbn [insert_candidate].
  - repeat constructor.
  - destruct (key_lt x y) eqn:Hxy.
    + constructor; [exact IH|].
      rewrite insert_candidate_perm. constructor; [|exact Hy].
      unfold key_ge. apply not_true_iff_false. intros Hyx.
      rewrite key_lt_spec in *. lia.
    + constructor; [by constructor|]. constructor; [exact Hxy|].
      eapply Forall_impl; [exact Hy|]. intros z Hz. by transitivity y.
Qed.

Lemma sort_candidates_sorted l : StronglySorted key_ge (sort_candidates l).
Proof.
  induction l as [|x l IH]; [constructor|].
  cbn [sort_candidates foldr]. by apply insert_candidate_sorted.
Qed.

Lemma insert_candidate_filter k x l :
  List.filter (fun c => bool_decide (sort_key c = k)) (insert_candidate x l)
  = List.filter (fun c => bool_decide (sort_key c = k)) (x :: l).
Proof.
  induction l as [|y l IH]; cbn [insert_candidate]; [done|].
  destruct (key_lt x y) eqn:Hxy; [|done].
  apply key_lt_same_key in Hxy.
  cbn [List.filter] in *. rewrite IH.
  repeat case_bool_decide; congruence.
Qed.

Lemma sort_candidates_stable k l :
  List.filter (fun c => bool_decide (sort_key c = k)) (sort_candidates l)
  = List.filter (fun c => bool_decide (sort_key c = k)) l.
Proof.
  induction l as [|x l IH]; [done|].
  cbn [sort_candidates foldr]. rewrite insert_candidate_filter.
  cbn [List.filter]. fold (sort_candidates l). by rewrite IH.
Qed.

End candidate_order.

Section validation.
Import YHapLZ.
Variable clf : classifier.
Variable all_node_status : gmap string node_status.
Variable main_branch : string.

(** The validation loop stops at the first candidate whose checked chain is
    valid and records the conflicts of the candidates before it. *)
Lemma validate_candidates_first_valid rejected cand rest sel conflicts :
  Forall (fun c => exists cs, chain_verdict clf all_node_status main_branch c = Ok (false, cs))
         rejected ->
  chain_verdict clf all_node_status main_branch cand = Ok (true, conflicts) ->
  exists recorded,
    validate_candidates clf all_node_status main_branch (rejected ++ cand :: rest) sel
    = Ok {| best_haplo := c_haplo cand; best_n_snps := c_n_snps cand;
            best_evidence := take 5 (c_snps cand);
            ancestor_conflicts := ancestor_conflicts sel ++ recorded |}.
Proof.
  intros Hrejected Hcand. revert sel.
  induction Hrejected as [|c rejected [cs Hc] _ IH]; intros sel;
    cbn [app validate_candidates].
  - unfold chain_verdict in Hcand.
    destruct (relevant_ancestors main_branch _) as [relevant|]; [|done].
    cbn [mbind outcome_bind] in *. rewrite Hcand. cbn [mbind outcome_bind].
    exists []. by rewrite app_nil_r.
  - unfold chain_verdict in Hc.
    destruct (relevant_ancestors main_branch _) as [relevant|]; [|done].
    cbn [mbind outcome_bind] in *. rewrite Hc. cbn [mbind outcome_bind].
    destruct (IH {| best_haplo := best_haplo sel; best_n_snps := best_n_snps sel;
                    best_evidence := best_evidence sel;
                    ancestor_conflicts := ancestor_conflicts sel ++ cs |})
      as [recorded ->].
    exists (cs ++ recorded). cbn. by rewrite app_assoc.
Qed.


End validation.

(** The example classifier is what [__init__] builds from the example tree
    text and table. *)
Lemma kr_classifier_built :
  YHapLZ.__init__ kr_tree_text isogg_header kr_lines "moderate" = Ok kr_classifier.
Proof. vm_compute. reflexivity. Qed.

(** C2, the code at the failing input: the candidates of main branch R in
    sort order are R and R3; the chain checked for R, the first of them, has
    no contradiction, and the validation loop selects R; the re-evaluation
    loop then runs all the same, because the selected node is the main
    branch itself, and the result is R3. *)
Theorem validated_main_branch_node_is_replaced :
  exists ev bc,
    YHapLZ.collect_evidence kr_classifier kr_sample = Ok ev
    /\ YHapLZ.group_by_branch kr_classifier (YHapLZ.e_derived_haplos ev) = Ok bc
    /\ let candidates := YHapLZ.sort_candidates (default [] (od_get "R" bc)) in
       YHapLZ.c_haplo <$> candidates = ["R"; "R3"]
       /\ (exists relevant,
              YHapLZ.relevant_ancestors "R"
                (YHapLZ.get_ancestors (YHapLZ.phylo_tree kr_classifier) "R") = Ok relevant
              /\ YHapLZ.check_chain kr_classifier (YHapLZ.e_all_node_status ev) relevant
                 = Ok (true, []))
       /\ (exists sel,
              YHapLZ.validate_candidates kr_classifier (YHapLZ.e_all_node_status ev) "R"
                candidates
                {| YHapLZ.best_haplo := "R"; YHapLZ.best_n_snps := 0;
                   YHapLZ.best_evidence := []; YHapLZ.ancestor_conflicts := [] |} = Ok sel
              /\ YHapLZ.best_haplo sel = "R" /\ YHapLZ.ancestor_conflicts sel = [])
       /\ (exists r,
              YHapLZ.classify_sample kr_classifier "HG003" kr_sample = Ok r
              /\ YHapLZ.r_main_branch r = "R"
              /\ YHapLZ.r_haplogroup r = "R3").
Proof.
  eexists _, _. split; [vm_compute; reflexivity|]. split; [vm_compute; reflexivity|].
  cbv zeta. split; [vm_compute; reflexivity|]. split; [|split].
  - eexists. split; vm_compute; reflexivity.
  - eexists. split; [vm_compute; reflexivity|]. split; reflexivity.
  - eexists. split; [vm_compute; reflexivity|]. split; reflexivity.
Qed.

(* ===================================================================== *)
(** * Further properties of the code *)
(* ===================================================================== *)

Import YHapLZ Spec Examples.

(** ** Genotype calls *)

Lemma in_two_lists (gt : string) (l1 l2 : list string) :
  gt ∈ l1 -> gt ∈ l2 -> Forall (fun x => x ∉ l2) l1 -> False.
Proof. intros H1 H2 Hall. rewrite Forall_forall in Hall. by apply (Hall gt H1). Qed.

Ltac calls_disjoint :=
  match goal with
  | H1 : ?gt ∈ ?l1, H2 : ?gt ∈ ?l2 |- _ =>
      exfalso; apply (in_two_lists gt l1 l2 H1 H2); repeat constructor;
      compute_done
  end.

(** X1: [check_genotype] reads the status off the genotype call alone,
    except in one case: when both expected alleles are given and the VCF
    alleles are the expected ones in reversed and not in forward
    orientation, a homozygous call is flipped (derived to ancestral and
    back). Alleles that match in neither orientation change nothing; they
    are never reported as a mismatch. *)
Theorem check_genotype_reads_alleles_only_when_reversed
    (gt vcf_ref vcf_alt exp_ref exp_alt : string) :
  check_genotype gt vcf_ref vcf_alt exp_ref exp_alt
  = if reversed_orientation vcf_ref vcf_alt exp_ref exp_alt
    then flip_status (zygosity_status gt)
    else zygosity_status gt.
Proof.
  unfold check_genotype, reversed_orientation, zygosity_status, in_list,
    no_call_encodings, het_call_encodings, hom_alt_calls, hom_ref_calls.
  destruct (String.eqb vcf_alt "."); cbn [negb];
  repeat case_bool_decide; try calls_disjoint;
    destruct (truthy exp_ref), (truthy exp_alt); cbn [andb negb];
    repeat match goal with |- context [String.eqb ?a ?b] => destruct (String.eqb a b) end;
    reflexivity.
Qed.

(** X2: the kind of status [check_genotype] returns is fixed by the
    encoding of the call, whatever the alleles are: MISSING exactly for the
    three no-call encodings, HETEROZYGOUS exactly for the four 0/1
    encodings, DERIVED or ANCESTRAL exactly for the six homozygous
    encodings, and MISMATCH exactly for a call that is none of these. *)
Theorem check_genotype_status_by_call (gt vcf_ref vcf_alt exp_ref exp_alt : string) :
  let status := check_genotype gt vcf_ref vcf_alt exp_ref exp_alt in
  (status = MISSING <-> gt ∈ no_call_encodings)
  /\ (status = HETEROZYGOUS <-> gt ∈ het_call_encodings)
  /\ (status = DERIVED \/ status = ANCESTRAL <-> gt ∈ hom_alt_calls ++ hom_ref_calls)
  /\ (status = MISMATCH <->
      gt ∉ no_call_encodings ++ het_call_encodings ++ hom_alt_calls ++ hom_ref_calls).
Proof.
  cbv zeta.
  unfold check_genotype, in_list,
    no_call_encodings, het_call_encodings, hom_alt_calls, hom_ref_calls.
  repeat case_bool_decide; try calls_disjoint;
    repeat match goal with |- context [if ?b then _ else _] => destruct b end;
    rewrite ?elem_of_app; intuition (try discriminate; try calls_disjoint; auto).
Qed.

Lemma upper_char_dot c : Ascii.eqb (upper_char c) "."%char = Ascii.eqb c "."%char.
Proof. destruct c as [[] [] [] [] [] [] [] []]; reflexivity. Qed.

Lemma upper_truthy s : truthy (upper s) = truthy s.
Proof. by destruct s. Qed.

Lemma upper_is_dot s : String.eqb (upper s) "." = String.eqb s ".".
Proof.
  destruct s as [|c [|d s]]; try reflexivity.
  - cbn. rewrite upper_char_dot. reflexivity.
  - cbn. rewrite upper_char_dot. by destruct (Ascii.eqb c ".").
Qed.

(** X3: [check_genotype] compares alleles without regard to case: inputs
    whose four allele strings agree after upper-casing get the same
    status. *)
Theorem check_genotype_ignores_case (gt r a e1 e2 r' a' e1' e2' : string) :
  upper r = upper r' -> upper a = upper a' ->
  upper e1 = upper e1' -> upper e2 = upper e2' ->
  check_genotype gt r a e1 e2 = check_genotype gt r' a' e1' e2'.
Proof.
  intros Hr Ha H1 H2. unfold check_genotype.
  rewrite <- (upper_truthy e1), <- (upper_truthy e2), <- (upper_is_dot a).
  rewrite <- (upper_truthy e1'), <- (upper_truthy e2'), <- (upper_is_dot a').
  by rewrite Hr, Ha, H1, H2.
Qed.

Lemma check_genotype_ignores_case_witness :
  check_genotype "0/0" "g" "a" "A" "G" = check_genotype "0/0" "G" "A" "a" "g".
Proof. apply check_genotype_ignores_case; reflexivity. Defined.

(** ** Ancestor lists *)

Section ancestor_chain.
Variable phylo_tree : gmap string string.
Local Abbreviation parent := (parent_of phylo_tree).

Lemma parent_chain_lookup start l i x y :
  parent_chain phylo_tree start l ->
  l !! i = Some x -> l !! S i = Some y -> phylo_tree !! x = Some y.
Proof.
  revert start i. induction l as [|z l IH]; intros start i; [done|].
  intros [Hz Hl] Hx Hy. destruct i as [|i].
  - injection Hx as ->. destruct l as [|w l]; [done|].
    injection Hy as ->. by destruct Hl.
  - eapply IH; [exact Hl|exact Hx|exact Hy].
Qed.

(** What the loop appends is a chain of parents from [current]. *)
Lemma ancestors_loop_chain fuel current seen ancestors res :
  ancestors_loop fuel phylo_tree current seen ancestors = Some res ->
  exists l, res = ancestors ++ l /\ parent_chain phylo_tree current l.
Proof.
  revert current seen ancestors.
  induction fuel as [|fuel IH]; intros current seen ancestors;
    rewrite ancestors_loop_unfold;
    destruct (phylo_tree !! current) as [p|] eqn:Hp;
    try (intros [= <-]; exists []; by rewrite app_nil_r);
    case_bool_decide;
    try (intros [= <-]; exists []; by rewrite app_nil_r); try done.
  intros (l & -> & Hl)%IH. exists (p :: l). split; [by rewrite <- app_assoc|done].
Qed.

(** A prefix of the accumulator is carried through. *)
Lemma ancestors_loop_prefix fuel current seen pre ancestors :
  ancestors_loop fuel phylo_tree current seen (pre ++ ancestors)
  = (pre ++.) <$> ancestors_loop fuel phylo_tree current seen ancestors.
Proof.
  revert current seen ancestors.
  induction fuel as [|fuel IH]; intros current seen ancestors;
    rewrite !ancestors_loop_unfold;
    destruct (phylo_tree !! current) as [p|]; try done;
    case_bool_decide; try done.
  rewrite <- app_assoc. apply IH.
Qed.

(** Nodes the walk cannot reach make no difference in [seen]. *)
Lemma ancestors_loop_unreachable_seen fuel current seen (extra : gset string) ancestors :
  (forall y, rtc parent current y -> y ∉ extra) ->
  ancestors_loop fuel phylo_tree current (extra ∪ seen) ancestors
  = ancestors_loop fuel phylo_tree current seen ancestors.
Proof.
  revert current seen ancestors.
  induction fuel as [|fuel IH]; intros current seen ancestors Hfar;
    rewrite !ancestors_loop_unfold;
    destruct (phylo_tree !! current) as [p|] eqn:Hp; try done.
  - assert (current ∉ extra) as Hcur by (apply Hfar; constructor).
    repeat case_bool_decide; try done; set_solver.
  - assert (current ∉ extra) as Hcur by (apply Hfar; constructor).
    repeat case_bool_decide; try done; try set_solver.
    replace ({[current]} ∪ (extra ∪ seen)) with (extra ∪ ({[current]} ∪ seen))
      by set_solver.
    apply IH. intros y Hy. apply Hfar. by eapply rtc_l.
Qed.

End ancestor_chain.

(** X4: the list [get_ancestors] returns is a chain in the parent map: it
    is empty exactly when the node has no parent, it starts with the parent
    of the node, and each element is followed by its own parent. *)
Theorem ancestors_are_a_parent_chain (phylo_tree : gmap string string) (node : string) :
  let ancestors := get_ancestors phylo_tree node in
  (phylo_tree !! node = None <-> ancestors = [])
  /\ head ancestors = phylo_tree !! node
  /\ forall i x y, ancestors !! i = Some x -> ancestors !! S i = Some y ->
                   phylo_tree !! x = Some y.
Proof.
  cbv zeta. pose proof (get_ancestors_fuel_enough phylo_tree node) as Hrun.
  unfold get_ancestors_fuel in Hrun.
  destruct (ancestors_loop_chain _ _ _ _ _ _ Hrun) as (l & Hl & Hchain).
  simpl in Hl. subst l.
  assert (head (get_ancestors phylo_tree node) = phylo_tree !! node) as Hhead.
  { rewrite ancestors_loop_unfold in Hrun.
    destruct (phylo_tree !! node) as [p|] eqn:Hp.
    - destruct (get_ancestors phylo_tree node) as [|x l];
        [|destruct Hchain as [Hx _]; simpl; congruence].
      exfalso. rewrite bool_decide_eq_false_2 in Hrun by set_solver.
      destruct (size phylo_tree); [done|].
      apply ancestors_loop_chain in Hrun as (l' & Hl' & _). done.
    - by injection Hrun as <-. }
  split; [|split; [exact Hhead|]].
  - rewrite <- Hhead. by destruct (get_ancestors phylo_tree node).
  - intros i x y. by apply parent_chain_lookup with node.
Qed.

Lemma not_on_cycle_by_walk (phylo_tree : gmap string string) (node : string) :
  node ∉ get_ancestors phylo_tree node -> ¬ on_cycle phylo_tree node.
Proof.
  intros Hout Hcycle. apply Hout.
  pose proof (get_ancestors_fuel_enough phylo_tree node) as Hrun.
  eapply ancestors_loop_cycle; [exact Hrun| | |exact Hcycle].
  - intros z p Hz. by apply elem_of_empty in Hz.
  - intros y Hy. by right.
Qed.

(** X5: for a child that is not on a cycle, the ancestors are its parent
    followed by the ancestors of the parent, and its depth is one more than
    the depth of the parent. *)
Theorem ancestors_of_child (phylo_tree : gmap string string) (child p : string) :
  phylo_tree !! child = Some p ->
  ¬ on_cycle phylo_tree child ->
  get_ancestors phylo_tree child = p :: get_ancestors phylo_tree p
  /\ get_depth phylo_tree child = S (get_depth phylo_tree p).
Proof.
  intros Hp Hcycle.
  assert (get_ancestors phylo_tree child = p :: get_ancestors phylo_tree p) as Heq;
    [|split; [exact Heq|unfold get_depth; by rewrite Heq]].
  pose proof (get_ancestors_fuel_enough phylo_tree child) as Hchild.
  pose proof (get_ancestors_fuel_enough phylo_tree p) as Hparent.
  unfold get_ancestors_fuel in *.
  rewrite ancestors_loop_unfold, Hp in Hchild.
  rewrite bool_decide_eq_false_2 in Hchild by set_solver.
  destruct (size phylo_tree) as [|fuel] eqn:Hsize; [done|].
  replace ({[child]} ∪ ∅ : gset string) with ({[child]} ∪ ∅ ∪ ∅ : gset string) in Hchild
    by set_solver.
  rewrite (ancestors_loop_unreachable_seen phylo_tree fuel p ∅ ({[child]} ∪ ∅)) in Hchild.
  - apply (ancestors_loop_more_fuel _ _ 1) in Hchild.
    replace (fuel + 1) with (S fuel) in Hchild by lia.
    change ([] ++ [p]) with ([p] ++ []) in Hchild.
    rewrite ancestors_loop_prefix, Hparent in Hchild. simpl in Hchild. congruence.
  - intros y Hy [->%elem_of_singleton|[]%elem_of_empty]%elem_of_union.
    apply Hcycle. eapply tc_rtc_r; [apply tc_once; exact Hp|exact Hy].
Qed.

Lemma ancestors_of_child_witness :
  get_ancestors (phylo_tree kr_classifier) "R1"
    = "R" :: get_ancestors (phylo_tree kr_classifier) "R"
  /\ get_depth (phylo_tree kr_classifier) "R1"
     = S (get_depth (phylo_tree kr_classifier) "R").
Proof.
  apply ancestors_of_child; [reflexivity|].
  apply not_on_cycle_by_walk. compute_done.
Defined.

(** ** Tree construction *)

Section odict_facts.
Context {K V : Type} `{EqDecision K}.

Lemma od_set_keys_elem (k k' : K) (v : V) (d : list (K * V)) :
  k ∈ (od_set k' v d).*1 <-> k = k' \/ k ∈ d.*1.
Proof.
  induction d as [|[k0 v0] d IH]; cbn [od_set].
  - rewrite list_fmap_singleton, list_elem_of_singleton. cbn. set_solver.
  - destruct (decide (k' = k0)) as [->|Hne]; cbn [fmap list_fmap fst].
    + set_solver.
    + rewrite !elem_of_cons. fold (fst <$> od_set k' v d). fold (fst <$> d).
      rewrite IH. cbn. tauto.
Qed.

Lemma od_set_keys_fresh (k : K) (v : V) (d : list (K * V)) :
  k ∉ d.*1 -> (od_set k v d).*1 = d.*1 ++ [k].
Proof.
  induction d as [|[k0 v0] d IH]; cbn [od_set]; [done|].
  intros Hout. destruct (decide (k = k0)) as [->|Hne]; [set_solver|].
  cbn. f_equal. apply IH. set_solver.
Qed.

Lemma od_set_keys_nodup (k : K) (v : V) (d : list (K * V)) :
  NoDup d.*1 -> NoDup (od_set k v d).*1.
Proof.
  induction d as [|[k0 v0] d IH]; cbn [od_set].
  - intros _. cbn. apply NoDup_singleton.
  - cbn. intros [Hk0 Hd]%NoDup_cons.
    destruct (decide (k = k0)) as [->|Hne]; cbn.
    + by apply NoDup_cons.
    + apply NoDup_cons. split; [|by apply IH].
      fold (fst <$> od_set k v d). rewrite od_set_keys_elem. intros [->|?]; done.
Qed.

End odict_facts.

Section tree_construction.

Lemma pop_while_sublist indent path_stack entry :
  entry ∈ pop_while indent path_stack -> entry ∈ path_stack.
Proof.
  induction path_stack as [|[top name] below IH]; cbn [pop_while]; [done|].
  destruct (indent <=? top); [|done]. intros Hin. right. by apply IH.
Qed.

(** The loop body, by the name the line defines. *)
Lemma parse_tree_line_cases st line :
  match line_node_name line with
  | None => parse_tree_line st line = Ok st
  | Some node_name =>
      exists snps,
        let path_stack := pop_while (count_indent line) st.2 in
        parse_tree_line st line
        = Ok (match path_stack with
              | (_, parent) :: _ => <[node_name := parent]> st.1.1
              | [] => st.1.1
              end,
              od_set node_name snps st.1.2,
              (count_indent line, node_name) :: path_stack)
  end.
Proof.
  destruct st as [[phylo_tree node_snps] path_stack].
  unfold line_node_name, parse_tree_line.
  destruct (negb (truthy (strip line))); [done|].
  destruct (split_cons TAB (strip line)) as (part0 & parts & ->).
  cbn [length]. change (S (length parts) <? 1) with false. cbv iota.
  change (list_item (part0 :: parts) 0) with (Ok part0). cbn [mbind outcome_bind].
  destruct (_ || _); [done|].
  destruct (extract_snps_ok (part0 :: parts)) as [snps ->]. cbn [mbind outcome_bind].
  exists snps. reflexivity.
Qed.


Lemma parse_tree_line_invariant names st line :
  tree_invariant names st ->
  NoDup (names ++ option_list (line_node_name line)) ->
  exists st', parse_tree_line st line = Ok st'
    /\ tree_invariant (names ++ option_list (line_node_name line)) st'.
Proof.
  intros (Hkeys & Hstack & Htree) Hnodup.
  pose proof (parse_tree_line_cases st line) as Hline.
  destruct (line_node_name line) as [node_name|]; cbn [option_list] in *.
  2:{ exists st. rewrite app_nil_r. done. }
  destruct Hline as [snps Hline]. cbv zeta in Hline. eexists. split; [exact Hline|].
  assert (node_name ∉ names) as Hfresh.
  { apply NoDup_app in Hnodup as (_ & Hdisj & _). intros Hin. apply (Hdisj _ Hin). set_solver. }
  assert (forall entry, entry ∈ pop_while (count_indent line) st.2 -> entry.2 ∈ names) as Hpop.
  { intros entry Hin. apply Hstack. by eapply pop_while_sublist. }
  assert (forall child parent, st.1.1 !! child = Some parent ->
    exists i j, (i < j)%nat /\ (names ++ [node_name]) !! i = Some parent
      /\ (names ++ [node_name]) !! j = Some child) as Hold.
  { intros child parent Hcp. destruct (Htree _ _ Hcp) as (i & j & Hij & Hi & Hj).
    exists i, j. split; [done|]. split; by apply lookup_app_l_Some. }
  split; [|split]; cbn [fst snd].
  - rewrite od_set_keys_fresh by (by rewrite Hkeys). by rewrite Hkeys.
  - intros entry [->|Hin]%elem_of_cons; cbn [snd]; [set_solver|].
    apply elem_of_app. left. by apply Hpop.
  - destruct (pop_while (count_indent line) st.2) as [|[top parent] below] eqn:Epop; [done|].
    intros child p. destruct (decide (child = node_name)) as [->|Hne].
    + rewrite lookup_insert_eq. intros [= <-].
      assert (parent ∈ names) as Hparent by (apply (Hpop (top, parent)); set_solver).
      apply list_elem_of_lookup in Hparent as [i Hi].
      exists i, (length names). split; [by eapply lookup_lt_Some|].
      split; [by apply lookup_app_l_Some|].
      by rewrite lookup_app_r, Nat.sub_diag.
    + rewrite lookup_insert_ne by done. apply Hold.
Qed.

Lemma parse_tree_lines_invariant lines : forall names st,
  tree_invariant names st ->
  NoDup (names ++ omap line_node_name lines) ->
  exists st', for_each parse_tree_line lines st = Ok st'
    /\ tree_invariant (names ++ omap line_node_name lines) st'.
Proof.
  induction lines as [|line lines IH]; intros names st Hinv Hnodup.
  - exists st. cbn. rewrite app_nil_r. done.
  - assert (omap line_node_name (line :: lines)
            = option_list (line_node_name line) ++ omap line_node_name lines) as Hsplit.
    { cbn. by destruct (line_node_name line). }
    rewrite Hsplit, app_assoc in *.
    destruct (parse_tree_line_invariant names st line Hinv) as (st1 & Hstep & Hinv1).
    { by apply NoDup_app in Hnodup as (? & _). }
    destruct (IH _ st1 Hinv1 Hnodup) as (st' & Hrest & Hinv').
    exists st'. split; [|done]. cbn [for_each]. rewrite Hstep. exact Hrest.
Qed.

Lemma defined_before_acyclic (names : list string) (phylo_tree : gmap string string) :
  NoDup names ->
  (forall child parent, phylo_tree !! child = Some parent ->
     exists i j, (i < j)%nat /\ names !! i = Some parent /\ names !! j = Some child) ->
  acyclic phylo_tree.
Proof.
  intros Hnodup Htree.
  assert (forall x y, tc (parent_of phylo_tree) x y ->
    exists i j, (i < j)%nat /\ names !! i = Some y /\ names !! j = Some x) as Hrank.
  { induction 1 as [x y Hxy|x y z Hxy _ (i & j & Hij & Hi & Hj)].
    - by apply Htree.
    - destruct (Htree _ _ Hxy) as (i' & j' & Hij' & Hi' & Hj').
      pose proof (NoDup_lookup _ _ _ _ Hnodup Hj Hi') as ->.
      exists i, j'. split; [lia|done]. }
  intros x Hcycle. destruct (Hrank _ _ Hcycle) as (i & j & Hij & Hi & Hj).
  pose proof (NoDup_lookup _ _ _ _ Hnodup Hi Hj). lia.
Qed.

End tree_construction.

(** X6: when no node name occurs twice in the tree text, [_parse_tree]
    returns a parent map without cycles: the keys of [node_snps] are the
    node names in line order, and every parent was defined on an earlier
    line than its child. *)
Theorem parse_tree_distinct_names_acyclic (tree_text : string) :
  NoDup (tree_node_names tree_text) ->
  exists phylo_tree node_snps,
    _parse_tree tree_text = Ok (phylo_tree, node_snps)
    /\ node_snps.*1 = tree_node_names tree_text
    /\ acyclic phylo_tree
    /\ forall child parent, phylo_tree !! child = Some parent ->
         exists i j, (i < j)%nat /\ node_snps.*1 !! i = Some parent
                     /\ node_snps.*1 !! j = Some child.
Proof.
  intros Hnodup. unfold _parse_tree, tree_node_names in *.
  destruct (parse_tree_lines_invariant (split NL (strip tree_text)) [] (∅, [], []))
    as ([[phylo_tree node_snps] path_stack] & -> & Hkeys & _ & Htree).
  - split; [done|]. split; [intros ? Hin; by apply elem_of_nil in Hin|].
    intros ? ?. cbn. by rewrite lookup_empty.
  - exact Hnodup.
  - cbn [app fst snd] in *. exists phylo_tree, node_snps.
    split; [done|]. split; [done|]. rewrite Hkeys. split; [|done].
    by eapply defined_before_acyclic.
Qed.

Lemma parse_tree_distinct_names_acyclic_witness :
  exists phylo_tree node_snps,
    _parse_tree kr_tree_text = Ok (phylo_tree, node_snps)
    /\ node_snps.*1 = tree_node_names kr_tree_text
    /\ acyclic phylo_tree
    /\ forall child parent, phylo_tree !! child = Some parent ->
         exists i j, (i < j)%nat /\ node_snps.*1 !! i = Some parent
                     /\ node_snps.*1 !! j = Some child.
Proof. apply parse_tree_distinct_names_acyclic. vm_compute. repeat constructor; compute_done. Defined.

Section tree_nodes.

Lemma parse_tree_line_nodes names st line :
  tree_nodes_invariant names st ->
  exists st', parse_tree_line st line = Ok st'
    /\ tree_nodes_invariant (names ++ option_list (line_node_name line)) st'.
Proof.
  intros (Hnodup & Hkeys & Hstack & Htree).
  pose proof (parse_tree_line_cases st line) as Hline.
  destruct (line_node_name line) as [node_name|]; cbn [option_list] in *.
  2:{ exists st. rewrite app_nil_r. done. }
  destruct Hline as [snps Hline]. cbv zeta in Hline. eexists. split; [exact Hline|].
  assert (forall entry, entry ∈ pop_while (count_indent line) st.2 -> entry.2 ∈ st.1.2.*1) as Hpop.
  { intros entry Hin. apply Hstack. by eapply pop_while_sublist. }
  split; [|split; [|split]]; cbn [fst snd].
  - by apply od_set_keys_nodup.
  - intros name. rewrite od_set_keys_elem, elem_of_app, Hkeys. set_solver.
  - intros entry [->|Hin]%elem_of_cons; cbn [snd]; rewrite od_set_keys_elem; [by left|].
    right. by apply Hpop.
  - intros child p Hcp. rewrite !od_set_keys_elem.
    destruct (pop_while (count_indent line) st.2) as [|[top parent] below] eqn:Epop.
    { destruct (Htree _ _ Hcp). tauto. }
    destruct (decide (child = node_name)) as [->|Hne].
    + rewrite lookup_insert_eq in Hcp. injection Hcp as <-.
      split; [by left|]. right. apply (Hpop (top, parent)). set_solver.
    + rewrite lookup_insert_ne in Hcp by done. destruct (Htree _ _ Hcp). tauto.
Qed.

Lemma parse_tree_lines_nodes lines : forall names st,
  tree_nodes_invariant names st ->
  exists st', for_each parse_tree_line lines st = Ok st'
    /\ tree_nodes_invariant (names ++ omap line_node_name lines) st'.
Proof.
  induction lines as [|line lines IH]; intros names st Hinv.
  - exists st. cbn. rewrite app_nil_r. done.
  - assert (omap line_node_name (line :: lines)
            = option_list (line_node_name line) ++ omap line_node_name lines) as Hsplit.
    { cbn. by destruct (line_node_name line). }
    rewrite Hsplit, app_assoc.
    destruct (parse_tree_line_nodes names st line Hinv) as (st1 & Hstep & Hinv1).
    destruct (IH _ st1 Hinv1) as (st' & Hrest & Hinv').
    exists st'. split; [|done]. cbn [for_each]. rewrite Hstep. exact Hrest.
Qed.

Lemma line_node_name_not_skipped line name :
  line_node_name line = Some name ->
  (name ∉ ["Y"; "Root"; ""]) /\ contains "see " (lower name) = false.
Proof.
  unfold line_node_name. destruct (negb _); [done|].
  destruct (split TAB (strip line)) as [|part0 parts]; [done|].
  destruct (in_list _ _) eqn:Ein; [done|].
  destruct (contains _ _) eqn:Esee; [done|]. cbn [orb]. intros [= <-].
  split; [|done]. unfold in_list in Ein. by apply bool_decide_eq_false_1 in Ein.
Qed.

End tree_nodes.

(** X7: for every tree text, [_parse_tree] returns; the keys of
    [node_snps] are distinct and are exactly the node names of the text;
    none of them is [Y], [Root], empty or a cross-reference ("see ...");
    and every child and every parent of [phylo_tree] is such a key. *)
Theorem parse_tree_nodes_are_keys (tree_text : string) :
  exists phylo_tree node_snps,
    _parse_tree tree_text = Ok (phylo_tree, node_snps)
    /\ NoDup node_snps.*1
    /\ (forall name, name ∈ node_snps.*1 <-> name ∈ tree_node_names tree_text)
    /\ (forall name, name ∈ node_snps.*1 ->
          (name ∉ ["Y"; "Root"; ""]) /\ contains "see " (lower name) = false)
    /\ (forall child parent, phylo_tree !! child = Some parent ->
          child ∈ node_snps.*1 /\ parent ∈ node_snps.*1).
Proof.
  unfold _parse_tree, tree_node_names.
  destruct (parse_tree_lines_nodes (split NL (strip tree_text)) [] (∅, [], []))
    as ([[phylo_tree node_snps] path_stack] & -> & Hnodup & Hkeys & _ & Htree).
  - split; [apply NoDup_nil_2|]. split; [done|].
    split; [intros ? Hin; by apply elem_of_nil in Hin|].
    intros ? ?. cbn. by rewrite lookup_empty.
  - cbn [app fst snd] in *. exists phylo_tree, node_snps.
    split; [done|]. split; [done|]. split; [done|]. split; [|done].
    intros name [line [_ Hline]]%Hkeys%list_elem_of_omap.
    by eapply line_node_name_not_skipped.
Qed.

(** ** The position index *)

Section position_index.

Lemma od_get_od_set {K V : Type} `{EqDecision K} (k k' : K) (v : V) (d : list (K * V)) :
  od_get k (od_set k' v d) = if decide (k = k') then Some v else od_get k d.
Proof.
  induction d as [|[k0 v0] d IH]; cbn [od_set od_get].
  - destruct (decide (k = k')); done.
  - destruct (decide (k' = k0)) as [->|Hne]; cbn [od_get].
    + destruct (decide (k = k0)); done.
    + rewrite IH. destruct (decide (k = k0)) as [->|]; [|done].
      by rewrite decide_False.
Qed.

Lemma entries_at_snoc pos rows r :
  entries_at pos (rows ++ [r])
  = entries_at pos rows ++ (if decide (row_pos r = pos) then [row_entry r] else []).
Proof.
  unfold entries_at. rewrite filter_app, fmap_app. f_equal.
  rewrite filter_cons, filter_nil. by destruct (decide (row_pos r = pos)).
Qed.

Lemma add_isogg_row_index st r :
  (add_isogg_row st r).1.2 = dd_append (row_pos r) (row_entry r) st.1.2
  /\ (add_isogg_row st r).2 = S st.2.
Proof. by destruct st as [[snp_to_info pos_to_haplo] count]. Qed.

Lemma load_rows_position_index rows :
  let st := foldl add_isogg_row (∅, [], 0%nat) rows in
  st.2 = length rows
  /\ NoDup st.1.2.*1
  /\ forall pos, od_get pos st.1.2
                 = match entries_at pos rows with [] => None | l => Some l end.
Proof.
  cbv zeta. induction rows as [|r rows (Hcount & Hnodup & Hget)] using rev_ind.
  - cbn. split; [done|]. split; [apply NoDup_nil_2|done].
  - rewrite foldl_app. cbn [foldl].
    destruct (add_isogg_row_index (foldl add_isogg_row (∅, [], 0%nat) rows) r) as [-> ->].
    split; [rewrite length_app; cbn; lia|].
    split; [by apply od_set_keys_nodup|].
    intros pos. unfold dd_append. rewrite od_get_od_set, entries_at_snoc.
    destruct (decide (pos = row_pos r)) as [->|Hne].
    + rewrite decide_True by done. rewrite Hget.
      by destruct (entries_at (row_pos r) rows).
    + rewrite decide_False by done. by rewrite app_nil_r.
Qed.

Lemma load_rows_info_backed st rows name info :
  (foldl add_isogg_row st rows).1.1 !! name = Some info ->
  st.1.1 !! name = Some info
  \/ exists r, r ∈ rows /\ row_info r = info
       /\ (name = row_snp_name r \/ (name ∈ row_alt_names r /\ name <> "")).
Proof.
  induction rows as [|r rows IH] using rev_ind; [by left|].
  rewrite foldl_app. cbn [foldl]. rewrite add_isogg_row_lookup.
  destruct (decide (name = row_snp_name r)) as [->|Hne].
  - intros [= <-]. right. exists r. split; [set_solver|]. split; [done|by left].
  - destruct (_ !! name) as [v|] eqn:Hprev.
    + intros [= <-]. destruct (IH eq_refl) as [?|(r' & Hin & ? & ?)]; [by left|].
      right. exists r'. split; [set_solver|done].
    + case_bool_decide as Halias; [|done]. intros [= <-].
      right. exists r. split; [set_solver|]. split; [done|by right].
Qed.

End position_index.

(** X8: [_load_isogg], from the empty state, counts the accepted rows, and
    [pos_to_haplo] has distinct positions as keys and holds, at each
    position, the entries of the accepted rows with that position, in file
    order; a position without an accepted row is not a key. *)
Theorem load_isogg_position_index (header : string) (lines : list string) :
  let rows := decode_rows (isogg_sep header) lines in
  exists snp_to_info pos_to_haplo,
    _load_isogg header lines (∅, [], 0%nat) = Ok (snp_to_info, pos_to_haplo, length rows)
    /\ NoDup pos_to_haplo.*1
    /\ forall pos, od_get pos pos_to_haplo
                   = match entries_at pos rows with [] => None | l => Some l end.
Proof.
  cbv zeta. rewrite load_isogg_rows.
  pose proof (load_rows_position_index (decode_rows (isogg_sep header) lines)) as Hidx.
  cbv zeta in Hidx.
  destruct (foldl _ _ _) as [[snp_to_info pos_to_haplo] count].
  cbn [fst snd] in Hidx. destruct Hidx as (<- & Hnodup & Hget).
  by exists snp_to_info, pos_to_haplo.
Qed.

(** X9: the two indexes agree: whenever [snp_to_info] maps an identifier
    to [(pos, ref, alt)], [pos_to_haplo] has an entry with these alleles at
    [pos]. *)
Theorem load_isogg_names_are_indexed (header : string) (lines : list string) :
  exists snp_to_info pos_to_haplo count,
    _load_isogg header lines (∅, [], 0%nat) = Ok (snp_to_info, pos_to_haplo, count)
    /\ forall name pos ref alt,
         snp_to_info !! name = Some (pos, ref, alt) ->
         exists haplo snp_name entries,
           od_get pos pos_to_haplo = Some entries
           /\ (haplo, snp_name, ref, alt) ∈ entries.
Proof.
  rewrite load_isogg_rows.
  pose proof (load_rows_position_index (decode_rows (isogg_sep header) lines)) as Hidx.
  pose proof (load_rows_info_backed (∅, [], 0%nat) (decode_rows (isogg_sep header) lines))
    as Hback.
  cbv zeta in Hidx.
  destruct (foldl _ _ _) as [[snp_to_info pos_to_haplo] count].
  cbn [fst snd] in Hidx, Hback. destruct Hidx as (_ & _ & Hget).
  exists snp_to_info, pos_to_haplo, count.
  split; [done|]. intros name pos ref alt Hname.
  destruct (Hback _ _ Hname) as [Hempty|(r & Hin & Hinfo & _)].
  { cbn in Hempty. by rewrite lookup_empty in Hempty. }
  unfold row_info in Hinfo. injection Hinfo as <- <- <-.
  assert (row_entry r ∈ entries_at (row_pos r) (decode_rows (isogg_sep header) lines)) as Hentry.
  { unfold entries_at. apply list_elem_of_fmap. exists r. split; [done|].
    by apply list_elem_of_filter. }
  exists (row_haplo r), (row_snp_name r), (entries_at (row_pos r) (decode_rows (isogg_sep header) lines)).
  split; [|exact Hentry]. rewrite Hget.
  destruct (entries_at _ _); [by apply elem_of_nil in Hentry|done].
Qed.

(** ** Main branch of a name *)

Section main_branch.

Lemma direct_match_letters c rest branches :
  Forall (fun b => String.length b = 1%nat) branches ->
  direct_match (String c rest) branches
  = Ok (if in_list (String c EmptyString) branches
           && (bool_decide (rest = "")
               || match rest with String d _ => is_digit_char d | EmptyString => false end)
        then Some (String c EmptyString) else None).
Proof.
  induction 1 as [|b branches Hb _ IH]; [done|].
  destruct b as [|l [|? ?]]; try discriminate Hb.
  cbn [direct_match]. unfold in_list in *.
  destruct (decide (c = l)) as [->|Hne].
  - rewrite (bool_decide_eq_true_2 (_ ∈ _ :: _)) by left. cbn [andb].
    destruct rest as [|d rest].
    + by rewrite String.eqb_refl.
    + replace (String.eqb (String l (String d rest)) (String l "")) with false
        by (symmetry; apply String.eqb_neq; congruence).
      unfold startswith. cbn [String.prefix].
      destruct (ascii_dec l l) as [_|]; [|done].
      cbn. destruct (is_digit_char d) eqn:Hd; cbn.
      * done.
      * rewrite IH. rewrite andb_false_r. cbn.
        case_bool_decide; done.
  - replace (String.eqb (String c rest) (String l "")) with false
      by (symmetry; apply String.eqb_neq; congruence).
    unfold startswith. cbn [String.prefix].
    destruct (ascii_dec l c) as [|_]; [congruence|].
    cbn [andb mbind outcome_bind]. rewrite IH.
    f_equal. f_equal.
    assert (String c "" ∈ String l "" :: branches <-> String c "" ∈ branches) as Hin.
    { rewrite elem_of_cons. split; [intros [[=]|]|]; auto. congruence. }
    by rewrite (bool_decide_ext _ _ Hin).
Qed.

Lemma get_main_branch_eq haplo : get_main_branch haplo = Ok (main_branch_of haplo).
Proof.
  unfold get_main_branch, main_branch_of. destruct haplo as [|c rest]; [done|].
  cbn [truthy negb]. rewrite direct_match_letters by (repeat constructor).
  cbv zeta. generalize (bool_decide (String c rest ∈ INTERMEDIATE_NODES)). intros inter.
  destruct (in_list (String c "") MAIN_BRANCHES) eqn:Hmain; cbn [andb].
  + destruct (bool_decide (rest = "") || _) eqn:Hdirect; cbn [mbind outcome_bind orb].
    * done.
    * destruct inter; [done|]. cbn. rewrite Hmain. done.
  + cbn [mbind outcome_bind]. destruct inter; [done|]. cbn. rewrite Hmain. done.
Qed.

Lemma main_branch_of_letter haplo branch :
  main_branch_of haplo = Some branch ->
  branch ∈ MAIN_BRANCHES /\ startswith haplo branch = true.
Proof.
  unfold main_branch_of. destruct haplo as [|c rest]; [done|]. cbv zeta.
  destruct (in_list _ _) eqn:Hmain; [|done]. cbn [andb].
  destruct (_ || _); [|done]. intros [= <-]. split.
  + by apply bool_decide_eq_true_1 in Hmain.
  + unfold startswith. cbn [String.prefix].
    destruct (ascii_dec c c) as [_|]; [|done]. by destruct rest.
Qed.

End main_branch.

(** X11: [get_main_branch] never raises, and the branch it returns is the
    first letter of the name: it returns that letter when the letter is a
    main branch and the name is the letter alone, continues with a digit,
    or is not an intermediate node; otherwise it returns [None]. *)
Theorem get_main_branch_by_first_letter (haplo : string) :
  get_main_branch haplo = Ok (main_branch_of haplo)
  /\ forall branch, main_branch_of haplo = Some branch ->
       branch ∈ MAIN_BRANCHES /\ startswith haplo branch = true.
Proof. split; [apply get_main_branch_eq|apply main_branch_of_letter]. Qed.

(** X12: of the names in [INTERMEDIATE_NODES], the five that start with
    [A] followed by a digit are assigned to main branch A all the same,
    because the direct match comes first; the other fifteen have no main
    branch. *)
Theorem intermediate_names_with_digit_are_assigned (haplo : string) :
  haplo ∈ INTERMEDIATE_NODES ->
  get_main_branch haplo
  = Ok (if in_list haplo ["A1b"; "A1b1"; "A0-T"; "A00-T"; "A000-T"]
        then Some "A" else None).
Proof.
  unfold INTERMEDIATE_NODES. rewrite elem_of_list_to_set.
  intros Hin. repeat (apply elem_of_cons in Hin as [->|Hin]; [vm_compute; reflexivity|]).
  by apply elem_of_nil in Hin.
Qed.

Lemma intermediate_names_with_digit_are_assigned_witness :
  get_main_branch "A1b1" = Ok (Some "A").
Proof. apply (intermediate_names_with_digit_are_assigned "A1b1"). compute_done. Defined.

(** ** What a classification rests on *)

Section evidence.

Lemma for_each_inv {A S : Type} (P : S -> Prop) (body : S -> A -> outcome S)
    (l : list A) (st st' : S) :
  (forall st x st', x ∈ l -> P st -> body st x = Ok st' -> P st') ->
  P st -> for_each body l st = Ok st' -> P st'.
Proof.
  revert st. induction l as [|x l IH]; intros st Hbody Hst; cbn [for_each].
  - by intros [= <-].
  - destruct (body st x) as [st1|] eqn:Hx; [|done]. cbn [mbind outcome_bind].
    apply IH.
    + intros st0 y st0' Hy. apply Hbody. by right.
    + eapply Hbody; [left|exact Hst|exact Hx].
Qed.

Lemma od_get_elem {K V : Type} `{EqDecision K} (k : K) (v : V) (d : list (K * V)) :
  od_get k d = Some v -> (k, v) ∈ d.
Proof.
  induction d as [|[k0 v0] d IH]; cbn [od_get]; [done|].
  destruct (decide (k = k0)) as [->|_].
  - intros [= ->]. left.
  - intros Hget. right. by apply IH.
Qed.

Lemma od_get_key {K V : Type} `{EqDecision K} (k : K) (d : list (K * V)) :
  k ∈ d.*1 -> is_Some (od_get k d).
Proof.
  induction d as [|[k0 v0] d IH]; cbn [od_get fmap list_fmap fst].
  - by intros ?%elem_of_nil.
  - destruct (decide (k = k0)) as [->|Hne]; [eauto|].
    intros [?|Hin]%elem_of_cons; [done|]. by apply IH.
Qed.

Lemma od_set_elem {K V : Type} `{EqDecision K} (k k' : K) (v v' : V) (d : list (K * V)) :
  (k, v) ∈ od_set k' v' d -> (k = k' /\ v = v') \/ (k, v) ∈ d.
Proof.
  induction d as [|[k0 v0] d IH]; cbn [od_set].
  - intros [= -> ->]%list_elem_of_singleton. by left.
  - destruct (decide (k' = k0)) as [->|Hne].
    + intros [[= -> ->]|Hin]%elem_of_cons; [by left|]. right. by right.
    + intros [[= -> ->]|Hin]%elem_of_cons; [right; left|].
      destruct (IH Hin) as [?|?]; [by left|]. right. by right.
Qed.

Lemma dd_append_elem {K V : Type} `{EqDecision K} (k k' : K) (x : V) (l : list V)
    (d : list (K * list V)) :
  (k, l) ∈ dd_append k' x d ->
  (k = k' /\ exists l0, l = l0 ++ [x] /\ (l0 = [] \/ (k, l0) ∈ d)) \/ (k, l) ∈ d.
Proof.
  unfold dd_append. intros [[-> ->]|Hin]%od_set_elem; [|by right].
  left. split; [done|]. destruct (od_get k' d) as [l0|] eqn:Hget; cbn [default].
  - exists l0. split; [done|]. right. by apply od_get_elem.
  - exists []. split; [done|]. by left.
Qed.

Variable clf : classifier.
Variable sample_geno : gmap Z genotype.

Lemma collect_entry_derived pos g st entry st' :
  collect_entry clf pos g st entry = Ok st' ->
  st'.1 = if is_true_opt (is_derived clf (check_genotype g.1.1 g.1.2 g.2
                                            entry.1.2 entry.2))
          then dd_append entry.1.1.1 (entry.1.1.2, pos) st.1 else st.1.
Proof.
  destruct st as [derived_haplos all_node_status], g as [[gt vcf_ref] vcf_alt],
    entry as [[[haplo snp_name] ref] alt].
  unfold collect_entry. cbn [fst snd].
  destruct (check_genotype gt vcf_ref vcf_alt ref alt);
    repeat match goal with
    | |- context [dict_item ?m ?k] => destruct (dict_item m k); cbn [mbind outcome_bind]
    end; try done; by intros [= <-].
Qed.

Lemma collect_entry_sound pos entries g st entry st' :
  (pos, entries) ∈ pos_to_haplo clf -> sample_geno !! pos = Some g ->
  entry ∈ entries ->
  derived_haplos_sound clf sample_geno st.1 ->
  collect_entry clf pos g st entry = Ok st' ->
  derived_haplos_sound clf sample_geno st'.1.
Proof.
  intros Hpos Hg Hentry Hsound Hstep. rewrite (collect_entry_derived _ _ _ _ _ Hstep).
  destruct (is_true_opt _) eqn:Hderived; [|done].
  assert (derived_marker clf sample_geno entry.1.1.1 entry.1.1.2 pos) as Hmarker.
  { destruct g as [[gt vcf_ref] vcf_alt], entry as [[[haplo snp_name] ref] alt].
    exists entries, ref, alt, gt, vcf_ref, vcf_alt. repeat split; try done.
    cbn [fst snd] in Hderived. by destruct (is_derived _ _) as [[]|]. }
  intros haplo snps [[-> (l0 & -> & Hl0)]|Hin]%dd_append_elem; [|by apply Hsound].
  split; [by destruct l0|].
  intros snp p [Hin|[= -> ->]%list_elem_of_singleton]%elem_of_app; [|done].
  destruct Hl0 as [->|Hl0]; [by apply elem_of_nil in Hin|].
  by apply (Hsound _ _ Hl0).
Qed.

Lemma collect_position_sound st item st' :
  item ∈ pos_to_haplo clf ->
  derived_haplos_sound clf sample_geno (e_derived_haplos st) ->
  collect_position clf sample_geno st item = Ok st' ->
  derived_haplos_sound clf sample_geno (e_derived_haplos st').
Proof.
  destruct item as [pos entries]. intros Hitem Hsound. unfold collect_position.
  unfold dict_mem, dict_item.
  destruct (sample_geno !! pos) as [g|] eqn:Hg; cbn [negb mbind outcome_bind].
  2:{ by intros [= <-]. }
  destruct (for_each _ _ _) as [[dh ans]|] eqn:Hloop; [|done]. cbn [mbind outcome_bind].
  intros [= <-]. cbn [e_derived_haplos].
  refine (for_each_inv (fun st => derived_haplos_sound clf sample_geno st.1)
            _ _ (e_derived_haplos st, e_all_node_status st) _ _ Hsound Hloop).
  intros st0 entry st0' Hentry Hst0. by eapply collect_entry_sound.
Qed.

Lemma collect_evidence_sound ev :
  collect_evidence clf sample_geno = Ok ev ->
  derived_haplos_sound clf sample_geno (e_derived_haplos ev).
Proof.
  apply (for_each_inv (fun st => derived_haplos_sound clf sample_geno (e_derived_haplos st))).
  - intros st item st' Hitem. by apply collect_position_sound.
  - intros haplo snps Hin. by apply elem_of_nil in Hin.
Qed.

Lemma collect_position_het_count st item st' :
  collect_position clf sample_geno st item = Ok st' ->
  e_het_count st'
  = (e_het_count st + if has_het_call sample_geno item.1 then 1 else 0)%nat.
Proof.
  destruct item as [pos entries]. unfold collect_position, dict_mem, dict_item, has_het_call.
  cbn [fst].
  destruct (sample_geno !! pos) as [[[gt vcf_ref] vcf_alt]|] eqn:Hg; cbn [negb mbind outcome_bind].
  2:{ intros [= <-]. lia. }
  destruct (for_each _ _ _) as [[dh ans]|]; [|done]. cbn [mbind outcome_bind].
  intros [= <-]. cbn [e_het_count fst]. destruct (in_list gt _); lia.
Qed.

Lemma collect_positions_het_count items : forall st ev,
  for_each (collect_position clf sample_geno) items st = Ok ev ->
  e_het_count ev
  = (e_het_count st + length (List.filter (has_het_call sample_geno) items.*1))%nat.
Proof.
  induction items as [|item items IH]; intros st ev; cbn [for_each].
  - intros [= <-]. cbn. lia.
  - destruct (collect_position clf sample_geno st item) as [st1|] eqn:Hstep; [|done].
    cbn [mbind outcome_bind]. intros Hrest. rewrite (IH _ _ Hrest).
    rewrite (collect_position_het_count _ _ _ Hstep).
    cbn [fmap list_fmap List.filter]. fold (fst <$> items).
    destruct (has_het_call sample_geno item.1); cbn [length]; lia.
Qed.

Lemma collect_evidence_het_count ev :
  collect_evidence clf sample_geno = Ok ev ->
  e_het_count ev = length (het_call_positions clf sample_geno).
Proof. intros Hev. by rewrite (collect_positions_het_count _ _ _ Hev). Qed.

End evidence.

Section branch_selection.
Variable clf : classifier.
Variable sample_geno : gmap Z genotype.

Lemma group_haplo_sound derived_haplos bc item bc' :
  item ∈ derived_haplos ->
  branch_candidates_sound clf derived_haplos bc ->
  group_haplo clf bc item = Ok bc' ->
  branch_candidates_sound clf derived_haplos bc'.
Proof.
  destruct item as [haplo snps]. intros Hitem Hsound. unfold group_haplo.
  rewrite get_main_branch_eq. cbn [mbind outcome_bind].
  destruct (main_branch_of haplo) as [b|] eqn:Hbranch; [|by intros [= <-]].
  destruct (truthy b); [|by intros [= <-]]. intros [= <-].
  set (cand := {| c_haplo := haplo |}).
  assert (main_branch_of (c_haplo cand) = Some b /\ candidate_of clf derived_haplos cand)
    as Hcand.
  { split; [done|]. by exists snps. }
  intros branch cands [[-> (l0 & -> & Hl0)]|Hin]%dd_append_elem; [|by apply Hsound].
  split; [by apply (main_branch_of_letter haplo)|]. split; [by destruct l0|].
  intros c [Hin| ->%list_elem_of_singleton]%elem_of_app; [|done].
  destruct Hl0 as [->|Hl0]; [by apply elem_of_nil in Hin|].
  by apply (Hsound _ _ Hl0).
Qed.

Lemma group_by_branch_sound derived_haplos bc :
  group_by_branch clf derived_haplos = Ok bc ->
  branch_candidates_sound clf derived_haplos bc.
Proof.
  apply (for_each_inv (branch_candidates_sound clf derived_haplos)).
  - intros st item st' Hitem. by apply group_haplo_sound.
  - intros branch cands Hin. by apply elem_of_nil in Hin.
Qed.

Lemma select_by_defining_snp_some bds bc branches branch note :
  select_by_defining_snp clf bds bc branches = Ok (Some branch, note) ->
  branch ∈ branches /\ od_mem branch bc = true
  /\ exists status, od_get branch bds = Some status /\ is_derived clf status = Some true.
Proof.
  induction branches as [|b rest IH]; cbn [select_by_defining_snp]; [done|].
  destruct (is_true_opt _ && od_mem b bc) eqn:Hhit.
  - apply andb_true_iff in Hhit as [Hderived Hmem].
    destruct (dict_item _ _); [|done]. cbn [mbind outcome_bind]. intros [= <- _].
    split; [left|]. split; [done|].
    destruct (od_get b bds) as [status|]; [|done]. exists status. split; [done|].
    cbn in Hderived. by destruct (is_derived clf status) as [[]|].
  - intros Hrest. destruct (IH Hrest) as (? & ? & ?). split; [by right|done].
Qed.

Lemma select_by_defining_snp_none_note bds bc branches note :
  select_by_defining_snp clf bds bc branches = Ok (None, note) -> note = "".
Proof.
  induction branches as [|b rest IH]; cbn [select_by_defining_snp]; [by intros [= <-]|].
  destruct (_ && _); [|done].
  destruct (dict_item _ _); [|done]. done.
Qed.

Lemma best_downstream_some excluded bc branch count :
  best_downstream excluded bc = (Some branch, count) ->
  (branch ∉ excluded) /\ branch ∈ bc.*1.
Proof.
  unfold best_downstream.
  induction bc as [|[b cands] bc IH] using rev_ind; [done|].
  rewrite foldl_app. cbn [foldl].
  destruct (foldl _ _ bc) as [best_branch best_count].
  rewrite fmap_app, elem_of_app. cbn [fmap list_fmap fst].
  case_bool_decide as Hex.
  - intros Hbest. destruct (IH Hbest). auto.
  - destruct (best_count <? _).
    + intros [= <- _]. split; [done|]. right. left.
    + intros Hbest. destruct (IH Hbest). auto.
Qed.

Lemma excluded_branches_ancestral bds branch :
  od_get branch bds = Some ANCESTRAL -> branch ∈ excluded_branches bds.
Proof.
  intros Hget%od_get_elem. unfold excluded_branches.
  apply elem_of_list_to_set, list_elem_of_fmap. exists (branch, ANCESTRAL).
  split; [done|]. apply list_elem_of_In, List.filter_In. split.
  - by apply list_elem_of_In.
  - by apply bool_decide_eq_true_2.
Qed.

Lemma truthy_opt_some o : truthy_opt o = true -> exists s, o = Some s /\ truthy s = true.
Proof. destruct o as [s|]; [eauto|done]. Qed.

(** Step 3 either picks a main branch that has candidates and whose
    defining marker is not ancestral, or the basal F with its own
    candidate. *)
Lemma select_main_branch_choice bds bc main_branch note bc' :
  (forall branch, branch ∈ bc.*1 -> branch ∈ MAIN_BRANCHES) ->
  select_main_branch clf sample_geno bds bc = Ok (Some main_branch, note, bc') ->
  truthy main_branch = true ->
  (main_branch ∈ MAIN_BRANCHES /\ bc' = bc /\ main_branch ∈ bc.*1
   /\ od_get main_branch bds <> Some ANCESTRAL)
  \/ (main_branch = "F" /\ bc' = od_set "F" [basal_f_candidate] bc
      /\ basal_f_derived clf sample_geno = Ok true).
Proof.
  intros Hkeys. unfold select_main_branch.
  destruct (select_by_defining_snp clf bds bc MAIN_BRANCHES) as [[mb0 note0]|] eqn:Hfirst;
    [|done].
  cbn [mbind outcome_bind].
  destruct (truthy_opt mb0) eqn:Hmb0; cbn [negb].
  - rewrite Hmb0. cbn [negb]. intros [= -> -> <-] _.
    apply select_by_defining_snp_some in Hfirst as (Hin & Hmem & status & Hstatus & Hderived).
    left. split; [done|]. split; [done|]. split.
    + unfold od_mem in Hmem. destruct (od_get main_branch bc) eqn:Hget; [|done].
      apply od_get_elem in Hget. apply list_elem_of_fmap. by exists (main_branch, l).
    + rewrite Hstatus. intros [= ->]. done.
  - destruct (best_downstream (excluded_branches bds) bc) as [best_branch best_count]
      eqn:Hbest.
    destruct (truthy_opt best_branch) eqn:Hbb.
    + rewrite Hbb. cbn [negb]. intros [= -> <- <-] _.
      apply best_downstream_some in Hbest as [Hex Hin].
      left. split; [by apply Hkeys|]. split; [done|]. split; [done|].
      intros Hanc. by apply Hex, excluded_branches_ancestral.
    + rewrite Hmb0. cbn [negb].
      destruct (basal_f_derived clf sample_geno) as [[]|] eqn:Hf; [| |done];
        cbn [mbind outcome_bind].
      * intros [= <- <- <-] _. right. split; [done|]. split; [|done].
        unfold od_mem. destruct (od_get "F" bc) as [l|] eqn:Hget; [|done].
        exfalso. apply od_get_elem in Hget.
        assert ("F" ∈ bc.*1) as Hin by (apply list_elem_of_fmap; by exists ("F", l)).
        apply Hkeys in Hin. revert Hin. compute_done.
      * intros [= -> _ _] Htruthy. cbn in Hmb0. congruence.
Qed.

Lemma basal_f_derived_marker :
  basal_f_derived clf sample_geno = Ok true ->
  exists pos ref alt gt vcf_ref vcf_alt,
    snp_to_info clf !! F_DEFINING_SNP = Some (pos, ref, alt)
    /\ sample_geno !! pos = Some (gt, vcf_ref, vcf_alt)
    /\ is_derived clf (check_genotype gt vcf_ref vcf_alt ref alt) = Some true.
Proof.
  unfold basal_f_derived, dict_mem, dict_item.
  destruct (snp_to_info clf !! F_DEFINING_SNP) as [[[pos ref] alt]|] eqn:Hinfo; [|done].
  cbn [mbind outcome_bind fst snd].
  destruct (sample_geno !! pos) as [[[gt vcf_ref] vcf_alt]|] eqn:Hg; [|done].
  cbn [mbind outcome_bind]. intros [= Hderived].
  exists pos, ref, alt, gt, vcf_ref, vcf_alt. split; [done|]. split; [done|].
  by destruct (is_derived _ _) as [[]|].
Qed.

End branch_selection.

Section subdivision.
Variable clf : classifier.
Variable all_node_status : gmap string node_status.

Lemma validate_candidates_selected main_branch candidates sel sel' :
  validate_candidates clf all_node_status main_branch candidates sel = Ok sel' ->
  (best_haplo sel' = best_haplo sel /\ best_n_snps sel' = best_n_snps sel
   /\ best_evidence sel' = best_evidence sel)
  \/ exists cand, cand ∈ candidates /\ selected_from sel' cand.
Proof.
  revert sel. induction candidates as [|cand rest IH]; intros sel;
    cbn [validate_candidates].
  - intros [= <-]. by left.
  - destruct (relevant_ancestors _ _) as [relevant|]; [|done]. cbn [mbind outcome_bind].
    destruct (check_chain _ _ _) as [[[] conflicts]|]; [| |done]; cbn [mbind outcome_bind].
    + intros [= <-]. right. exists cand. split; [left|done].
    + intros Hrest. destruct (IH _ Hrest) as [?|(c & Hin & ?)]; [by left|].
      right. exists c. split; [by right|done].
Qed.

Lemma fewest_conflicts_selected candidates sel sel' :
  candidates <> [] ->
  fewest_conflicts clf all_node_status candidates sel = Ok sel' ->
  exists cand, cand ∈ candidates /\ selected_from sel' cand.
Proof.
  intros Hne. unfold fewest_conflicts.
  destruct (for_each _ _ _) as [[m sel1]|] eqn:Hloop; [|done].
  cbn [mbind outcome_bind]. intros [= <-].
  destruct candidates as [|first rest]; [done|]. cbn [for_each] in Hloop.
  destruct (conflict_count _ _) as [count|]; [|done]. cbn [mbind outcome_bind] in Hloop.
  refine (for_each_inv
            (fun st => exists cand, cand ∈ first :: rest /\ selected_from st.2 cand)
            _ _ _ (m, sel1) _ _ Hloop).
  - intros [m0 sel0] cand st' Hcand (c0 & Hc0 & Hsel0).
    destruct (conflict_count _ _) as [n|]; [|done]. cbn [mbind outcome_bind].
    destruct (match m0 with Some _ => _ | None => _ end); intros [= <-].
    + exists cand. split; [by right|done].
    + by exists c0.
  - exists first. split; [left|done].
Qed.

Lemma subdivide_selected main_branch candidates sel :
  candidates <> [] ->
  subdivide clf all_node_status main_branch candidates = Ok sel ->
  exists cand, cand ∈ candidates /\ selected_from sel cand.
Proof.
  intros Hne. unfold subdivide.
  destruct (validate_candidates _ _ _ _ _) as [sel0|] eqn:Hval; [|done].
  cbn [mbind outcome_bind].
  destruct (String.eqb _ _ && _) eqn:Hfallback.
  - by apply fewest_conflicts_selected.
  - intros [= <-].
    destruct (validate_candidates_selected _ _ _ _ Hval) as [(Hh & _)|?]; [|done].
    cbn in Hh. rewrite Hh, String.eqb_refl in Hfallback.
    rewrite bool_decide_eq_false_2 in Hfallback by done. done.
Qed.

End subdivision.

Section classification.
Variable clf : classifier.
Variable sample : string.
Variable sample_geno : gmap Z genotype.

(** The method follows one of two paths: an early return with the Unknown
    result, or steps 1 to 5 in full. *)
Lemma classify_sample_paths :
  exists ev,
    collect_evidence clf sample_geno = Ok ev
    /\ ((exists note,
           classify_sample clf sample sample_geno
           = Ok (unknown_result sample (e_het_count ev) note))
        \/ (exists bc bds main_branch note bc' sel,
              group_by_branch clf (e_derived_haplos ev) = Ok bc
              /\ branch_direct_status clf sample_geno = Ok bds
              /\ select_main_branch clf sample_geno bds bc = Ok (Some main_branch, note, bc')
              /\ truthy main_branch = true
              /\ subdivide clf (e_all_node_status ev) main_branch
                   (sort_candidates (default [] (od_get main_branch bc'))) = Ok sel
              /\ classify_sample clf sample sample_geno
                 = Ok (classified_result clf sample ev bds main_branch note
                         (sort_candidates (default [] (od_get main_branch bc'))) sel))).
Proof.
  unfold classify_sample.
  destruct (collect_evidence_ok clf sample_geno) as [ev Hev]. rewrite Hev.
  exists ev. split; [done|]. cbn [mbind outcome_bind].
  case_bool_decide; [left; by eexists|].
  destruct (group_by_branch_ok clf (e_derived_haplos ev)) as [bc Hbc]. rewrite Hbc.
  cbn [mbind outcome_bind].
  case_bool_decide; [left; by eexists|].
  destruct (branch_direct_status_ok clf sample_geno) as [bds Hbds]. rewrite Hbds.
  cbn [mbind outcome_bind].
  destruct (select_main_branch_ok clf sample_geno bds bc) as [[[mb note] bc'] Hsel].
  rewrite Hsel. cbn [mbind outcome_bind].
  destruct mb as [main_branch|]; [|left; by eexists].
  destruct (truthy main_branch) eqn:Htruthy; [|left; by eexists].
  destruct (subdivide_ok clf (e_all_node_status ev) main_branch
              (sort_candidates (default [] (od_get main_branch bc')))) as [sel Hsub].
  rewrite Hsub. cbn [mbind outcome_bind].
  right. by exists bc, bds, main_branch, note, bc', sel.
Qed.

Lemma branch_candidates_keys derived_haplos bc branch :
  branch_candidates_sound clf derived_haplos bc ->
  branch ∈ bc.*1 -> branch ∈ MAIN_BRANCHES.
Proof.
  intros Hsound [[b cands] [-> Hin]]%list_elem_of_fmap. by destruct (Hsound _ _ Hin).
Qed.

(** The candidates of the selected main branch and the candidate that the
    result was read off. *)
Lemma classified_selection ev bc bds main_branch note bc' sel :
  collect_evidence clf sample_geno = Ok ev ->
  group_by_branch clf (e_derived_haplos ev) = Ok bc ->
  select_main_branch clf sample_geno bds bc = Ok (Some main_branch, note, bc') ->
  truthy main_branch = true ->
  subdivide clf (e_all_node_status ev) main_branch
    (sort_candidates (default [] (od_get main_branch bc'))) = Ok sel ->
  sort_candidates (default [] (od_get main_branch bc')) <> []
  /\ ((main_branch = "F" /\ selected_from sel basal_f_candidate
       /\ basal_f_derived clf sample_geno = Ok true)
      \/ (main_branch ∈ MAIN_BRANCHES
          /\ od_get main_branch bds <> Some ANCESTRAL
          /\ exists cand,
               selected_from sel cand
               /\ main_branch_of (c_haplo cand) = Some main_branch
               /\ candidate_of clf (e_derived_haplos ev) cand)).
Proof.
  intros Hev Hbc Hsel Htruthy Hsub.
  pose proof (group_by_branch_sound clf _ _ Hbc) as Hsound.
  destruct (select_main_branch_choice clf sample_geno _ _ _ _ _
              (fun b => branch_candidates_keys _ _ b Hsound) Hsel Htruthy)
    as [(Hmain & -> & Hkey & Hstatus)|(-> & -> & Hf)].
  - destruct (od_get_key _ _ Hkey) as [cands Hget]. rewrite Hget in *. cbn [default] in *.
    destruct (Hsound _ _ (od_get_elem _ _ _ Hget)) as (_ & Hne & Hcands).
    assert (sort_candidates cands <> []) as Hsorted.
    { intros Hnil. apply Hne. apply Permutation_nil_r. rewrite <- Hnil.
      symmetry. apply sort_candidates_perm. }
    split; [done|]. right. split; [done|]. split; [done|].
    destruct (subdivide_selected _ _ _ _ _ Hsorted Hsub) as (cand & Hin & Hfrom).
    rewrite sort_candidates_perm in Hin. destruct (Hcands _ Hin) as [Hb Hof].
    exists cand. split; [exact Hfrom|]. split; [exact Hb|exact Hof].
  - rewrite od_get_od_set, decide_True in * by done. cbn [default] in *.
    change (sort_candidates [basal_f_candidate]) with [basal_f_candidate] in *.
    split; [done|]. left. split; [done|]. split; [|done].
    assert ([basal_f_candidate] <> []) as Hne by done.
    destruct (subdivide_selected _ _ _ _ _ Hne Hsub) as (cand & Hin & Hfrom).
    by apply list_elem_of_singleton in Hin as ->.
Qed.

End classification.

(** X13: what a classified result rests on. [classify_sample] returns the
    Unknown result, or the basal F (one SNP, the F marker, which the sample
    carries derived), or a haplogroup whose first letter is the reported
    main branch, with a non-empty list of markers of that haplogroup that
    the index has and the sample carries derived under the heterozygous
    policy: [n_snps] is the length of this list and [evidence] its first
    five names. *)
Theorem classified_haplogroup_has_derived_markers (clf : classifier) (sample : string)
    (sample_geno : gmap Z genotype) :
  exists r,
    classify_sample clf sample sample_geno = Ok r
    /\ (r_diagnostics r = None
        \/ (r_main_branch r = "F" /\ r_haplogroup r = "F" /\ r_n_snps r = 1%nat
            /\ r_evidence r = [F_DEFINING_SNP]
            /\ exists pos ref alt gt vcf_ref vcf_alt,
                 snp_to_info clf !! F_DEFINING_SNP = Some (pos, ref, alt)
                 /\ sample_geno !! pos = Some (gt, vcf_ref, vcf_alt)
                 /\ is_derived clf (check_genotype gt vcf_ref vcf_alt ref alt) = Some true)
        \/ (main_branch_of (r_haplogroup r) = Some (r_main_branch r)
            /\ exists snps,
                 snps <> [] /\ r_n_snps r = length snps
                 /\ r_evidence r = take 5 snps.*1
                 /\ forall snp pos, (snp, pos) ∈ snps ->
                      derived_marker clf sample_geno (r_haplogroup r) snp pos)).
Proof.
  destruct (classify_sample_paths clf sample sample_geno)
    as (ev & Hev & [[note ->]|(bc & bds & main_branch & note & bc' & sel
                                & Hbc & Hbds & Hsel & Htruthy & Hsub & ->)]).
  { eexists. split; [done|]. by left. }
  eexists. split; [done|]. right. cbn.
  destruct (classified_selection clf sample_geno _ _ _ _ _ _ _ Hev Hbc Hsel Htruthy Hsub)
    as (_ & [(-> & (-> & -> & ->) & Hf)|(_ & _ & cand & (-> & -> & ->) & Hbranch & Hcand)]).
  - left. do 4 (split; [done|]). by apply basal_f_derived_marker.
  - right. split; [done|]. destruct Hcand as (snps & Hin & -> & -> & _).
    exists snps. destruct (collect_evidence_sound clf sample_geno ev Hev _ _ Hin).
    by repeat split.
Qed.

(** X14: a classified result names a main branch of [MAIN_BRANCHES] or F;
    the reported main-branch status is the status of the defining marker
    of that branch in the sample and is never "ancestral"; and the branch
    has at least one candidate. *)
Theorem main_branch_marker_never_ancestral (clf : classifier) (sample : string)
    (sample_geno : gmap Z genotype) :
  exists r,
    classify_sample clf sample sample_geno = Ok r
    /\ forall diagnostics, r_diagnostics r = Some diagnostics ->
         r_main_branch r ∈ MAIN_BRANCHES ++ ["F"]
         /\ d_main_branch_status diagnostics
            = status_str (defining_snp_status clf sample_geno (r_main_branch r))
         /\ d_main_branch_status diagnostics <> "ancestral"
         /\ (1 <= d_candidates_in_branch diagnostics)%nat.
Proof.
  destruct (classify_sample_paths clf sample sample_geno)
    as (ev & Hev & [[note ->]|(bc & bds & main_branch & note & bc' & sel
                                & Hbc & Hbds & Hsel & Htruthy & Hsub & ->)]).
  { eexists. split; [done|]. done. }
  eexists. split; [done|]. unfold classified_result, _make_result.
  cbn [r_diagnostics]. intros ? [= <-].
  cbn [r_main_branch d_main_branch_status d_candidates_in_branch].
  pose proof (branch_direct_status_get clf sample_geno bds main_branch Hbds) as Hstatus.
  destruct (classified_selection clf sample_geno _ _ _ _ _ _ _ Hev Hbc Hsel Htruthy Hsub)
    as (Hcands & [(-> & _)|(Hmain & Hnot & _)]).
  - split; [compute_done|]. split; [by rewrite Hstatus|].
    rewrite Hstatus, defining_snp_status_other by compute_done.
    split; [done|]. destruct (sort_candidates _); [done|cbn; lia].
  - split; [apply elem_of_app; by left|]. split; [by rewrite Hstatus|]. split.
    + destruct (od_get main_branch bds) as [[]|]; done.
    + destruct (sort_candidates _); [done|cbn; lia].
Qed.

(** X15: every result carries the sample name it was asked for, and its
    [het_count] is the number of index positions at which the sample has a
    heterozygous call, whatever the alleles and the heterozygous policy
    are. *)
Theorem het_count_counts_indexed_het_calls (clf : classifier) (sample : string)
    (sample_geno : gmap Z genotype) :
  exists r,
    classify_sample clf sample sample_geno = Ok r
    /\ r_sample r = sample
    /\ r_het_count r = length (het_call_positions clf sample_geno).
Proof.
  destruct (classify_sample_paths clf sample sample_geno)
    as (ev & Hev & [[note ->]|(bc & bds & main_branch & note & bc' & sel
                                & _ & _ & _ & _ & _ & ->)]);
    (eexists; split; [done|]; split; [done|]);
    by rewrite <- (collect_evidence_het_count clf sample_geno ev Hev).
Qed.

(** ** Confidence and candidate order *)

(** X16: the clamp of [score_confidence] never acts: the confidence is the
    base value minus the penalties, and it lies between 0.30 and 0.95. *)
Theorem score_confidence_is_never_clamped (clf : classifier)
    (direct_status : GenotypeStatus) (best_n_snps : nat)
    (ancestor_conflicts : list string) (het_count : nat) :
  let confidence :=
    score_confidence clf direct_status best_n_snps ancestor_conflicts het_count in
  confidence = penalised_confidence (is_true_opt (is_derived clf direct_status))
                 best_n_snps (negb (bool_decide (ancestor_conflicts = []))) het_count
  /\ PrimFloat.leb 0.3 confidence = true
  /\ PrimFloat.leb confidence 0.95 = true.
Proof.
  cbv zeta. unfold score_confidence, penalised_confidence, base_confidence.
  destruct (is_true_opt _), (negb _), (10 <? het_count);
    repeat match goal with |- context [?a <=? ?b] => destruct (a <=? b) end;
    repeat split; vm_compute; reflexivity.
Qed.

(** X17: more supporting SNPs never lower the confidence, and recorded
    ancestor conflicts never raise it. *)
Theorem score_confidence_monotone (clf : classifier) (direct_status : GenotypeStatus)
    (n n' : nat) (ancestor_conflicts : list string) (het_count : nat) :
  (n <= n')%nat ->
  PrimFloat.leb (score_confidence clf direct_status n ancestor_conflicts het_count)
                (score_confidence clf direct_status n' ancestor_conflicts het_count)
  = true
  /\ PrimFloat.leb (score_confidence clf direct_status n ancestor_conflicts het_count)
                   (score_confidence clf direct_status n [] het_count)
     = true.
Proof.
  intros Hle. unfold score_confidence.
  destruct (is_true_opt _), (bool_decide (ancestor_conflicts = [])), (10 <? het_count);
    repeat match goal with |- context [?a <=? ?b] => destruct (Nat.leb_spec a b) end;
    try lia; split; vm_compute; reflexivity.
Qed.

Lemma score_confidence_monotone_witness :
  PrimFloat.leb (score_confidence kr_classifier DERIVED 2 ["K(ancestral)"] 0)
                (score_confidence kr_classifier DERIVED 5 ["K(ancestral)"] 0) = true
  /\ PrimFloat.leb (score_confidence kr_classifier DERIVED 2 ["K(ancestral)"] 0)
                   (score_confidence kr_classifier DERIVED 2 [] 0) = true.
Proof. apply score_confidence_monotone. lia. Defined.

(** X18: the sorted candidate list is a permutation of the candidates,
    descends in the key (depth, number of SNPs), and keeps candidates of
    equal key in their original order. *)
Theorem candidates_sort_is_stable_and_descending (l : list candidate) :
  sort_candidates l ≡ₚ l
  /\ StronglySorted key_ge (sort_candidates l)
  /\ forall k, List.filter (fun c => bool_decide (sort_key c = k)) (sort_candidates l)
               = List.filter (fun c => bool_decide (sort_key c = k)) l.
Proof.
  split; [apply sort_candidates_perm|]. split; [apply sort_candidates_sorted|].
  intros k. apply sort_candidates_stable.
Qed.


(** ** The heterozygous policy and rejected candidates *)

Section het_policy.
Variables hm hm' : string.
Variable pt : gmap string string.
Variable ns : list (string * list string).
Variable s2i : gmap string snp_info.
Variable p2h : list (Z * list haplo_entry).
Hypothesis Hstrict : String.eqb hm "strict" = String.eqb hm' "strict".
Hypothesis Hlenient :
  in_list hm ["moderate"; "lenient"] = in_list hm' ["moderate"; "lenient"].

Local Abbreviation clf :=
  {| het_mode := hm; phylo_tree := pt; node_snps := ns; snp_to_info := s2i;
     pos_to_haplo := p2h |}.
Local Abbreviation clf' :=
  {| het_mode := hm'; phylo_tree := pt; node_snps := ns; snp_to_info := s2i;
     pos_to_haplo := p2h |}.

Lemma for_each_ext {A S : Type} (body body' : S -> A -> outcome S) (l : list A) (st : S) :
  (forall st x, body st x = body' st x) ->
  for_each body l st = for_each body' l st.
Proof.
  intros Hbody. revert st. induction l as [|x l IH]; intros st; cbn [for_each]; [done|].
  rewrite Hbody. destruct (body' st x); cbn [mbind outcome_bind]; [apply IH|done].
Qed.

Lemma is_derived_policy status : is_derived clf status = is_derived clf' status.
Proof. unfold is_derived. cbn [het_mode]. by rewrite Hstrict. Qed.

Lemma collect_evidence_policy sample_geno :
  collect_evidence clf sample_geno = collect_evidence clf' sample_geno.
Proof.
  unfold collect_evidence. cbn [pos_to_haplo]. apply for_each_ext.
  intros st [pos entries]. unfold collect_position.
  destruct (negb _); [done|]. destruct (dict_item sample_geno pos) as [g|]; [|done].
  cbn [mbind outcome_bind].
  rewrite (for_each_ext (collect_entry clf pos g) (collect_entry clf' pos g)); [done|].
  intros [dh ans] [[[haplo snp_name] ref] alt]. unfold collect_entry.
  destruct g as [[gt vcf_ref] vcf_alt]. by rewrite is_derived_policy.
Qed.

Lemma select_by_defining_snp_policy bds bc branches :
  select_by_defining_snp clf bds bc branches = select_by_defining_snp clf' bds bc branches.
Proof.
  induction branches as [|branch rest IH]; [done|]. cbn [select_by_defining_snp].
  rewrite IH. destruct (od_get branch bds) as [status|]; [|done].
  cbn [mbind option_bind]. by rewrite is_derived_policy.
Qed.

Lemma basal_f_derived_policy sample_geno :
  basal_f_derived clf sample_geno = basal_f_derived clf' sample_geno.
Proof.
  unfold basal_f_derived. cbn [snp_to_info].
  destruct (dict_mem F_DEFINING_SNP s2i); [|done].
  destruct (dict_item s2i F_DEFINING_SNP) as [info|]; [|done]. cbn [mbind outcome_bind].
  destruct (dict_mem _ sample_geno); [|done].
  destruct (dict_item sample_geno _) as [[[gt vcf_ref] vcf_alt]|]; [|done].
  cbn [mbind outcome_bind]. by rewrite is_derived_policy.
Qed.

Lemma select_main_branch_policy sample_geno bds bc :
  select_main_branch clf sample_geno bds bc = select_main_branch clf' sample_geno bds bc.
Proof.
  unfold select_main_branch.
  by rewrite select_by_defining_snp_policy, basal_f_derived_policy.
Qed.

Lemma check_chain_policy ans relevant :
  check_chain clf ans relevant = check_chain clf' ans relevant.
Proof. unfold check_chain. cbn [het_mode]. by rewrite Hlenient. Qed.

Lemma validate_candidates_policy ans main_branch candidates sel :
  validate_candidates clf ans main_branch candidates sel
  = validate_candidates clf' ans main_branch candidates sel.
Proof.
  revert sel. induction candidates as [|cand rest IH]; intros sel; [done|].
  cbn [validate_candidates phylo_tree].
  destruct (relevant_ancestors _ _) as [relevant|]; [|done]. cbn [mbind outcome_bind].
  rewrite check_chain_policy.
  destruct (check_chain clf' ans relevant) as [[[] conflicts]|]; [done| |done].
  cbn [mbind outcome_bind]. apply IH.
Qed.

Lemma subdivide_policy ans main_branch candidates :
  subdivide clf ans main_branch candidates = subdivide clf' ans main_branch candidates.
Proof. unfold subdivide. by rewrite validate_candidates_policy. Qed.

Lemma classify_sample_policy sample sample_geno :
  classify_sample clf sample sample_geno = classify_sample clf' sample sample_geno.
Proof.
  unfold classify_sample. rewrite collect_evidence_policy.
  destruct (collect_evidence clf' sample_geno) as [ev|]; [|done].
  cbn [mbind outcome_bind]. case_bool_decide; [done|].
  change (group_by_branch clf) with (group_by_branch clf').
  destruct (group_by_branch clf' _) as [bc|]; [|done]. cbn [mbind outcome_bind].
  case_bool_decide; [done|].
  change (branch_direct_status clf) with (branch_direct_status clf').
  destruct (branch_direct_status clf' sample_geno) as [bds|]; [|done].
  cbn [mbind outcome_bind]. rewrite select_main_branch_policy.
  destruct (select_main_branch clf' sample_geno bds bc) as [[[mb note] bc']|]; [|done].
  cbn [mbind outcome_bind]. destruct mb as [main_branch|]; [|done].
  destruct (truthy main_branch); [|done]. rewrite subdivide_policy.
  destruct (subdivide clf' _ _ _) as [sel|]; [|done]. cbn [mbind outcome_bind].
  unfold score_confidence. by rewrite is_derived_policy.
Qed.

End het_policy.

(** X28: [het_mode] reaches the result of [classify_sample] through two
    tests only, "is it strict" and "is it moderate or lenient": two
    classifier states with the same tree and index whose modes agree on
    both tests classify every sample alike. In particular [lenient] and
    [moderate] give the same results. *)
Theorem het_mode_acts_through_two_tests (clf clf' : classifier) (sample : string)
    (sample_geno : gmap Z genotype) :
  same_het_policy clf clf' ->
  classify_sample clf sample sample_geno = classify_sample clf' sample sample_geno.
Proof.
  destruct clf as [hm pt ns s2i p2h], clf' as [hm' pt' ns' s2i' p2h'].
  intros (Hpt & Hns & Hs2i & Hp2h & Hstrict & Hlenient). cbn in Hpt, Hns, Hs2i, Hp2h.
  subst pt' ns' s2i' p2h'. by apply classify_sample_policy.
Qed.

Lemma het_mode_acts_through_two_tests_witness :
  classify_sample kr_classifier "HG002" kr_sample
  = classify_sample kr_classifier_lenient "HG002" kr_sample.
Proof. apply het_mode_acts_through_two_tests. by repeat split. Defined.

Section rejected_candidates.
Variable clf : classifier.
Variable all_node_status : gmap string node_status.
Variable main_branch : string.

(** The chain is valid exactly when no conflict was recorded. *)
Lemma check_chain_valid_iff relevant chain_valid conflicts :
  check_chain clf all_node_status relevant = Ok (chain_valid, conflicts) ->
  chain_valid = true <-> conflicts = [].
Proof.
  unfold check_chain.
  refine (for_each_inv (fun st : bool * list string => st.1 = true <-> st.2 = [])
            _ _ _ (chain_valid, conflicts) _ _); [|done].
  intros [valid cs] anc st' _ Hst.
  destruct (dict_mem anc all_node_status); [|by intros [= <-]].
  destruct (dict_item all_node_status anc) as [info|]; [|done]. cbn [mbind outcome_bind].
  destruct (_ && negb _); [|by intros [= <-]].
  destruct (_ && in_list _ _); intros [= <-]; [done|]. cbn [fst snd].
  split; [done|]. by destruct cs.
Qed.

Lemma validate_candidates_records_rejected rejected cand rest sel conflicts :
  Forall (fun c => exists cs, chain_verdict clf all_node_status main_branch c = Ok (false, cs))
         rejected ->
  rejected <> [] ->
  chain_verdict clf all_node_status main_branch cand = Ok (true, conflicts) ->
  exists recorded,
    recorded <> []
    /\ validate_candidates clf all_node_status main_branch (rejected ++ cand :: rest) sel
       = Ok {| best_haplo := c_haplo cand; best_n_snps := c_n_snps cand;
               best_evidence := take 5 (c_snps cand);
               ancestor_conflicts := ancestor_conflicts sel ++ recorded |}.
Proof.
  intros Hrejected Hne Hcand.
  destruct Hrejected as [|c rejected [cs Hc] Hrejected]; [done|]. clear Hne.
  cbn [app validate_candidates]. unfold chain_verdict in Hc.
  destruct (relevant_ancestors main_branch _) as [relevant|]; [|done].
  cbn [mbind outcome_bind] in *. rewrite Hc. cbn [mbind outcome_bind].
  assert (cs <> []) as Hcs.
  { intros Hnil. by apply (check_chain_valid_iff _ _ _ Hc) in Hnil. }
  destruct (validate_candidates_first_valid clf all_node_status main_branch
              rejected cand rest
              {| best_haplo := best_haplo sel; best_n_snps := best_n_snps sel;
                 best_evidence := best_evidence sel;
                 ancestor_conflicts := ancestor_conflicts sel ++ cs |}
              conflicts Hrejected Hcand) as [recorded ->].
  exists (cs ++ recorded). split; [by destruct cs|]. cbn. by rewrite app_assoc.
Qed.

Lemma score_is_penalised direct_status best_n_snps conflicts het_count :
  score_confidence clf direct_status best_n_snps conflicts het_count
  = penalised_confidence (is_true_opt (is_derived clf direct_status)) best_n_snps
                         (negb (bool_decide (conflicts = []))) het_count.
Proof.
  unfold score_confidence, penalised_confidence, base_confidence.
  destruct (is_true_opt _), (negb _), (10 <? het_count);
    repeat match goal with |- context [?a <=? ?b] => destruct (a <=? b) end;
    vm_compute; reflexivity.
Qed.

End rejected_candidates.

(** X29: when step 4 selects a candidate after rejecting deeper ones, the
    chain of the selected candidate has no conflict, yet the conflicts of
    the rejected candidates stay recorded, and the confidence carries the
    conflict penalty. *)
Theorem rejected_candidates_lower_the_confidence (clf : classifier)
    (all_node_status : gmap string node_status) (main_branch : string)
    (rejected : list candidate) (cand : candidate) (rest : list candidate)
    (conflicts : list string) (direct_status : GenotypeStatus) (het_count : nat) :
  Forall (fun c => exists cs, chain_verdict clf all_node_status main_branch c = Ok (false, cs))
         rejected ->
  rejected <> [] ->
  chain_verdict clf all_node_status main_branch cand = Ok (true, conflicts) ->
  c_haplo cand <> main_branch ->
  conflicts = []
  /\ exists sel,
       subdivide clf all_node_status main_branch (rejected ++ cand :: rest) = Ok sel
       /\ best_haplo sel = c_haplo cand
       /\ ancestor_conflicts sel <> []
       /\ score_confidence clf direct_status (best_n_snps sel) (ancestor_conflicts sel)
                           het_count
          = penalised_confidence (is_true_opt (is_derived clf direct_status))
                                 (c_n_snps cand) true het_count.
Proof.
  intros Hrejected Hne Hcand Hname. split.
  { unfold chain_verdict in Hcand.
    destruct (relevant_ancestors main_branch _) as [relevant|]; [|done].
    cbn [mbind outcome_bind] in Hcand. by apply (check_chain_valid_iff _ _ _ _ _ Hcand). }
  unfold subdivide.
  destruct (validate_candidates_records_rejected clf all_node_status main_branch
              rejected cand rest
              {| best_haplo := main_branch; best_n_snps := 0; best_evidence := [];
                 ancestor_conflicts := [] |} conflicts Hrejected Hne Hcand)
    as (recorded & Hrecorded & ->).
  cbn [mbind outcome_bind best_haplo ancestor_conflicts app].
  replace (String.eqb (c_haplo cand) main_branch) with false
    by (symmetry; by apply String.eqb_neq).
  cbn [andb]. eexists. split; [done|]. cbn [best_haplo ancestor_conflicts best_n_snps].
  split; [done|]. split; [done|].
  rewrite score_is_penalised. by rewrite bool_decide_eq_false_2.
Qed.

Lemma rejected_candidates_lower_the_confidence_witness :
  @nil string = []
  /\ exists sel,
       subdivide r_tree_classifier r1_ancestral_status "R"
                 ([r1a_candidate] ++ r2_candidate :: []) = Ok sel
       /\ best_haplo sel = "R2"
       /\ ancestor_conflicts sel <> []
       /\ score_confidence r_tree_classifier DERIVED (best_n_snps sel)
                           (ancestor_conflicts sel) 0
          = penalised_confidence true 1 true 0.
Proof.
  apply (rejected_candidates_lower_the_confidence r_tree_classifier r1_ancestral_status
           "R" [r1a_candidate] r2_candidate [] [] DERIVED 0).
  - constructor; [|constructor]. eexists. vm_compute. reflexivity.
  - discriminate.
  - vm_compute. reflexivity.
  - discriminate.
Defined.

(** ** Node status *)

Section node_status.

Lemma od_get_absent {K V : Type} `{EqDecision K} (k : K) (d : list (K * V)) :
  k ∉ d.*1 -> od_get k d = None.
Proof.
  induction d as [|[k0 v0] d IH]; cbn [od_get fmap list_fmap fst]; [done|].
  intros Hout. destruct (decide (k = k0)) as [->|_]; [set_solver|].
  apply IH. set_solver.
Qed.

Lemma locate_snps_loop (snp_to_info : gmap string snp_info) snps :
  forall positions : list located_snp,
  foldl (fun positions snp =>
           match snp_to_info !! snp with
           | Some (pos, ref, alt) => positions ++ [(snp, pos, ref, alt)]
           | None => positions
           end) positions snps
  = positions ++ omap (fun snp => (fun info : snp_info => (snp, info.1.1, info.1.2, info.2))
                                    <$> snp_to_info !! snp) snps.
Proof.
  induction snps as [|snp snps IH]; intros positions; cbn [foldl].
  - cbn. by rewrite app_nil_r.
  - rewrite IH. cbn [omap list_omap].
    destruct (snp_to_info !! snp) as [[[pos ref] alt]|]; cbn; [|reflexivity].
    by rewrite <- app_assoc.
Qed.

Lemma build_positions_loop (snp_to_info : gmap string snp_info) (node : string)
    (items : list (string * list string)) :
  forall acc : list (string * list located_snp),
  NoDup items.*1 ->
  od_get node (foldl (fun node_snp_positions item =>
                        let '(node, snps) := item in
                        od_set node (locate_snps snp_to_info snps) node_snp_positions)
                     acc items)
  = match od_get node items with
    | Some snps => Some (locate_snps snp_to_info snps)
    | None => od_get node acc
    end.
Proof.
  induction items as [|[k snps] items IH]; intros acc; [done|].
  cbn [fmap list_fmap fst]. intros [Hk Hnodup]%NoDup_cons.
  cbn [foldl od_get]. rewrite (IH _ Hnodup).
  destruct (decide (node = k)) as [->|Hne].
  - rewrite (od_get_absent k items Hk). by rewrite od_get_od_set, decide_True.
  - destruct (od_get node items); [done|]. by rewrite od_get_od_set, decide_False.
Qed.

Lemma check_located_loop sample_geno positions : forall st,
  foldl (check_located sample_geno) st positions
  = (st.1.1.1 ++ snps_with (is_status DERIVED) sample_geno positions,
     st.1.1.2 ++ snps_with (is_status ANCESTRAL) sample_geno positions,
     st.1.2 ++ snps_with (is_status HETEROZYGOUS) sample_geno positions,
     st.2 ++ snps_with (fun s => is_status MISSING s || is_status MISMATCH s)
                       sample_geno positions).
Proof.
  induction positions as [|[[[snp pos] ref] alt] positions IH];
    intros [[[derived ancestral] het] missing]; cbn [foldl fst snd].
  - unfold snps_with. cbn. by rewrite !app_nil_r.
  - rewrite IH. unfold snps_with, check_located, located_status. cbn [List.filter].
    destruct (sample_geno !! pos) as [[[gt vcf_ref] vcf_alt]|];
      [destruct (check_genotype gt vcf_ref vcf_alt ref alt)|];
      cbn [is_status bool_decide decide_rel fst snd fmap list_fmap orb];
      repeat (case_bool_decide; try discriminate); cbn [fst snd fmap list_fmap orb];
      by rewrite <- ?app_assoc.
Qed.

End node_status.

(** X10: [check_node_status] on the map built by
    [_build_node_snp_positions]: the SNPs it considers are those of the
    node that the index knows, in tree order; the four lists it returns
    split them by status (a SNP without a call, and a mismatch, count as
    missing); and the overall status is "derived" as soon as one SNP is
    derived, else "ancestral" as soon as one is ancestral, else "het" as
    soon as one is heterozygous, else "missing". *)
Theorem check_node_status_partitions_located_snps (clf : classifier) (node : string)
    (sample_geno : gmap Z genotype) :
  NoDup (node_snps clf).*1 ->
  let located :=
    omap (fun snp => (fun info : snp_info => (snp, info.1.1, info.1.2, info.2))
                       <$> snp_to_info clf !! snp)
         (default [] (od_get node (node_snps clf))) in
  let r := check_node_status (_build_node_snp_positions clf) node sample_geno in
  nc_derived_snps r = snps_with (is_status DERIVED) sample_geno located
  /\ nc_ancestral_snps r = snps_with (is_status ANCESTRAL) sample_geno located
  /\ nc_het_snps r = snps_with (is_status HETEROZYGOUS) sample_geno located
  /\ nc_missing_snps r
     = snps_with (fun s => is_status MISSING s || is_status MISMATCH s) sample_geno located
  /\ nc_status r
     = (if negb (bool_decide (nc_derived_snps r = [])) then "derived"
        else if negb (bool_decide (nc_ancestral_snps r = [])) then "ancestral"
        else if negb (bool_decide (nc_het_snps r = [])) then "het"
        else "missing").
Proof.
  intros Hnodup. cbv zeta. unfold check_node_status, _build_node_snp_positions.
  rewrite (build_positions_loop _ _ _ [] Hnodup).
  assert (default [] match od_get node (node_snps clf) with
                     | Some snps => Some (locate_snps (snp_to_info clf) snps)
                     | None => od_get node []
                     end
          = omap (fun snp => (fun info : snp_info => (snp, info.1.1, info.1.2, info.2))
                               <$> snp_to_info clf !! snp)
                 (default [] (od_get node (node_snps clf)))) as ->.
  { destruct (od_get node (node_snps clf)) as [snps|]; [|done].
    cbn [default from_option id]. unfold locate_snps. by rewrite locate_snps_loop. }
  rewrite check_located_loop. cbn [fst snd app]. 
  repeat split.
  repeat case_bool_decide; done.
Qed.

Lemma check_node_status_partitions_located_snps_witness :
  let r := check_node_status (_build_node_snp_positions kr_classifier) "R" kr_sample in
  nc_derived_snps r = ["M207"] /\ nc_status r = "derived".
Proof.
  pose proof (check_node_status_partitions_located_snps kr_classifier "R" kr_sample) as H.
  cbv zeta in *. destruct H as (Hd & _ & _ & _ & Hs).
  - vm_compute. repeat constructor; compute_done.
  - rewrite Hs, Hd. split; vm_compute; reflexivity.
Defined.

(** ** Reading the VCF and classifying every sample *)

Section vcf.

Lemma for_each_app {A S : Type} (body : S -> A -> outcome S) (l1 l2 : list A) (st : S) :
  for_each body (l1 ++ l2) st = (st' ← for_each body l1 st; for_each body l2 st').
Proof.
  revert st. induction l1 as [|x l1 IH]; intros st; cbn [app for_each]; [done|].
  destruct (body st x) as [st1|]; cbn [mbind outcome_bind]; [apply IH|done].
Qed.

Lemma imap_pair_snoc {A : Type} (l : list A) (x : A) :
  imap pair (l ++ [x]) = imap pair l ++ [(length l, x)].
Proof. rewrite imap_app. cbn. by rewrite Nat.add_0_r. Qed.

Lemma sample_call_insert sample_geno sample pos g s p :
  sample_call (<[sample := <[pos := g]> (default ∅ (sample_geno !! sample))]> sample_geno) s p
  = if decide (s = sample /\ p = pos) then Some g else sample_call sample_geno s p.
Proof.
  unfold sample_call. destruct (decide (s = sample)) as [->|Hs].
  - rewrite lookup_insert_eq. cbn [from_option id].
    destruct (decide (p = pos)) as [->|Hp].
    + rewrite lookup_insert_eq. by rewrite decide_True.
    + rewrite lookup_insert_ne by done. rewrite decide_False by tauto. done.
  - rewrite lookup_insert_ne by done. rewrite decide_False by tauto. done.
Qed.

Lemma record_call_cases parts pos ref alt sample_geno i sample :
  record_call parts pos ref alt sample_geno (i, sample)
  = match parts !! (9 + i)%nat with
    | Some field =>
        Ok (<[sample := <[pos := (default "" (split ":" field !! 0%nat), ref, alt)]>
                          (default ∅ (sample_geno !! sample))]> sample_geno)
    | None => Raise IndexError
    end.
Proof.
  unfold record_call, list_item. destruct (parts !! (9 + i)%nat) as [field|]; [|done].
  cbn [mbind outcome_bind]. by destruct (split_cons ":" field) as (piece & pieces & ->).
Qed.

(** Storing the calls of one record when it has a column for every
    sample: the last column of a sample name is the one kept. *)
Lemma record_calls_ok parts pos samples sample_geno :
  (9 + length samples <= length parts)%nat ->
  exists sample_geno',
    for_each (record_call parts pos (default "" (parts !! 3%nat)) (default "" (parts !! 4%nat)))
             (imap pair samples) sample_geno = Ok sample_geno'
    /\ (forall s p, p <> pos \/ s ∉ samples ->
          sample_call sample_geno' s p = sample_call sample_geno s p)
    /\ (forall i s, samples !! i = Some s ->
          (forall j, (i < j)%nat -> samples !! j <> Some s) ->
          sample_call sample_geno' s pos = Some (record_genotype parts i)).
Proof.
  induction samples as [|sample samples IH] using rev_ind; intros Hlen.
  - exists sample_geno. split; [done|]. split; [done|]. intros i s Hi. done.
  - rewrite length_app in Hlen. cbn [length] in Hlen.
    destruct IH as (geno1 & Hloop & Hother & Hstored); [lia|].
    rewrite imap_pair_snoc, for_each_app, Hloop. cbn [mbind outcome_bind for_each].
    rewrite record_call_cases.
    destruct (lookup_lt_is_Some_2 parts (9 + length samples)) as [field Hfield]; [lia|].
    rewrite Hfield. cbn [mbind outcome_bind]. eexists. split; [done|]. split.
    + intros s p Hout. rewrite sample_call_insert.
      rewrite decide_False.
      * apply Hother. destruct Hout as [?|Hout]; [by left|]. right.
        intros Hin. apply Hout, elem_of_app. by left.
      * intros [-> ->]. destruct Hout as [?|Hout]; [done|].
        apply Hout, elem_of_app. right. left.
    + intros i s Hi Hlast. rewrite sample_call_insert.
      destruct (decide (i = length samples)) as [->|Hne].
      * rewrite lookup_app_r, Nat.sub_diag in Hi by lia. injection Hi as <-.
        rewrite decide_True by done. unfold record_genotype. by rewrite Hfield.
      * assert (i < length samples)%nat as Hlt.
        { apply lookup_lt_Some in Hi. rewrite length_app in Hi. cbn in Hi. lia. }
        rewrite lookup_app_l in Hi by done.
        rewrite decide_False.
        -- apply (Hstored i s Hi). intros j Hj Hjs. apply (Hlast j Hj).
           by apply lookup_app_l_Some.
        -- intros [-> _]. apply (Hlast (length samples) Hlt).
           by rewrite lookup_app_r, Nat.sub_diag by lia.
Qed.

(** A record with fewer columns than samples: [IndexError]. *)
Lemma record_calls_short parts pos ref alt samples sample_geno :
  (9 <= length parts)%nat -> (length parts < 9 + length samples)%nat ->
  for_each (record_call parts pos ref alt) (imap pair samples) sample_geno
  = Raise IndexError.
Proof.
  induction samples as [|sample samples IH] using rev_ind; intros Hmin Hlen.
  - cbn in Hlen. lia.
  - rewrite length_app in Hlen. cbn [length] in Hlen.
    rewrite imap_pair_snoc, for_each_app.
    destruct (decide (length parts < 9 + length samples)%nat) as [Hshort|Hlong].
    + by rewrite IH.
    + destruct (for_each _ (imap pair samples) sample_geno) as [geno1|e] eqn:Hloop.
      * cbn [mbind outcome_bind for_each]. rewrite record_call_cases.
        rewrite lookup_ge_None_2 by lia. done.
      * cbn [mbind outcome_bind].
        assert (forall l st e', for_each (record_call parts pos ref alt) l st = Raise e' ->
                  e' = IndexError) as Honly.
        { clear. induction l as [|[i s] l IHl]; intros st e'; cbn [for_each]; [done|].
          rewrite record_call_cases. destruct (parts !! (9 + i)%nat); cbn [mbind outcome_bind].
          - apply IHl.
          - by intros [= <-]. }
        by rewrite (Honly _ _ _ Hloop).
Qed.

Lemma load_vcf_line_other st line :
  is_y_record line = false ->
  load_vcf_line st line
  = Ok (if is_header_line line then (drop 9 (vcf_fields line), st.1.2, st.2) else st).
Proof.
  destruct st as [[samples sample_geno] y_count].
  unfold is_y_record, is_header_line, load_vcf_line, vcf_fields.
  destruct (startswith line "##"); [done|].
  destruct (startswith line "#CHROM"); [done|]. cbn [negb andb].
  destruct (length _ <? 10) eqn:Hlen.
  { done. }
  apply Nat.ltb_ge in Hlen. rewrite (proj2 (Nat.leb_le _ _) Hlen). cbn [andb].
  unfold list_item. destruct (split TAB (strip line)) as [|chrom parts];
    [cbn in Hlen; lia|].
  cbn [lookup list_lookup from_option id mbind outcome_bind]. by intros ->.
Qed.

Lemma load_vcf_line_record samples sample_geno y_count line :
  is_y_record line = true ->
  let fields := vcf_fields line in
  load_vcf_line (samples, sample_geno, y_count) line
  = (pos ← py_int (default "" (fields !! 1%nat));
     sample_geno ← for_each (record_call fields pos (default "" (fields !! 3%nat))
                                         (default "" (fields !! 4%nat)))
                            (imap pair samples) sample_geno;
     Ok (samples, sample_geno, S y_count))
  /\ (10 <= length fields)%nat.
Proof.
  unfold is_y_record, load_vcf_line, vcf_fields.
  destruct (startswith line "##"); [done|].
  destruct (startswith line "#CHROM"); [done|]. cbn [negb andb].
  destruct (10 <=? length _) eqn:Hlen; [|done]. apply Nat.leb_le in Hlen.
  cbn [andb]. intros Hchrom. cbv zeta.
  rewrite (proj2 (Nat.ltb_ge _ _) Hlen). split; [|done].
  destruct (split TAB (strip line)) as [|f0 [|f1 [|f2 [|f3 [|f4 parts]]]]];
    try (cbn in Hlen; lia).
  unfold list_item. cbn [lookup list_lookup from_option id mbind outcome_bind] in *.
  rewrite Hchrom. done.
Qed.

End vcf.

Section vcf_file.

Lemma last_occurrence {A : Type} `{EqDecision A} (x : A) (l : list A) :
  x ∈ l -> exists i, l !! i = Some x /\ forall j, (i < j)%nat -> l !! j <> Some x.
Proof.
  induction l as [|y l IH] using rev_ind; [by intros ?%elem_of_nil|].
  intros Hin. destruct (decide (x = y)) as [->|Hne].
  - exists (length l). split; [by rewrite lookup_app_r, Nat.sub_diag by lia|].
    intros j Hj Hlook. apply lookup_lt_Some in Hlook. rewrite length_app in Hlook.
    cbn in Hlook. lia.
  - apply elem_of_app in Hin as [Hin|Hin%list_elem_of_singleton]; [|done].
    destruct (IH Hin) as (i & Hi & Hlast). exists i.
    split; [by apply lookup_app_l_Some|].
    intros j Hj Hlook. apply lookup_app_Some in Hlook as [Hlook|[_ Hlook]].
    + by apply (Hlast j).
    + destruct (j - length l)%nat; [|done]. cbn in Hlook. congruence.
Qed.

(** What one record line does. *)
Lemma load_vcf_record samples sample_geno y_count line :
  is_y_record line = true ->
  let fields := vcf_fields line in
  match py_int (default "" (fields !! 1%nat)) with
  | Raise _ => load_vcf_line (samples, sample_geno, y_count) line = Raise ValueError
  | Ok pos =>
      if length fields <? 9 + length samples
      then load_vcf_line (samples, sample_geno, y_count) line = Raise IndexError
      else exists sample_geno',
             load_vcf_line (samples, sample_geno, y_count) line
             = Ok (samples, sample_geno', S y_count)
             /\ (forall s p, p <> pos \/ s ∉ samples ->
                   sample_call sample_geno' s p = sample_call sample_geno s p)
             /\ (forall i s, samples !! i = Some s ->
                   (forall j, (i < j)%nat -> samples !! j <> Some s) ->
                   sample_call sample_geno' s pos = Some (record_genotype fields i))
  end.
Proof.
  intros Hrecord. destruct (load_vcf_line_record samples sample_geno y_count line Hrecord)
    as [Hline Hlen]. cbv zeta in *. rewrite Hline.
  unfold py_int. destruct (match strip _ with EmptyString => _ | _ => _ end) as [pos|];
    [|done].
  cbn [mbind outcome_bind].
  destruct (length (vcf_fields line) <? 9 + length samples) eqn:Hcols.
  - apply Nat.ltb_lt in Hcols. rewrite record_calls_short by lia. done.
  - apply Nat.ltb_ge in Hcols.
    destruct (record_calls_ok (vcf_fields line) pos samples sample_geno Hcols)
      as (geno' & -> & Hother & Hstored).
    cbn [mbind outcome_bind]. by exists geno'.
Qed.

Lemma load_vcf_file lines : forall st,
  for_each load_vcf_line lines ([], ∅, 0%nat) = Ok st ->
  st.1.1 = header_samples lines
  /\ st.2 = length (List.filter is_y_record lines)
  /\ forall s p g, sample_call st.1.2 s p = Some g -> call_from_record lines p g.
Proof.
  induction lines as [|line lines IH] using rev_ind; intros st.
  - intros [= <-]. split; [done|]. split; [done|]. intros s p g. unfold sample_call.
    cbn. by rewrite lookup_empty.
  - rewrite for_each_app.
    destruct (for_each load_vcf_line lines _) as [[[samples geno] y]|] eqn:Hloop; [|done].
    destruct (IH _ eq_refl) as (Hsamples & Hcount & Hsound). cbn [fst snd] in *.
    cbn [mbind outcome_bind for_each].
    unfold header_samples. rewrite !List.filter_app. cbn [List.filter].
    assert (forall p g, call_from_record lines p g -> call_from_record (lines ++ [line]) p g)
      as Hmono.
    { intros p g (l & i & Hin & ?). exists l, i. split; [|done]. apply elem_of_app. by left. }
    destruct (is_y_record line) eqn:Hrecord.
    + pose proof (load_vcf_record samples geno y line Hrecord) as Hstep. cbv zeta in Hstep.
      assert (is_header_line line = false) as ->.
      { unfold is_y_record, is_header_line in *. destruct (startswith line "##"); [done|].
        by destruct (startswith line "#CHROM"). }
      rewrite app_nil_r. fold (header_samples lines).
      destruct (py_int _) as [pos|] eqn:Hpos; [|by rewrite Hstep].
      destruct (_ <? _); [by rewrite Hstep|].
      destruct Hstep as (geno' & -> & Hother & Hstored). cbn [mbind outcome_bind].
      intros [= <-]. cbn [fst snd]. split; [done|].
      split; [rewrite length_app; cbn; lia|].
      intros s p g Hcall.
      destruct (decide (p = pos /\ s ∈ samples)) as [[-> Hin]|Hout].
      * destruct (last_occurrence s samples Hin) as (i & Hi & Hlast).
        rewrite (Hstored i s Hi Hlast) in Hcall. injection Hcall as <-.
        exists line, i. split; [apply elem_of_app; right; left|]. done.
      * apply Hmono, (Hsound s). rewrite <- Hcall. symmetry. apply Hother.
        destruct (decide (p = pos)); [right|left]; tauto.
    + rewrite (load_vcf_line_other _ _ Hrecord). cbn [mbind outcome_bind fst snd].
      rewrite app_nil_r. intros [= <-].
      destruct (is_header_line line) eqn:Hheader; cbn [fst snd].
      * rewrite last_snoc. split; [done|]. split; [done|].
        intros s p g Hcall. by apply Hmono, (Hsound s).
      * rewrite app_nil_r. split; [done|]. split; [done|].
        intros s p g Hcall. by apply Hmono, (Hsound s).
Qed.

End vcf_file.



(** X21: when [load_vcf] returns, the samples are the columns after the
    ninth of the last header line, the count is the number of Y records,
    and every stored call was read off a Y record of the file at the
    position of that record. *)
Theorem load_vcf_returns_y_records (lines samples : list string)
    (sample_geno : gmap string (gmap Z genotype)) (y_count : nat) :
  load_vcf lines = Ok (samples, sample_geno, y_count) ->
  samples = header_samples lines
  /\ y_count = length (List.filter is_y_record lines)
  /\ forall sample pos g,
       sample_call sample_geno sample pos = Some g -> call_from_record lines pos g.
Proof. intros Hload. apply (load_vcf_file lines _ Hload). Qed.

Lemma load_vcf_returns_y_records_witness :
  ["HG002"] = header_samples small_vcf
  /\ 1%nat = length (List.filter is_y_record small_vcf)
  /\ forall sample pos g,
       sample_call {["HG002" := {[100%Z := ("1/1", "A", "G")]}]} sample pos = Some g ->
       call_from_record small_vcf pos g.
Proof. apply load_vcf_returns_y_records. vm_compute. reflexivity. Defined.

Section classification_loop.
Variable clf : classifier.
Variable sample_geno : gmap string (gmap Z genotype).

Lemma classify_all_loop samples : forall results0,
  exists results,
    for_each (fun results sample =>
                result ← classify_sample clf sample (default ∅ (sample_geno !! sample));
                Ok (results ++ [result])) samples results0
    = Ok (results0 ++ results)
    /\ Forall2 (fun sample r =>
                  classify_sample clf sample (default ∅ (sample_geno !! sample)) = Ok r)
               samples results.
Proof.
  induction samples as [|sample samples IH]; intros results0; cbn [for_each].
  - exists []. by rewrite app_nil_r.
  - destruct (classify_sample_paths clf sample (default ∅ (sample_geno !! sample)))
      as (ev & _ & Hpaths).
    assert (exists r, classify_sample clf sample (default ∅ (sample_geno !! sample)) = Ok r)
      as [r Hr].
    { destruct Hpaths as [[note ->]|(? & ? & ? & ? & ? & ? & _ & _ & _ & _ & _ & ->)]; eauto. }
    rewrite Hr. cbn [mbind outcome_bind].
    destruct (IH (results0 ++ [r])) as (results & -> & Hall).
    exists (r :: results). split; [by rewrite <- app_assoc|]. by constructor.
Qed.

Lemma classify_sample_name sample calls r :
  classify_sample clf sample calls = Ok r -> r_sample r = sample.
Proof.
  destruct (classify_sample_paths clf sample calls)
    as (ev & _ & [[note ->]|(? & ? & ? & ? & ? & ? & _ & _ & _ & _ & _ & ->)]);
    by intros [= <-].
Qed.

Lemma classify_no_calls sample (calls : gmap Z genotype) :
  (forall pos, calls !! pos = None) ->
  classify_sample clf sample calls = Ok (unknown_result sample 0 "No derived SNPs").
Proof.
  intros Hnone. unfold classify_sample.
  rewrite collect_evidence_no_overlap; [done|].
  apply Forall_forall. intros pos _. apply Hnone.
Qed.

End classification_loop.

(** X22: the classification loop of [main] never raises and returns one
    result per sample, in the order of the samples: the result at index [i]
    is what [classify_sample] returns for sample [i] and its calls, and
    carries its name. *)
Theorem classify_all_one_result_per_sample (clf : classifier) (samples : list string)
    (sample_geno : gmap string (gmap Z genotype)) :
  exists results,
    classify_all clf samples sample_geno = Ok results
    /\ r_sample <$> results = samples
    /\ forall i sample r, samples !! i = Some sample -> results !! i = Some r ->
         classify_sample clf sample (default ∅ (sample_geno !! sample)) = Ok r.
Proof.
  destruct (classify_all_loop clf sample_geno samples []) as (results & Hloop & Hall).
  exists results. split; [exact Hloop|]. clear Hloop. split.
  - induction Hall as [|sample r samples results Hr _ IH]; [done|].
    cbn [fmap list_fmap]. f_equal; [|exact IH].
    by apply (classify_sample_name clf _ _ _ Hr).
  - intros i sample r Hi Hri. by apply (Forall2_lookup_lr _ _ _ i _ _ Hall).
Qed.

(** X23: a VCF in which [load_vcf] counts no Y record: every sample is
    reported as Unknown, with the note "No derived SNPs". *)
Theorem no_y_records_all_unknown (clf : classifier) (lines samples : list string)
    (sample_geno : gmap string (gmap Z genotype)) :
  load_vcf lines = Ok (samples, sample_geno, 0%nat) ->
  classify_all clf samples sample_geno
  = Ok ((fun sample => unknown_result sample 0 "No derived SNPs") <$> samples).
Proof.
  intros Hload. destruct (load_vcf_file lines _ Hload) as (_ & Hcount & Hsound).
  cbn [fst snd] in *.
  assert (forall sample pos, default ∅ (sample_geno !! sample) !! pos = None) as Hnone.
  { intros sample pos. destruct (default ∅ (sample_geno !! sample) !! pos) as [g|] eqn:Hcall;
      [|done].
    destruct (Hsound sample pos g Hcall) as (line & i & Hin & Hrecord & _).
    assert (line ∈ List.filter is_y_record lines) as Hfiltered.
    { apply list_elem_of_In, List.filter_In. split; [by apply list_elem_of_In|done]. }
    destruct (List.filter is_y_record lines); [by apply elem_of_nil in Hfiltered|done]. }
  destruct (classify_all_loop clf sample_geno samples []) as (results & Hloop & Hall).
  unfold classify_all. rewrite Hloop. cbn [app]. f_equal. clear Hloop Hload.
  induction Hall as [|sample r samples results Hr _ IH]; [done|].
  cbn [fmap list_fmap]. f_equal; [|exact IH].
  rewrite classify_no_calls in Hr by apply Hnone. congruence.
Qed.

Lemma no_y_records_all_unknown_witness :
  classify_all kr_classifier ["HG002"] ∅
  = Ok [unknown_result "HG002" 0 "No derived SNPs"].
Proof. apply (no_y_records_all_unknown kr_classifier (take 3 small_vcf)). vm_compute. reflexivity. Defined.

(** ** The generator *)

Section generator_strings.
Import GenerateYHapLZ.

Lemma contains_tab_cons c s :
  contains TAB (String c s) = false <-> c <> "009"%char /\ contains TAB s = false.
Proof.
  cbn [contains TAB String.prefix].
  destruct (ascii_dec "009" c) as [<-|Hne].
  - destruct s; cbn; split; [done| |done|]; intros [? _]; done.
  - cbn [orb]. split; [intros ?; split; [congruence|done]|by intros [_ ?]].
Qed.

Lemma count_indent_tabs n s :
  count_indent (tabs_str n +:+ s) = (n + count_indent s)%nat.
Proof.
  induction n as [|n IH]; [done|].
  change (count_indent (tabs_str (S n) +:+ s)) with (S (count_indent (tabs_str n +:+ s))).
  by rewrite IH.
Qed.

Lemma lstrip_tabs n s :
  lstrip_by is_space (tabs_str n +:+ s) = lstrip_by is_space s.
Proof.
  induction n as [|n IH]; [done|].
  change (lstrip_by is_space (tabs_str (S n) +:+ s))
    with (lstrip_by is_space (tabs_str n +:+ s)).
  exact IH.
Qed.

Lemma lstrip_result p s :
  lstrip_by p s = "" \/ exists c r, lstrip_by p s = String c r /\ p c = false.
Proof.
  induction s as [|c s IH]; [by left|]. cbn [lstrip_by].
  destruct (p c) eqn:Hc; [exact IH|]. right. by exists c, s.
Qed.

Lemma lstrip_keeps_head p c s : p c = false -> lstrip_by p (String c s) = String c s.
Proof. intros Hc. cbn [lstrip_by]. by rewrite Hc. Qed.

Lemma append_empty_r s : s +:+ "" = s.
Proof.
  induction s as [|c s IH]; [done|].
  change (String c s +:+ "") with (String c (s +:+ "")). by rewrite IH.
Qed.

Lemma rstrip_keeps_head p c s :
  p c = false -> exists r, rstrip_by p (String c s) = String c r.
Proof.
  intros Hc. cbn [rstrip_by]. destruct (rstrip_by p s); [rewrite Hc|]; eauto.
Qed.

Lemma rstrip_idem p s : rstrip_by p (rstrip_by p s) = rstrip_by p s.
Proof.
  induction s as [|c s IH]; [done|]. cbn [rstrip_by].
  destruct (rstrip_by p s) as [|d r] eqn:Hr.
  - destruct (p c) eqn:Hc; [done|]. cbn. by rewrite Hc.
  - cbn [rstrip_by] in *. by rewrite IH.
Qed.

Lemma strip_idem s : strip (strip s) = strip s.
Proof.
  unfold strip. destruct (lstrip_result is_space s) as [->|(c & r & -> & Hc)]; [done|].
  destruct (rstrip_keeps_head is_space c r Hc) as [r' Hr']. rewrite Hr'.
  cbn [lstrip_by]. rewrite Hc, <- Hr'. apply rstrip_idem.
Qed.

Lemma stripped_head c s : strip (String c s) = String c s -> is_space c = false.
Proof.
  unfold strip. destruct (lstrip_result is_space (String c s)) as [->|(d & r & -> & Hd)];
    [done|].
  destruct (rstrip_keeps_head is_space d r Hd) as [r' ->]. by intros [= -> _].
Qed.

Lemma stripped_rstrip s : strip s = s -> rstrip_by is_space s = s.
Proof.
  destruct s as [|c s]; [done|]. intros Hs. pose proof (stripped_head c s Hs) as Hc.
  unfold strip in Hs. cbn [lstrip_by] in Hs. by rewrite Hc in Hs.
Qed.

Lemma rstrip_app p a b :
  rstrip_by p (a +:+ b)
  = match rstrip_by p b with EmptyString => rstrip_by p a | r => a +:+ r end.
Proof.
  induction a as [|c a IH].
  - change ("" +:+ b) with b. destruct (rstrip_by p b); reflexivity.
  - change (String c a +:+ b) with (String c (a +:+ b)). cbn [rstrip_by].
    rewrite IH. destruct (rstrip_by p b) as [|d r]; [reflexivity|]. by destruct a.
Qed.

Lemma contains_tab_lstrip p s :
  contains TAB s = false -> contains TAB (lstrip_by p s) = false.
Proof.
  induction s as [|c s IH]; [done|]. intros Hs. cbn [lstrip_by].
  destruct (p c); [|done]. apply IH. by apply contains_tab_cons in Hs as [_ ?].
Qed.

Lemma contains_tab_rstrip p s :
  contains TAB s = false -> contains TAB (rstrip_by p s) = false.
Proof.
  induction s as [|c s IH]; [done|]. intros [Hc Hs]%contains_tab_cons.
  cbn [rstrip_by]. specialize (IH Hs). destruct (rstrip_by p s) as [|d r].
  - destruct (p c); [done|]. by apply contains_tab_cons.
  - by apply contains_tab_cons.
Qed.

Lemma contains_tab_strip s : contains TAB s = false -> contains TAB (strip s) = false.
Proof. intros Hs. by apply contains_tab_rstrip, contains_tab_lstrip. Qed.

Lemma split_tab_free h : contains TAB h = false -> split TAB h = [h].
Proof.
  unfold split. induction h as [|c h IH]; [done|]. intros [Hc Hh]%contains_tab_cons.
  specialize (IH Hh). unfold TAB in *.
  cbn [split_go String.prefix]. destruct (ascii_dec "009" c) as [|_]; [done|].
  by rewrite IH.
Qed.

Lemma split_tab_free_app h r :
  contains TAB h = false ->
  split TAB (h +:+ String "009" r) = h :: split TAB r.
Proof.
  unfold split. induction h as [|c h IH].
  - intros _. change ("" +:+ String "009" r) with (String "009" r). unfold TAB.
    cbn [split_go String.prefix].
    destruct (ascii_dec "009" "009") as [_|]; [|done]. by destruct r.
  - intros [Hc Hh]%contains_tab_cons. specialize (IH Hh).
    change (String c h +:+ String "009" r) with (String c (h +:+ String "009" r)).
    unfold TAB in *. cbn [split_go String.prefix].
    destruct (ascii_dec "009" c) as [|_]; [done|]. by rewrite IH.
Qed.

Lemma split1_head s :
  exists piece pieces, split1 TAB s = piece :: pieces /\ contains TAB piece = false.
Proof.
  induction s as [|c s (piece & pieces & IH & Hfree)]; [by exists "", []|].
  unfold TAB in IH |- *. cbn [split1 String.prefix]. destruct (ascii_dec "009" c) as [|Hne].
  - destruct s; by eexists "", _.
  - rewrite IH. exists (String c piece), pieces. split; [done|].
    by apply contains_tab_cons.
Qed.

Lemma prefix_with_tab a h :
  String.prefix (String a TAB) h = true -> contains TAB h = true.
Proof.
  destruct h as [|c [|d h]]; cbn [String.prefix TAB].
  - done.
  - by destruct (ascii_dec a c).
  - destruct (ascii_dec a c); [|done]. destruct (ascii_dec "009" d) as [<-|]; [|done].
    intros _. cbn [contains]. apply orb_true_iff. right.
    cbn [contains TAB String.prefix]. destruct (ascii_dec "009" "009"); [|done].
    by destruct h.
Qed.

(** A formatted node, as the classifier's tree parser reads the line. *)
Lemma format_node_read_back base_indent tabs haplo snp :
  clean_haplo haplo ->
  haplo ∉ ["Y"; "Root"] -> contains "see " (lower haplo) = false ->
  line_node_name (format_node base_indent (tabs, haplo, snp)) = Some haplo
  /\ count_indent (format_node base_indent (tabs, haplo, snp)) = (base_indent + tabs)%nat.
Proof.
  intros (Hne & Hstrip & Htab & _) Hroot Hsee. unfold format_node.
  destruct haplo as [|c h] eqn:Hhaplo; [done|]. rewrite <- Hhaplo in *.
  assert (is_space c = false) as Hc by (apply (stripped_head c h); congruence).
  split.
  2:{ rewrite count_indent_tabs. rewrite Hhaplo.
      change (count_indent (String c h +:+ TAB +:+ snp))
        with (if Ascii.eqb c "009" then S (count_indent (h +:+ TAB +:+ snp)) else 0%nat).
      destruct (Ascii.eqb c "009") eqn:Hceq; [|lia].
      apply Ascii.eqb_eq in Hceq. by rewrite Hceq in Hc. }
  assert (exists r, strip (tabs_str (base_indent + tabs) +:+ haplo +:+ TAB +:+ snp)
                    = haplo +:+ r /\ (r = "" \/ exists r', r = String "009" r'))
    as (r & Hline & Hr).
  { unfold strip. rewrite lstrip_tabs.
    replace (lstrip_by is_space (haplo +:+ TAB +:+ snp)) with (haplo +:+ TAB +:+ snp)
      by (rewrite Hhaplo; symmetry; by apply (lstrip_keeps_head is_space c)).
    rewrite rstrip_app. rewrite (stripped_rstrip haplo Hstrip).
    destruct (rstrip_by is_space (TAB +:+ snp)) as [|d r] eqn:Hrest.
    - exists "". split; [|by left]. by rewrite append_empty_r.
    - exists (String d r). split; [done|]. right.
      change (TAB +:+ snp) with (String "009" snp) in Hrest. cbn [rstrip_by] in Hrest.
      destruct (rstrip_by is_space snp); [by vm_compute in Hrest|].
      injection Hrest as <- <-. eauto. }
  unfold line_node_name. rewrite Hline.
  assert (truthy (haplo +:+ r) = true) as -> by (by rewrite Hhaplo).
  cbn [negb].
  assert (exists pieces, split TAB (haplo +:+ r) = haplo :: pieces) as [pieces ->].
  { destruct Hr as [->|[r' ->]].
    - exists []. rewrite append_empty_r. by apply split_tab_free.
    - eexists. by apply split_tab_free_app. }
  rewrite Hstrip.
  unfold in_list. rewrite bool_decide_eq_false_2.
  - by rewrite Hsee.
  - intros [->|[->|[->|[]%elem_of_nil]%elem_of_cons]%elem_of_cons]%elem_of_cons.
    + apply Hroot. left.
    + apply Hroot. right. left.
    + done.
Qed.

Lemma main_snp_ok parts haplo : exists snp, main_snp parts haplo = Ok snp.
Proof.
  unfold main_snp. destruct (1 <? length parts) eqn:Hlen; [|eauto].
  apply Nat.ltb_lt in Hlen. destruct (list_item_ok parts 1 Hlen) as [part1 ->].
  cbn [mbind outcome_bind]. destruct (truthy (strip part1)); [|eauto].
  destruct (split_cons "," (strip part1)) as (a & ? & ->).
  change (list_item (a :: _) 0) with (Ok a). cbn [mbind outcome_bind].
  destruct (split_cons "/" (strip a)) as (b & ? & ->).
  change (list_item (b :: _) 0) with (Ok b). cbn [mbind outcome_bind]. eauto.
Qed.

(** The loop body: the list is kept or gets one clean node more. *)
Lemma parse_isogg_tree_line_cases nodes line :
  parse_isogg_tree_line nodes line = Ok nodes
  \/ exists haplo snp,
       parse_isogg_tree_line nodes line = Ok (nodes ++ [(count_indent line, haplo, snp)])
       /\ clean_haplo haplo.
Proof.
  unfold parse_isogg_tree_line. destruct (negb (truthy (strip line))); [by left|].
  destruct (split1_head (rstrip_chars (String "010" (String "013" ""))
                           (str_drop (count_indent line) line)))
    as (part0 & pieces & -> & Hfree).
  change (list_item (part0 :: pieces) 0) with (Ok part0). cbn [mbind outcome_bind].
  destruct (contains "~" (strip part0)) eqn:Htilde; [by left|].
  destruct (contains "*" (strip part0)) eqn:Hstar; [by left|].
  destruct (truthy (strip part0)) eqn:Htruthy; [|by left]. cbn [orb negb].
  destruct (main_snp_ok (part0 :: pieces) (strip part0)) as [snp ->].
  cbn [mbind outcome_bind]. right. exists (strip part0), snp. split; [done|].
  split; [by destruct (strip part0)|]. split; [apply strip_idem|].
  split; [by apply contains_tab_strip|done].
Qed.

Lemma parse_isogg_tree_clean lines :
  exists nodes,
    parse_isogg_tree lines = Ok nodes
    /\ Forall (fun node : tree_node => clean_haplo node.1.2) nodes.
Proof.
  unfold parse_isogg_tree.
  destruct (for_each_ok parse_isogg_tree_line lines []) as [nodes Hnodes].
  { intros nodes line.
    destruct (parse_isogg_tree_line_cases nodes line) as [->|(? & ? & -> & _)]; eauto. }
  exists nodes. split; [done|].
  refine (for_each_inv (Forall (fun node : tree_node => clean_haplo node.1.2))
            _ _ _ _ _ _ Hnodes); [|constructor].
  intros st line st' _ Hst.
  destruct (parse_isogg_tree_line_cases st line) as [->|(haplo & snp & -> & Hclean)];
    intros [= <-]; [done|].
  apply Forall_app. split; [done|]. by constructor.
Qed.

Lemma f_nodes_clean nodes :
  Forall (fun node : tree_node => clean_haplo node.1.2) nodes ->
  f_nodes nodes
  = (fun node : tree_node => let '(t, h, s) := node in ((t + 1)%nat, h, s)) <$> nodes.
Proof.
  unfold f_nodes. induction 1 as [|[[t h] s] nodes Hclean _ IH]; [done|].
  cbn [List.filter]. unfold startswith at 1.
  destruct (String.prefix (String "F" TAB) h) eqn:Hprefix.
  - apply prefix_with_tab in Hprefix. destruct Hclean as (_ & _ & Htab & _).
    cbn [fst snd] in Htab. congruence.
  - cbn [negb fmap list_fmap]. f_equal. exact IH.
Qed.

End generator_strings.

Section generator.
Import GenerateYHapLZ.

Lemma format_node_parsed st base_indent tabs haplo snp :
  clean_haplo haplo ->
  haplo ∉ ["Y"; "Root"] -> contains "see " (lower haplo) = false ->
  exists snps,
    let path_stack := pop_while (base_indent + tabs) st.2 in
    parse_tree_line st (format_node base_indent (tabs, haplo, snp))
    = Ok (match path_stack with
          | (_, parent) :: _ => <[haplo := parent]> st.1.1
          | [] => st.1.1
          end,
          od_set haplo snps st.1.2,
          ((base_indent + tabs)%nat, haplo) :: path_stack).
Proof.
  intros Hclean Hroot Hsee.
  destruct (format_node_read_back base_indent tabs haplo snp Hclean Hroot Hsee)
    as [Hname Hindent].
  pose proof (parse_tree_line_cases st (format_node base_indent (tabs, haplo, snp))) as Hline.
  rewrite Hname, Hindent in Hline. exact Hline.
Qed.

End generator.


(** X25: the filter on the F tree in [generate_yhaplz] removes nothing: no
    name that [parse_isogg_tree] returns starts with an F followed by a
    tab, so [f_nodes] is every parsed node, one level deeper. *)
Theorem f_filter_keeps_every_node (lines : list string) :
  exists nodes,
    GenerateYHapLZ.parse_isogg_tree lines = Ok nodes
    /\ GenerateYHapLZ.f_nodes nodes
       = (fun node : GenerateYHapLZ.tree_node =>
            let '(t, h, s) := node in ((t + 1)%nat, h, s)) <$> nodes.
Proof.
  destruct (parse_isogg_tree_clean lines) as (nodes & Hnodes & Hclean).
  exists nodes. split; [done|]. by apply f_nodes_clean.
Qed.

(** X26: the line that [format_branch] writes for a node is read back by
    the tree parser of the classifier as the same node at the same depth:
    for a clean name that is not [Y], [Root] or a cross-reference, the
    loop body of [_parse_tree] defines that name at indent
    [base_indent + tabs]. *)
Theorem formatted_node_is_read_back (st : tree_state) (base_indent tabs : nat)
    (haplo snp : string) :
  clean_haplo haplo ->
  haplo ∉ ["Y"; "Root"] -> contains "see " (lower haplo) = false ->
  exists snps,
    let path_stack := pop_while (base_indent + tabs) st.2 in
    parse_tree_line st (GenerateYHapLZ.format_node base_indent (tabs, haplo, snp))
    = Ok (match path_stack with
          | (_, parent) :: _ => <[haplo := parent]> st.1.1
          | [] => st.1.1
          end,
          od_set haplo snps st.1.2,
          ((base_indent + tabs)%nat, haplo) :: path_stack).
Proof. apply format_node_parsed. Qed.

Lemma formatted_node_is_read_back_witness :
  exists snps,
    parse_tree_line (∅, [("R", ["M207"])], [(17%nat, "R")])
      (GenerateYHapLZ.format_node 17 (1%nat, "R1", "M173/P241"))
    = Ok (<["R1" := "R"]> ∅, od_set "R1" snps [("R", ["M207"])],
          [(18%nat, "R1"); (17%nat, "R")]).
Proof.
  apply (formatted_node_is_read_back (∅, [("R", ["M207"])], [(17%nat, "R")]) 17 1 "R1"
           "M173/P241").
  - by repeat split.
  - compute_done.
  - reflexivity.
Defined.

(** X27: when the F tree file starts with the F node, the generated tree
    text has F twice, at indents 9 and 10 on consecutive lines, and the
    tree parser of the classifier makes F its own parent. *)
Theorem generated_f_is_its_own_parent (lines : list string)
    (nodes : list GenerateYHapLZ.tree_node) (snp : string) (st : tree_state) :
  GenerateYHapLZ.parse_isogg_tree lines = Ok nodes ->
  head nodes = Some (0%nat, "F", snp) ->
  head (GenerateYHapLZ.f_nodes nodes) = Some (1%nat, "F", snp)
  /\ exists st1 st2,
       parse_tree_line st GenerateYHapLZ.f_line = Ok st1
       /\ parse_tree_line st1 (GenerateYHapLZ.format_node 9 (1%nat, "F", snp)) = Ok st2
       /\ st2.1.1 !! "F" = Some "F".
Proof.
  intros Hnodes Hhead.
  destruct (parse_isogg_tree_clean lines) as (nodes' & Hnodes' & Hclean).
  assert (nodes' = nodes) as -> by congruence.
  split.
  { rewrite f_nodes_clean by done. destruct nodes as [|node nodes]; [done|].
    cbn in Hhead. by injection Hhead as ->. }
  assert (clean_haplo "F") as Hf by (by repeat split).
  assert ("F" ∉ ["Y"; "Root"]) as Hroot by compute_done.
  destruct (format_node_parsed st 9 0 "F" "M89" Hf Hroot eq_refl) as [snps1 Hfirst].
  cbv zeta in Hfirst. eexists. 
  destruct (format_node_parsed
              (match pop_while (9 + 0) st.2 with
               | (_, parent) :: _ => <["F" := parent]> st.1.1
               | [] => st.1.1
               end, od_set "F" snps1 st.1.2, ((9 + 0)%nat, "F") :: pop_while (9 + 0) st.2)
              9 1 "F" snp Hf Hroot eq_refl) as [snps2 Hsecond].
  cbv zeta in Hsecond. eexists. split; [exact Hfirst|]. split; [exact Hsecond|].
  cbn [fst snd pop_while]. change (9 + 1 <=? 9 + 0) with false. cbv iota.
  by rewrite lookup_insert_eq.
Qed.

Lemma generated_f_is_its_own_parent_witness :
  head (GenerateYHapLZ.f_nodes [(0%nat, "F", "M89"); (1%nat, "F1", "P91")])
  = Some (1%nat, "F", "M89")
  /\ exists st1 st2,
       parse_tree_line (∅, [], []) GenerateYHapLZ.f_line = Ok st1
       /\ parse_tree_line st1 (GenerateYHapLZ.format_node 9 (1%nat, "F", "M89")) = Ok st2
       /\ st2.1.1 !! "F" = Some "F".
Proof.
  apply (generated_f_is_its_own_parent f_tree_lines); [vm_compute|]; reflexivity.
Defined.
